(** * Child-process creation in libuv's unix backend (src/unix/process.c)

    A shallow embedding of [uv__chld], [uv_spawn], [uv_process_kill] and
    [uv_spawn_sync].  The C functions talk to the kernel; here the kernel is
    a [world] (descriptor table, process table, errno, the event loop) that
    every call transforms, plus a log of the calls made, in program order.
    What the kernel answers (does [pipe] fail, which pid does [fork] give,
    what does [select] report) is not decided by the program: each function
    takes those answers as an explicit environment argument. *)

From Stdlib Require Import ZArith List Bool Lia String.
From stdpp Require Import base decidable gmap sets.
Import ListNotations.
#[local] Set Warnings "-clear-no-such-hyp".
Local Open Scope Z_scope.

(** ** Constants of the platform headers *)

Definition EPERM : Z := 1.
Definition ESRCH : Z := 3.
Definition EINTR : Z := 4.
Definition EBADF : Z := 9.
Definition ECHILD : Z := 10.
Definition ENOMEM : Z := 12.
Definition EINVAL : Z := 22.
Definition EMFILE : Z := 24.
Definition EPIPE : Z := 32.

Definition SIGKILL : Z := 9.
Definition SIGTERM : Z := 15.
Definition SIGCHLD : Z := 17.

Definition POLLIN : Z := 1.
Definition POLLHUP : Z := 16.

Definition STDIN_FILENO : Z := 0.
Definition STDOUT_FILENO : Z := 1.
Definition STDERR_FILENO : Z := 2.

(** libev's event bit for child watchers. *)
Definition EV_CHILD : Z := 2048.

(** Stream directions handed to [uv__stream_open]. *)
Definition UV_READABLE : Z := 32.
Definition UV_WRITABLE : Z := 64.

(** The <sys/wait.h> status macros, in the encoding of Linux and the BSDs:
    the low seven bits hold the terminating signal (zero for a normal exit,
    0x7f for a stopped child), bits 8..15 the exit code. *)
Definition WTERMSIG (status : Z) : Z := Z.land status 127.
Definition WEXITSTATUS (status : Z) : Z := Z.shiftr (Z.land status 65280) 8.
Definition WIFEXITED (status : Z) : bool := WTERMSIG status =? 0.
Definition WIFSIGNALED (status : Z) : bool :=
  let t := WTERMSIG status in negb (t =? 0) && negb (t =? 127).

(** ** Objects of uv.h *)

(** Modelled from the spec: uv.h is not among the sources; the handle type
    tag is the "capability tag used to validate that a stdio binding target
    is pipe-backed". *)
Inductive uv_handle_type :=
| UV_UNKNOWN_HANDLE | UV_TCP | UV_UDP | UV_NAMED_PIPE | UV_TTY | UV_FILE
| UV_TIMER | UV_PROCESS.

#[global] Instance uv_handle_type_eq_dec : EqDecision uv_handle_type.
Proof. solve_decision. Defined.

(** Codes of errors that libuv makes up itself. *)
Inductive uv_err_code := UV_ENOBUFS.

(** The loop's last error: none yet, an OS errno taken over as it is
    ([uv_err_new]), or an artificial code ([uv_err_new_artificial]). *)
Inductive uv_err_t :=
| NoError
| SysError (sys_errno : Z)
| Artificial (code : uv_err_code).

Record uv_loop_t := Loop {
  last_err : uv_err_t;
  counters_process_init : Z;
  loop_time : Z                      (* cached clock, milliseconds *)
}.

Record uv_stream_t := Stream { stream_type : uv_handle_type }.

(** An exit callback is caller code; only its identity matters here. *)
Definition uv_exit_cb := nat.

Record ev_child := Watcher {
  cw_active : bool;
  cw_pid : Z;
  cw_rstatus : Z
}.

Record uv_process_t := Process {
  p_pid : Z;
  p_exit_cb : option uv_exit_cb;
  p_child_watcher : ev_child
}.

Record uv_process_options_t := Options {
  o_exit_cb : option uv_exit_cb;
  o_file : string;
  o_args : list string;
  o_env : list string;
  o_cwd : option string;
  o_stdin_stream : option uv_stream_t;
  o_stdout_stream : option uv_stream_t;
  o_stderr_stream : option uv_stream_t
}.

(** The three standard streams, to name which binding a stream belongs to. *)
Inductive stdio := Stdin | Stdout | Stderr.

(** ** The world and the log of calls *)

Inductive event :=
| EvPipe (r fd0 fd1 : Z)
| EvCloexec (fd : Z)
| EvNonblock (fd : Z)
| EvClose (fd r : Z)
| EvFork (r : Z)
| EvPoll (fd events r revents : Z)
| EvKill (pid sig r : Z)
| EvSigaction (sig r : Z)
| EvSelect (nfds : Z) (rd wr : gset Z) (tv_sec tv_usec r : Z)
| EvWrite (fd buf count r : Z)
| EvRead (fd buf count r : Z)
| EvWait (r status : Z)
| EvHandleInit (t : uv_handle_type)
| EvStorePid (pid : Z)
| EvChildInit (pid : Z)
| EvChildStart (pid : Z)
| EvChildStop
| EvStreamOpen (s : stdio) (fd flags : Z)
| EvExitCb (cb : uv_exit_cb) (exit_status term_signal : Z).

Record world := World {
  w_fds : gset Z;                    (* descriptors open in this process *)
  w_procs : gset Z;                  (* pids that exist: running or unreaped *)
  w_pgrp : Z;                        (* process group of this process *)
  w_errno : Z;
  w_environ : list string;
  w_loop : uv_loop_t;                (* the event loop *)
  w_sigchld_pipe : Z * Z;            (* static int sigchld_pipe[2] *)
  w_sigchld_handler : bool;          (* SyncCHLDHandler installed *)
  w_trace : list event
}.

Definition set_fds (f : gset Z) (w : world) : world :=
  World f (w_procs w) (w_pgrp w) (w_errno w) (w_environ w) (w_loop w)
        (w_sigchld_pipe w) (w_sigchld_handler w) (w_trace w).
Definition set_procs (p : gset Z) (w : world) : world :=
  World (w_fds w) p (w_pgrp w) (w_errno w) (w_environ w) (w_loop w)
        (w_sigchld_pipe w) (w_sigchld_handler w) (w_trace w).
Definition set_errno_w (e : Z) (w : world) : world :=
  World (w_fds w) (w_procs w) (w_pgrp w) e (w_environ w) (w_loop w)
        (w_sigchld_pipe w) (w_sigchld_handler w) (w_trace w).
Definition set_environ_w (e : list string) (w : world) : world :=
  World (w_fds w) (w_procs w) (w_pgrp w) (w_errno w) e (w_loop w)
        (w_sigchld_pipe w) (w_sigchld_handler w) (w_trace w).
Definition set_loop (l : uv_loop_t) (w : world) : world :=
  World (w_fds w) (w_procs w) (w_pgrp w) (w_errno w) (w_environ w) l
        (w_sigchld_pipe w) (w_sigchld_handler w) (w_trace w).
Definition set_sigchld_pipe (p : Z * Z) (w : world) : world :=
  World (w_fds w) (w_procs w) (w_pgrp w) (w_errno w) (w_environ w) (w_loop w)
        p (w_sigchld_handler w) (w_trace w).
Definition set_sigchld_handler (b : bool) (w : world) : world :=
  World (w_fds w) (w_procs w) (w_pgrp w) (w_errno w) (w_environ w) (w_loop w)
        (w_sigchld_pipe w) b (w_trace w).
Definition log (e : event) (w : world) : world :=
  World (w_fds w) (w_procs w) (w_pgrp w) (w_errno w) (w_environ w) (w_loop w)
        (w_sigchld_pipe w) (w_sigchld_handler w) (w_trace w ++ [e]).

(** ** A state monad over the world

    [Done a w]: the code went on with value [a] in world [w].  [Crash w]: an
    [assert] failed and the process aborted.  [Stuck]: the code is still
    blocked in a loop when the recorded answers of the kernel run out. *)

Inductive outcome (A : Type) :=
| Done (a : A) (w : world)
| Crash (w : world)
| Stuck.
Arguments Done {A} a w.
Arguments Crash {A} w.
Arguments Stuck {A}.

Definition M (A : Type) := world -> outcome A.

Definition ret {A} (a : A) : M A := fun w => Done a w.
Definition bind {A B} (m : M A) (k : A -> M B) : M B :=
  fun w => match m w with
           | Done a w' => k a w'
           | Crash w' => Crash w'
           | Stuck => Stuck
           end.

Declare Scope proc_scope.
Delimit Scope proc_scope with proc.
Notation "x <- m ;; k" := (bind m (fun x => k))
  (at level 100, m at next level, right associativity) : proc_scope.
Notation "m ;; k" := (bind m (fun _ => k))
  (at level 100, right associativity) : proc_scope.
Local Open Scope proc_scope.

Definition get {A} (f : world -> A) : M A := fun w => Done (f w) w.
Definition modify (f : world -> world) : M unit := fun w => Done tt (f w).
Definition emit (e : event) : M unit := modify (log e).
Definition crash {A} : M A := fun w => Crash w.
Definition stuck {A} : M A := fun _ => Stuck.

(** [assert(c)] of <assert.h>: aborts the process when [c] is false. *)
Definition assert (c : bool) : M unit := if c then ret tt else crash.

(** ** Kernel calls *)

(** An answer of the kernel to a call that either works or fails with an
    errno. *)
Inductive sysres := SysOk | SysErr (errno : Z).

(** [fork] as seen by the parent: it fails, or returns the (positive) pid of
    the new child. *)
Inductive fork_res := ForkErr (errno : Z) | ForkOk (pid : positive).

(** [poll] on one descriptor with an infinite timeout. *)
Inductive poll_res := PollErr (errno : Z) | PollReady (revents : Z).

(** The lowest descriptor number at or above [start] that is not in [s]
    (POSIX hands out the lowest free number); [n] bounds the search and is
    the size of [s]. *)
Fixpoint lowest_from (n : nat) (start : Z) (s : gset Z) : Z :=
  match n with
  | O => start
  | S n' => if decide (start ∈ s)
            then lowest_from n' (start + 1) (s ∖ {[start]})
            else start
  end.

Definition alloc_fd (s : gset Z) : Z := lowest_from (size s) 0 s.

(** [pipe(p)]: on success stores two new descriptors in [p] and returns 0;
    on failure leaves [p] alone, sets errno and returns -1. *)
Definition sys_pipe (o : sysres) (p : Z * Z) : M (Z * (Z * Z)) :=
  match o with
  | SysErr e =>
      modify (set_errno_w e) ;;
      emit (EvPipe (-1) (fst p) (snd p)) ;;
      ret (-1, p)
  | SysOk =>
      fds <- get w_fds ;;
      let a := alloc_fd fds in
      let b := alloc_fd ({[a]} ∪ fds) in
      modify (set_fds ({[b]} ∪ ({[a]} ∪ fds))) ;;
      emit (EvPipe 0 a b) ;;
      ret (0, (a, b))
  end.

(** [close(fd)]: closes an open descriptor; on anything else fails with
    EBADF and changes nothing. *)
Definition sys_close (fd : Z) : M Z :=
  fds <- get w_fds ;;
  if decide (fd ∈ fds)
  then modify (set_fds (fds ∖ {[fd]})) ;; emit (EvClose fd 0) ;; ret 0
  else modify (set_errno_w EBADF) ;; emit (EvClose fd (-1)) ;; ret (-1).

Definition sys_fork (o : fork_res) : M Z :=
  match o with
  | ForkErr e => modify (set_errno_w e) ;; emit (EvFork (-1)) ;; ret (-1)
  | ForkOk p =>
      procs <- get w_procs ;;
      modify (set_procs ({[Z.pos p]} ∪ procs)) ;;
      emit (EvFork (Z.pos p)) ;;
      ret (Z.pos p)
  end.

Definition sys_poll (o : poll_res) (fd events : Z) : M (Z * Z) :=
  match o with
  | PollErr e =>
      modify (set_errno_w e) ;; emit (EvPoll fd events (-1) 0) ;; ret (-1, 0)
  | PollReady revents =>
      emit (EvPoll fd events 1 revents) ;; ret (1, revents)
  end.

(** [kill(pid, sig)] after POSIX: an invalid signal number is EINVAL; a
    positive [pid] names one process and is ESRCH when no such process
    exists; zero names the caller's own process group, which always has the
    caller in it; -1 names every process the caller may signal; below -1
    names the process group [-pid], and the only group of the model is the
    caller's. *)
Definition kill_errno (w : world) (pid sig : Z) : option Z :=
  if (sig <? 0) || (64 <? sig) then Some EINVAL
  else if 0 <? pid then
         if decide (pid ∈ w_procs w) then None else Some ESRCH
  else if pid =? 0 then None
  else if pid =? -1 then None
  else if - pid =? w_pgrp w then None else Some ESRCH.

Definition sys_kill (pid sig : Z) : M Z :=
  w <- get id ;;
  match kill_errno w pid sig with
  | None => emit (EvKill pid sig 0) ;; ret 0
  | Some e => modify (set_errno_w e) ;; emit (EvKill pid sig (-1)) ;; ret (-1)
  end.

(** ** Helpers of libuv that live outside process.c *)

(** Modelled from the spec: [uv__close] is declared in internal.h, which is
    not among the sources; the spec only ever says that a descriptor is
    "closed", so it is the kernel's [close]. *)
Definition uv__close (fd : Z) : M Z := sys_close fd.

(** Modelled from the spec: [uv__cloexec] (internal.h) marks a descriptor
    close-on-exec. *)
Definition uv__cloexec (fd : Z) : M unit := emit (EvCloexec fd).

(** Modelled from the spec: [uv__nonblock] (internal.h) marks a descriptor
    non-blocking. *)
Definition uv__nonblock (fd : Z) : M unit := emit (EvNonblock fd).

(** Modelled from the spec: [uv_err_new] (internal.h) hands the OS error
    code to the caller as it is, by way of the loop's last error. *)
Definition uv_err_new (sys_error : Z) : M unit :=
  modify (fun w => set_loop (Loop (SysError sys_error)
                                  (counters_process_init (w_loop w))
                                  (loop_time (w_loop w))) w).

(** Modelled from the spec: [uv_err_new_artificial] (internal.h) records a
    code "not tied to any OS error". *)
Definition uv_err_new_artificial (code : uv_err_code) : M unit :=
  modify (fun w => set_loop (Loop (Artificial code)
                                  (counters_process_init (w_loop w))
                                  (loop_time (w_loop w))) w).

(** Modelled from the spec: [uv__handle_init] (internal.h) ties the handle to
    the loop and tags its type; it opens nothing. *)
Definition uv__handle_init (t : uv_handle_type) : M unit :=
  emit (EvHandleInit t).

(** Modelled from the spec: [uv__stream_open] (internal.h) "binds a raw
    descriptor plus a direction to a higher-level stream object". *)
Definition uv__stream_open (s : stdio) (fd flags : Z) : M unit :=
  emit (EvStreamOpen s fd flags).

(** ** uv__chld: the termination reporter of the async engine *)

Definition uv__chld (process : uv_process_t) (revents : Z)
  : M uv_process_t :=
  let watcher := p_child_watcher process in
  let status := cw_rstatus watcher in
  let exit_status := 0 in
  let term_signal := 0 in
  assert (negb (Z.land revents EV_CHILD =? 0)) ;;
  (* ev_child_stop *)
  emit EvChildStop ;;
  let process :=
    Process (p_pid process) (p_exit_cb process)
            (Watcher false (cw_pid watcher) (cw_rstatus watcher)) in
  let exit_status :=
    if WIFEXITED status then WEXITSTATUS status else exit_status in
  let term_signal :=
    if WIFSIGNALED status then WTERMSIG status else term_signal in
  match p_exit_cb process with
  | Some cb => emit (EvExitCb cb exit_status term_signal)
  | None => ret tt
  end ;;
  ret process.

(** ** uv_process_kill *)

Definition uv_process_kill (process : uv_process_t) (signum : Z) : M Z :=
  r <- sys_kill (p_pid process) signum ;;
  if negb (r =? 0)
  then errno <- get w_errno ;; uv_err_new errno ;; ret (-1)
  else ret 0.

(** ** uv_spawn: the async engine *)

(** What the kernel answers during one call of [uv_spawn]. *)
Record spawn_env := SpawnEnv {
  e_pipe_stdin : sysres;
  e_pipe_stdout : sysres;
  e_pipe_stderr : sysres;
  e_pipe_signal : sysres;
  e_fork : fork_res;
  e_polls : list poll_res            (* one answer per call of poll *)
}.

(** The block that [uv_spawn] repeats for stdin, stdout and stderr: check
    the stream's type, create the pipe, mark both ends close-on-exec.
    [None] is [goto error]; the pipe array is then as it was. *)
Definition spawn_stdio_pipe (stream : option uv_stream_t) (o : sysres)
    (p : Z * Z) : M (option (Z * Z)) :=
  match stream with
  | Some s =>
      if decide (stream_type s ≠ UV_NAMED_PIPE)
      then modify (set_errno_w EINVAL) ;; ret None
      else
        rp <- sys_pipe o p ;;
        if fst rp <? 0 then ret None
        else
          uv__cloexec (fst (snd rp)) ;;
          uv__cloexec (snd (snd rp)) ;;
          ret (Some (snd rp))
  | None => ret (Some p)
  end.

(** The [error:] label. *)
Definition uv_spawn_error (process : uv_process_t)
    (stdin_pipe stdout_pipe stderr_pipe : Z * Z) : M (Z * uv_process_t) :=
  errno <- get w_errno ;;
  uv_err_new errno ;;
  uv__close (fst stdin_pipe) ;;
  uv__close (snd stdin_pipe) ;;
  uv__close (fst stdout_pipe) ;;
  uv__close (snd stdout_pipe) ;;
  uv__close (fst stderr_pipe) ;;
  uv__close (snd stderr_pipe) ;;
  ret (-1, process).

(** The do-while around [poll]: one answer of the kernel per round; the
    result is [status] and [pfd.revents]. *)
Fixpoint spawn_wait_exec (polls : list poll_res) (fd : Z) : M (Z * Z) :=
  match polls with
  | [] => stuck
  | o :: polls' =>
      modify (set_errno_w 0) ;;
      sr <- sys_poll o fd (Z.lor POLLIN POLLHUP) ;;
      errno <- get w_errno ;;
      if (fst sr =? -1) && ((errno =? EINTR) || (errno =? ENOMEM))
      then spawn_wait_exec polls' fd
      else ret sr
  end.

(** The parent's side of one stdio pipe after the fork: close the child's
    end [theirs], make [ours] non-blocking and attach it to the stream. *)
Definition spawn_attach (s : stdio) (stream : option uv_stream_t)
    (ours theirs flags : Z) : M unit :=
  if 0 <=? ours then
    assert (bool_decide (is_Some stream)) ;;
    assert (0 <=? theirs) ;;
    uv__close theirs ;;
    uv__nonblock ours ;;
    uv__stream_open s ours flags
  else ret tt.

(** The parent's path through [uv_spawn].  The synchronization pipe is made
    by the portable branch ([pipe] followed by [uv__cloexec] and
    [uv__nonblock]); SPAWN_WAIT_EXEC is 1, its default. *)
Definition uv_spawn (env : spawn_env) (process : uv_process_t)
    (options : uv_process_options_t) : M (Z * uv_process_t) :=
  save_our_env <- get w_environ ;;
  let stdin_pipe := (-1, -1) in
  let stdout_pipe := (-1, -1) in
  let stderr_pipe := (-1, -1) in
  let signal_pipe := (-1, -1) in
  uv__handle_init UV_PROCESS ;;
  modify (fun w => set_loop (Loop (last_err (w_loop w))
                                  (counters_process_init (w_loop w) + 1)
                                  (loop_time (w_loop w))) w) ;;
  let process :=
    Process (p_pid process) (o_exit_cb options) (p_child_watcher process) in
  b <- spawn_stdio_pipe (o_stdin_stream options) (e_pipe_stdin env)
                        stdin_pipe ;;
  match b with
  | None => uv_spawn_error process stdin_pipe stdout_pipe stderr_pipe
  | Some stdin_pipe =>
  b <- spawn_stdio_pipe (o_stdout_stream options) (e_pipe_stdout env)
                        stdout_pipe ;;
  match b with
  | None => uv_spawn_error process stdin_pipe stdout_pipe stderr_pipe
  | Some stdout_pipe =>
  b <- spawn_stdio_pipe (o_stderr_stream options) (e_pipe_stderr env)
                        stderr_pipe ;;
  match b with
  | None => uv_spawn_error process stdin_pipe stdout_pipe stderr_pipe
  | Some stderr_pipe =>
  rp <- sys_pipe (e_pipe_signal env) signal_pipe ;;
  if fst rp <? 0
  then uv_spawn_error process stdin_pipe stdout_pipe stderr_pipe
  else
  let signal_pipe := snd rp in
  uv__cloexec (fst signal_pipe) ;;
  uv__cloexec (snd signal_pipe) ;;
  uv__nonblock (fst signal_pipe) ;;
  uv__nonblock (snd signal_pipe) ;;
  pid <- sys_fork (e_fork env) ;;
  if pid =? -1 then
    uv__close (fst signal_pipe) ;;
    uv__close (snd signal_pipe) ;;
    modify (set_environ_w save_our_env) ;;
    uv_spawn_error process stdin_pipe stdout_pipe stderr_pipe
  else
  (* pid == 0 is the child: [uv_spawn_child] below.  Parent. *)
  modify (set_environ_w save_our_env) ;;
  uv__close (snd signal_pipe) ;;
  sr <- spawn_wait_exec (e_polls env) (fst signal_pipe) ;;
  uv__close (fst signal_pipe) ;;
  uv__close (snd signal_pipe) ;;
  assert (fst sr =? 1) ;;
  assert (Z.land (snd sr) POLLHUP =? POLLHUP) ;;
  emit (EvStorePid pid) ;;
  emit (EvChildInit pid) ;;
  emit (EvChildStart pid) ;;
  let process :=
    Process pid (p_exit_cb process)
            (Watcher true pid (cw_rstatus (p_child_watcher process))) in
  spawn_attach Stdin (o_stdin_stream options)
               (snd stdin_pipe) (fst stdin_pipe) UV_WRITABLE ;;
  spawn_attach Stdout (o_stdout_stream options)
               (fst stdout_pipe) (snd stdout_pipe) UV_READABLE ;;
  spawn_attach Stderr (o_stderr_stream options)
               (fst stderr_pipe) (snd stderr_pipe) UV_READABLE ;;
  ret (0, process)
  end end end.

(** What the forked child does; it is another process, so its steps are a
    list of its own and touch nothing of the parent's world. *)
Inductive child_event :=
| ChClose (fd : Z)
| ChDup2 (oldfd newfd : Z)
| ChChdir (dir : string)
| ChEnviron (env : list string)
| ChExecvp (file : string) (args : list string)
| ChPerror (msg : string)
| ChErrNew
| ChAssertFailed
| ChExit (code : Z).

(** The [pid == 0] branch of [uv_spawn]; [chdir_ok] and [exec_ok] say
    whether the child's [chdir] and [execvp] work. *)
Definition uv_spawn_child (options : uv_process_options_t)
    (stdin_pipe stdout_pipe stderr_pipe : Z * Z) (chdir_ok exec_ok : bool)
  : list child_event :=
  (if 0 <=? fst stdin_pipe
   then [ChClose (snd stdin_pipe); ChDup2 (fst stdin_pipe) STDIN_FILENO]
   else []) ++
  (if 0 <=? snd stdout_pipe
   then [ChClose (fst stdout_pipe); ChDup2 (snd stdout_pipe) STDOUT_FILENO]
   else []) ++
  (if 0 <=? snd stderr_pipe
   then [ChClose (fst stderr_pipe); ChDup2 (snd stderr_pipe) STDERR_FILENO]
   else []) ++
  match o_cwd options with
  | Some dir =>
      if chdir_ok then [ChChdir dir] else [ChChdir dir; ChPerror "chdir()"]
  | None => []
  end ++
  if match o_cwd options with Some _ => negb chdir_ok | None => false end
  then [ChExit 127]
  else
    [ChEnviron (o_env options); ChExecvp (o_file options) (o_args options)] ++
    if exec_ok then [] else [ChPerror "execvp()"; ChExit 127].

(** ** uv_spawn_sync: the sync engine *)

(** Modelled from the spec: the record is declared in uv.h, which is not
    among the sources: "a single mutable record combining input (file,
    arguments, input buffer for stdin, capacities for stdout/stderr capture
    buffers, timeout duration, flag to merge stderr into stdout) and output
    (process id, exit code, termination signal, bytes written to child,
    bytes read from each capture buffer, a flag indicating timeout
    occurred)".  A buffer is a pointer: [None] is NULL, [Some a] the address
    [a].  The counters are C ints, kept as unbounded integers. *)
Record uv_spawn_sync_t := SpawnSync {
  s_file : string;
  s_args : list string;
  s_stdin_buf : option Z;
  s_stdin_size : Z;
  s_stdout_buf : option Z;
  s_stdout_size : Z;
  s_stderr_buf : option Z;
  s_stderr_size : Z;
  s_timeout : Z;
  s_combine : Z;
  s_pid : Z;
  s_exit_code : Z;
  s_exit_signal : Z;
  s_exit_timeout : Z;
  s_stdin_written : Z;
  s_stdout_read : Z;
  s_stderr_read : Z
}.

Definition set_pid (v : Z) (s : uv_spawn_sync_t) : uv_spawn_sync_t :=
  SpawnSync (s_file s) (s_args s) (s_stdin_buf s) (s_stdin_size s)
    (s_stdout_buf s) (s_stdout_size s) (s_stderr_buf s) (s_stderr_size s)
    (s_timeout s) (s_combine s) v (s_exit_code s) (s_exit_signal s)
    (s_exit_timeout s) (s_stdin_written s) (s_stdout_read s) (s_stderr_read s).
Definition set_exit_code (v : Z) (s : uv_spawn_sync_t) : uv_spawn_sync_t :=
  SpawnSync (s_file s) (s_args s) (s_stdin_buf s) (s_stdin_size s)
    (s_stdout_buf s) (s_stdout_size s) (s_stderr_buf s) (s_stderr_size s)
    (s_timeout s) (s_combine s) (s_pid s) v (s_exit_signal s)
    (s_exit_timeout s) (s_stdin_written s) (s_stdout_read s) (s_stderr_read s).
Definition set_exit_signal (v : Z) (s : uv_spawn_sync_t) : uv_spawn_sync_t :=
  SpawnSync (s_file s) (s_args s) (s_stdin_buf s) (s_stdin_size s)
    (s_stdout_buf s) (s_stdout_size s) (s_stderr_buf s) (s_stderr_size s)
    (s_timeout s) (s_combine s) (s_pid s) (s_exit_code s) v
    (s_exit_timeout s) (s_stdin_written s) (s_stdout_read s) (s_stderr_read s).
Definition set_exit_timeout (v : Z) (s : uv_spawn_sync_t) : uv_spawn_sync_t :=
  SpawnSync (s_file s) (s_args s) (s_stdin_buf s) (s_stdin_size s)
    (s_stdout_buf s) (s_stdout_size s) (s_stderr_buf s) (s_stderr_size s)
    (s_timeout s) (s_combine s) (s_pid s) (s_exit_code s) (s_exit_signal s)
    v (s_stdin_written s) (s_stdout_read s) (s_stderr_read s).
Definition set_stdin_written (v : Z) (s : uv_spawn_sync_t) : uv_spawn_sync_t :=
  SpawnSync (s_file s) (s_args s) (s_stdin_buf s) (s_stdin_size s)
    (s_stdout_buf s) (s_stdout_size s) (s_stderr_buf s) (s_stderr_size s)
    (s_timeout s) (s_combine s) (s_pid s) (s_exit_code s) (s_exit_signal s)
    (s_exit_timeout s) v (s_stdout_read s) (s_stderr_read s).
Definition set_stdout_read (v : Z) (s : uv_spawn_sync_t) : uv_spawn_sync_t :=
  SpawnSync (s_file s) (s_args s) (s_stdin_buf s) (s_stdin_size s)
    (s_stdout_buf s) (s_stdout_size s) (s_stderr_buf s) (s_stderr_size s)
    (s_timeout s) (s_combine s) (s_pid s) (s_exit_code s) (s_exit_signal s)
    (s_exit_timeout s) (s_stdin_written s) v (s_stderr_read s).
Definition set_stderr_read (v : Z) (s : uv_spawn_sync_t) : uv_spawn_sync_t :=
  SpawnSync (s_file s) (s_args s) (s_stdin_buf s) (s_stdin_size s)
    (s_stdout_buf s) (s_stdout_size s) (s_stderr_buf s) (s_stderr_size s)
    (s_timeout s) (s_combine s) (s_pid s) (s_exit_code s) (s_exit_signal s)
    (s_exit_timeout s) (s_stdin_written s) (s_stdout_read s) v.

(** A pointer is true in a condition when it is not NULL. *)
Definition nonnull (p : option Z) : bool :=
  match p with Some _ => true | None => false end.

(** [buf + n] for a buffer that is not NULL. *)
Definition ptr_add (p : option Z) (n : Z) : Z :=
  match p with Some a => a + n | None => n end.

(** [select]: the kernel knows which descriptors are ready ([rd], [wr]), or
    the call fails. *)
Inductive select_res := SelErr (errno : Z) | SelReady (rd wr : gset Z).

(** [read] and [write]: an error, or the number of bytes the pipe can give
    or take right now (zero on a read is end-of-stream). *)
Inductive io_res := IoErr (errno : Z) | IoOk (n : N).

Inductive wait_res := WaitErr (errno : Z) | WaitOk (pid : positive) (status : Z).

(** The kernel's answers during one pass of the multiplexing loop; a pass
    uses only the answers of the calls it makes. *)
Record iter_env := IterEnv {
  i_select : select_res;
  i_write : io_res;
  i_read_out : io_res;
  i_read_err : io_res;
  i_wait : wait_res;
  i_clock : Z                        (* the clock read by uv_update_time *)
}.

Record sync_env := SyncEnv {
  y_pipe_stdin : sysres;
  y_pipe_stdout : sysres;
  y_pipe_stderr : sysres;
  y_pipe_sigchld : sysres;
  y_fork : fork_res;
  y_sigaction : sysres;
  y_iters : list iter_env            (* one entry per pass of the loop *)
}.

(** [select] leaves in each set the descriptors that are ready and returns
    how many there are; zero is the timeout.  On error the sets are left
    alone. *)
Definition sys_select (o : select_res) (nfds : Z) (read_fds write_fds : gset Z)
    (tv_sec tv_usec : Z) : M (Z * (gset Z * gset Z)) :=
  match o with
  | SelErr e =>
      modify (set_errno_w e) ;;
      emit (EvSelect nfds read_fds write_fds tv_sec tv_usec (-1)) ;;
      ret (-1, (read_fds, write_fds))
  | SelReady rd wr =>
      let r := Z.of_nat (size (read_fds ∩ rd) + size (write_fds ∩ wr)) in
      emit (EvSelect nfds read_fds write_fds tv_sec tv_usec r) ;;
      ret (r, (read_fds ∩ rd, write_fds ∩ wr))
  end.

(** [write(fd, buf, count)] takes at most [count] bytes. *)
Definition sys_write (o : io_res) (fd buf count : Z) : M Z :=
  match o with
  | IoErr e =>
      modify (set_errno_w e) ;; emit (EvWrite fd buf count (-1)) ;; ret (-1)
  | IoOk n =>
      let r := Z.min (Z.of_N n) count in
      emit (EvWrite fd buf count r) ;; ret r
  end.

(** [read(fd, buf, count)] gives at most [count] bytes. *)
Definition sys_read (o : io_res) (fd buf count : Z) : M Z :=
  match o with
  | IoErr e =>
      modify (set_errno_w e) ;; emit (EvRead fd buf count (-1)) ;; ret (-1)
  | IoOk n =>
      let r := Z.min (Z.of_N n) count in
      emit (EvRead fd buf count r) ;; ret r
  end.

(** [wait(&status)] reaps a child. *)
Definition sys_wait (o : wait_res) : M (Z * Z) :=
  match o with
  | WaitErr e =>
      modify (set_errno_w e) ;; emit (EvWait (-1) 0) ;; ret (-1, 0)
  | WaitOk p status =>
      procs <- get w_procs ;;
      modify (set_procs (procs ∖ {[Z.pos p]})) ;;
      emit (EvWait (Z.pos p) status) ;;
      ret (Z.pos p, status)
  end.

(** [sigaction(SIGCHLD, &siga, NULL)] with [SyncCHLDHandler] as handler. *)
Definition sys_sigaction (o : sysres) (sig : Z) : M Z :=
  match o with
  | SysErr e =>
      modify (set_errno_w e) ;; emit (EvSigaction sig (-1)) ;; ret (-1)
  | SysOk =>
      modify (set_sigchld_handler true) ;; emit (EvSigaction sig 0) ;; ret 0
  end.

(** Modelled from the spec: [uv_now] and [uv_update_time] (uv.h) are the
    reactor's "current time" query, a cached clock in milliseconds. *)
Definition uv_now : M Z := get (fun w => loop_time (w_loop w)).
Definition uv_update_time (clock : Z) : M unit :=
  modify (fun w => set_loop (Loop (last_err (w_loop w))
                                  (counters_process_init (w_loop w))
                                  clock) w).

Definition MAX (a b : Z) : Z := if b <? a then a else b.


(** The locals of [uv_spawn_sync] that outlive the set-up.  The three pipe
    arrays are not initialised in C; each is only read where the buffer it
    belongs to is not NULL, and then [pipe] has filled it. *)
Record sync_locals := Locals {
  l_stdin_pipe : Z * Z;
  l_stdout_pipe : Z * Z;
  l_stderr_pipe : Z * Z;
  l_nfds : Z;
  l_start_time : Z
}.

(** [if (spawn->buf && pipe(p)) { uv_err_new(loop, errno); return -1; }]:
    [None] is the return of -1. *)
Definition sync_pipe (buf : option Z) (o : sysres) (p : Z * Z)
  : M (option (Z * Z)) :=
  if nonnull buf then
    rp <- sys_pipe o p ;;
    if negb (fst rp =? 0)
    then errno <- get w_errno ;; uv_err_new errno ;; ret None
    else ret (Some (snd rp))
  else ret (Some p).

(** The run of [close] calls that ends the timeout path, the exit path and
    the [error:] label alike. *)
Definition sync_close_pipes (spawn : uv_spawn_sync_t) (l : sync_locals)
  : M unit :=
  sp <- get w_sigchld_pipe ;;
  sys_close (fst sp) ;;
  sys_close (snd sp) ;;
  (if nonnull (s_stdin_buf spawn)
   then sys_close (snd (l_stdin_pipe l)) ;; ret tt else ret tt) ;;
  (if nonnull (s_stdout_buf spawn)
   then sys_close (fst (l_stdout_pipe l)) ;; ret tt else ret tt) ;;
  (if nonnull (s_stderr_buf spawn)
   then sys_close (fst (l_stderr_pipe l)) ;; ret tt else ret tt).

(** The [error:] label. *)
Definition sync_error (spawn : uv_spawn_sync_t) (l : sync_locals)
  : M (Z * uv_spawn_sync_t) :=
  sync_close_pipes spawn l ;;
  sys_kill (s_pid spawn) SIGKILL ;;
  ret (-1, spawn).

(** How one pass of the loop ends: with [continue] or the end of the body,
    or with a [return]. *)
Inductive flow :=
| Continue (spawn : uv_spawn_sync_t)
| Return (r : Z) (spawn : uv_spawn_sync_t).

(** The stdin block of the loop; [None] is [goto error]. *)
Definition sync_feed (o : io_res) (spawn : uv_spawn_sync_t) (l : sync_locals)
    (write_fds : gset Z) : M (option uv_spawn_sync_t) :=
  if nonnull (s_stdin_buf spawn)
     && bool_decide (snd (l_stdin_pipe l) ∈ write_fds)
     && (s_stdin_written spawn <? s_stdin_size spawn)
  then
    written <- sys_write o (snd (l_stdin_pipe l))
                 (ptr_add (s_stdin_buf spawn) (s_stdin_written spawn))
                 (s_stdin_size spawn - s_stdin_written spawn) ;;
    errno <- get w_errno ;;
    if (written =? -1) && negb (errno =? EINTR)
    then uv_err_new errno ;; ret None
    else ret (Some (set_stdin_written (s_stdin_written spawn + written) spawn))
  else ret (Some spawn).

(** The block that the loop repeats for stdout and stderr; the result is
    the new read count, [None] is [goto error]. *)
Definition sync_capture (o : io_res) (buf : option Z) (fd size nread : Z)
    (read_fds : gset Z) : M (option Z) :=
  if nonnull buf && bool_decide (fd ∈ read_fds) then
    if size - nread <=? 0 then
      uv_err_new_artificial UV_ENOBUFS ;; ret None
    else
      r <- sys_read o fd (ptr_add buf nread) (size - nread) ;;
      if r =? -1
      then errno <- get w_errno ;; uv_err_new errno ;; ret None
      else ret (Some (nread + r))
  else ret (Some nread).

(** The last block of the loop body: the self-pipe. *)
Definition sync_reap (e : iter_env) (spawn : uv_spawn_sync_t)
    (l : sync_locals) (read_fds : gset Z) : M flow :=
  sp <- get w_sigchld_pipe ;;
  if bool_decide (fst sp ∈ read_fds) then
    ps <- sys_wait (i_wait e) ;;
    if fst ps <? 0 then
      errno <- get w_errno ;; uv_err_new errno ;;
      rs <- sync_error spawn l ;; ret (Return (fst rs) (snd rs))
    else
      let status := snd ps in
      sync_close_pipes spawn l ;;
      let spawn :=
        if WIFEXITED status
        then set_exit_code (WEXITSTATUS status) spawn else spawn in
      let spawn :=
        if WIFSIGNALED status
        then set_exit_signal (WTERMSIG status) spawn else spawn in
      ret (Return 0 spawn)
  else
    uv_update_time (i_clock e) ;;
    ret (Continue spawn).

(** The sets handed to [select]. *)
Definition sync_read_fds (spawn : uv_spawn_sync_t) (l : sync_locals)
    (sigchld_pipe : Z * Z) : gset Z :=
  let read_fds : gset Z := ∅ in
  let read_fds := if nonnull (s_stdout_buf spawn)
                  then {[fst (l_stdout_pipe l)]} ∪ read_fds else read_fds in
  let read_fds := if nonnull (s_stderr_buf spawn)
                  then {[fst (l_stderr_pipe l)]} ∪ read_fds else read_fds in
  {[fst sigchld_pipe]} ∪ read_fds.

Definition sync_write_fds (spawn : uv_spawn_sync_t) (l : sync_locals)
  : gset Z :=
  let write_fds : gset Z := ∅ in
  if nonnull (s_stdin_buf spawn)
  then {[snd (l_stdin_pipe l)]} ∪ write_fds else write_fds.

(** One pass through the body of [while (1)]. *)
Definition sync_iter (e : iter_env) (spawn : uv_spawn_sync_t)
    (l : sync_locals) : M flow :=
  sp <- get w_sigchld_pipe ;;
  let read_fds := sync_read_fds spawn l sp in
  let write_fds := sync_write_fds spawn l in
  now <- uv_now ;;
  let elapsed := now - l_start_time l in
  let time_to_timeout := s_timeout spawn - elapsed in
  let time_to_timeout :=
    if time_to_timeout <? 0 then 0 else time_to_timeout in
  let tv_sec := Z.quot time_to_timeout 1000 in
  let tv_usec := Z.rem time_to_timeout 1000 in
  sel <- sys_select (i_select e) (l_nfds l) read_fds write_fds
                    tv_sec tv_usec ;;
  let r := fst sel in
  let read_fds := fst (snd sel) in
  let write_fds := snd (snd sel) in
  if r =? -1 then
    errno <- get w_errno ;;
    if errno =? EINTR then ret (Continue spawn)
    else
      uv_err_new errno ;;
      rs <- sync_error spawn l ;; ret (Return (fst rs) (snd rs))
  else if r =? 0 then
    (* timeout *)
    sync_close_pipes spawn l ;;
    sys_kill (s_pid spawn) SIGKILL ;;
    ret (Return 0 (set_exit_timeout 1 spawn))
  else
  b <- sync_feed (i_write e) spawn l write_fds ;;
  match b with
  | None => rs <- sync_error spawn l ;; ret (Return (fst rs) (snd rs))
  | Some spawn =>
  b <- sync_capture (i_read_out e) (s_stdout_buf spawn)
         (fst (l_stdout_pipe l)) (s_stdout_size spawn) (s_stdout_read spawn)
         read_fds ;;
  match b with
  | None => rs <- sync_error spawn l ;; ret (Return (fst rs) (snd rs))
  | Some n =>
  let spawn := set_stdout_read n spawn in
  b <- sync_capture (i_read_err e) (s_stderr_buf spawn)
         (fst (l_stderr_pipe l)) (s_stderr_size spawn) (s_stderr_read spawn)
         read_fds ;;
  match b with
  | None => rs <- sync_error spawn l ;; ret (Return (fst rs) (snd rs))
  | Some n =>
  let spawn := set_stderr_read n spawn in
  sync_reap e spawn l read_fds
  end end end.

(** [while (1)]: one entry of [its] per pass; the loop is still running
    when the entries run out. *)
Fixpoint sync_loop (its : list iter_env) (spawn : uv_spawn_sync_t)
    (l : sync_locals) : M (Z * uv_spawn_sync_t) :=
  match its with
  | [] => stuck
  | e :: its' =>
      f <- sync_iter e spawn l ;;
      match f with
      | Continue spawn' => sync_loop its' spawn' l
      | Return r spawn' => ret (r, spawn')
      end
  end.

(** The set-up of [uv_spawn_sync], up to the loop: the pipes, the fork, the
    parent's closing of the child's ends, the signal handler.  [inl] is an
    early [return] (or the [goto error] of a failed [sigaction], already
    run), [inr] the state in which the loop is entered. *)
Definition sync_setup (env : sync_env) (spawn : uv_spawn_sync_t)
  : M (Z * uv_spawn_sync_t + uv_spawn_sync_t * sync_locals) :=
  let stdin_pipe := (-1, -1) in
  let stdout_pipe := (-1, -1) in
  let stderr_pipe := (-1, -1) in
  let spawn := set_pid (-1) spawn in
  let spawn := set_exit_code (-1) spawn in
  let spawn := set_exit_signal (-1) spawn in
  let spawn := set_exit_timeout 0 spawn in
  let spawn := set_stdout_read 0 spawn in
  let spawn := set_stderr_read 0 spawn in
  b <- sync_pipe (s_stdin_buf spawn) (y_pipe_stdin env) stdin_pipe ;;
  match b with
  | None => ret (inl (-1, spawn))
  | Some stdin_pipe =>
  b <- sync_pipe (s_stdout_buf spawn) (y_pipe_stdout env) stdout_pipe ;;
  match b with
  | None => ret (inl (-1, spawn))
  | Some stdout_pipe =>
  b <- sync_pipe (s_stderr_buf spawn) (y_pipe_stderr env) stderr_pipe ;;
  match b with
  | None => ret (inl (-1, spawn))
  | Some stderr_pipe =>
  sp <- get w_sigchld_pipe ;;
  rp <- sys_pipe (y_pipe_sigchld env) sp ;;
  modify (set_sigchld_pipe (snd rp)) ;;
  if negb (fst rp =? 0)
  then errno <- get w_errno ;; uv_err_new errno ;; ret (inl (-1, spawn))
  else
  pid <- sys_fork (y_fork env) ;;
  let spawn := set_pid pid spawn in
  if pid =? -1
  then errno <- get w_errno ;; uv_err_new errno ;; ret (inl (-1, spawn))
  else
  (* case 0 is the child: [uv_spawn_sync_child] below.  Parent. *)
  sp <- get w_sigchld_pipe ;;
  let nfds := fst sp in
  nfds <- (if nonnull (s_stdout_buf spawn)
           then sys_close (snd stdout_pipe) ;;
                ret (MAX nfds (fst stdout_pipe))
           else ret nfds) ;;
  nfds <- (if nonnull (s_stderr_buf spawn)
           then sys_close (snd stderr_pipe) ;;
                ret (MAX nfds (fst stderr_pipe))
           else ret nfds) ;;
  nfds <- (if nonnull (s_stdin_buf spawn)
           then sys_close (fst stdin_pipe) ;;
                ret (MAX nfds (snd stdin_pipe))
           else ret nfds) ;;
  let nfds := nfds + 1 in
  start_time <- uv_now ;;
  let l := Locals stdin_pipe stdout_pipe stderr_pipe nfds start_time in
  r <- sys_sigaction (y_sigaction env) SIGCHLD ;;
  if negb (r =? 0)
  then errno <- get w_errno ;; uv_err_new errno ;;
       rs <- sync_error spawn l ;; ret (inl rs)
  else ret (inr (spawn, l))
  end end end.

Definition uv_spawn_sync (env : sync_env) (spawn : uv_spawn_sync_t)
  : M (Z * uv_spawn_sync_t) :=
  s <- sync_setup env spawn ;;
  match s with
  | inl rs => ret rs
  | inr (spawn, l) => sync_loop (y_iters env) spawn l
  end.

(** The [case 0] branch of the switch on [fork()]: what the child does.  A
    failed [assert] aborts the child on the spot. *)
Definition uv_spawn_sync_child (spawn : uv_spawn_sync_t)
    (stdin_pipe stdout_pipe stderr_pipe : Z * Z) (exec_ok : bool)
  : list child_event :=
  let feed :=
    if nonnull (s_stdin_buf spawn)
    then [ChClose (snd stdin_pipe); ChDup2 (fst stdin_pipe) STDIN_FILENO]
    else [] in
  let out :=
    if nonnull (s_stdout_buf spawn)
    then [ChClose (fst stdout_pipe); ChDup2 (snd stdout_pipe) STDOUT_FILENO]
         ++ (if negb (s_combine spawn =? 0)
             then [ChDup2 (snd stdout_pipe) STDERR_FILENO] else [])
    else [] in
  if nonnull (s_stdout_buf spawn) && negb (s_combine spawn =? 0)
     && negb (negb (nonnull (s_stderr_buf spawn)))
  then feed ++ out ++ [ChAssertFailed]
  else
    feed ++ out ++
    (if nonnull (s_stderr_buf spawn)
     then [ChClose (fst stderr_pipe); ChDup2 (snd stderr_pipe) STDERR_FILENO]
     else []) ++
    [ChExecvp (s_file spawn) (s_args spawn)] ++
    (if exec_ok then [] else [ChErrNew; ChExit 127]).

(** * Vocabulary of the properties *)

(** [close] as a function on worlds. *)
Definition close_r (fd : Z) (w : world) : Z :=
  if decide (fd ∈ w_fds w) then 0 else -1.
Definition close_w (fd : Z) (w : world) : world :=
  if decide (fd ∈ w_fds w)
  then log (EvClose fd 0) (set_fds (w_fds w ∖ {[fd]}) w)
  else log (EvClose fd (-1)) (set_errno_w EBADF w).

(** [kill] as a function on worlds. *)
Definition kill_r (pid sig : Z) (w : world) : Z :=
  match kill_errno w pid sig with None => 0 | Some _ => -1 end.
Definition kill_w (pid sig : Z) (w : world) : world :=
  match kill_errno w pid sig with
  | None => log (EvKill pid sig 0) w
  | Some e => log (EvKill pid sig (-1)) (set_errno_w e w)
  end.

(** ** Worlds and handles for examples *)

(** A world to run examples in: the three standard descriptors are open,
    there is no child yet, no error, the clock is at zero. *)
Definition world0 : world :=
  World {[0; 1; 2]} ∅ 100 0 [] (Loop NoError 0 0) (0, 0) false [].

(** A handle that was never spawned with success, in zeroed memory. *)
Definition process0 : uv_process_t := Process 0 None (Watcher false 0 0).

(** ** Changing one field of the sync record *)

Definition set_combine (v : Z) (s : uv_spawn_sync_t) : uv_spawn_sync_t :=
  SpawnSync (s_file s) (s_args s) (s_stdin_buf s) (s_stdin_size s)
    (s_stdout_buf s) (s_stdout_size s) (s_stderr_buf s) (s_stderr_size s)
    (s_timeout s) v (s_pid s) (s_exit_code s) (s_exit_signal s)
    (s_exit_timeout s) (s_stdin_written s) (s_stdout_read s) (s_stderr_read s).

(** The result of a call, with [f] applied to the record it returns. *)
Definition on_result (f : uv_spawn_sync_t -> uv_spawn_sync_t)
    (o : outcome (Z * uv_spawn_sync_t)) : outcome (Z * uv_spawn_sync_t) :=
  match o with
  | Done rs w => Done (fst rs, f (snd rs)) w
  | Crash w => Crash w
  | Stuck => Stuck
  end.

(** ** Closing what the sync engine holds *)

(** The descriptors that the parent holds while the loop runs, in the order
    in which every exit of the loop closes them. *)
Definition held_fds (spawn : uv_spawn_sync_t) (l : sync_locals)
    (sigchld_pipe : Z * Z) : list Z :=
  [fst sigchld_pipe; snd sigchld_pipe] ++
  (if nonnull (s_stdin_buf spawn) then [snd (l_stdin_pipe l)] else []) ++
  (if nonnull (s_stdout_buf spawn) then [fst (l_stdout_pipe l)] else []) ++
  (if nonnull (s_stderr_buf spawn) then [fst (l_stderr_pipe l)] else []).

Definition close_all_w (fds : list Z) (w : world) : world :=
  fold_left (fun w fd => close_w fd w) fds w.

(** What holds each time the loop of [uv_spawn_sync] is about to start a
    pass: [w0] and [spawn0] are the world and the record at the call,
    [child] the pid that [fork] gave. *)
Record sync_inv (w0 : world) (spawn0 : uv_spawn_sync_t) (child : Z)
    (spawn : uv_spawn_sync_t) (l : sync_locals) (w : world) : Prop := SyncInv {
  inv_stdin_buf : s_stdin_buf spawn = s_stdin_buf spawn0;
  inv_stdout_buf : s_stdout_buf spawn = s_stdout_buf spawn0;
  inv_stderr_buf : s_stderr_buf spawn = s_stderr_buf spawn0;
  inv_stdin_size : s_stdin_size spawn = s_stdin_size spawn0;
  inv_stdout_size : s_stdout_size spawn = s_stdout_size spawn0;
  inv_stderr_size : s_stderr_size spawn = s_stderr_size spawn0;
  inv_pid : s_pid spawn = child;
  inv_child_pos : 0 < child;
  inv_child : child ∈ w_procs w;
  inv_exit_code : s_exit_code spawn = -1;
  inv_exit_signal : s_exit_signal spawn = -1;
  inv_exit_timeout : s_exit_timeout spawn = 0;
  inv_held_nodup : NoDup (held_fds spawn l (w_sigchld_pipe w));
  inv_held_fresh :
    forall fd, fd ∈ held_fds spawn l (w_sigchld_pipe w) -> fd ∉ w_fds w0;
  inv_fds :
    w_fds w = w_fds w0 ∪ list_to_set (held_fds spawn l (w_sigchld_pipe w));
  inv_trace : exists evs, w_trace w = w_trace w0 ++ evs
}.

(** What no block of a pass touches: the descriptor table, the process
    table, the self-pipe, the cached clock. *)
Definition same_kernel (w w' : world) : Prop :=
  w_fds w' = w_fds w /\ w_procs w' = w_procs w /\ w_pgrp w' = w_pgrp w /\
  w_sigchld_pipe w' = w_sigchld_pipe w /\
  loop_time (w_loop w') = loop_time (w_loop w).

Definition is_write (ev : event) : Prop :=
  match ev with EvWrite _ _ _ _ => True | _ => False end.

(** A [read] on [fd] that asks for at least one byte and at most what is
    left of a buffer of [size] bytes at [buf], [nread] of them filled. *)
Definition is_read_within (fd : Z) (buf : option Z) (size nread : Z)
    (ev : event) : Prop :=
  exists r, ev = EvRead fd (ptr_add buf nread) (size - nread) r /\
            0 < size - nread /\ -1 <= r <= size - nread.

(** The [EvClose] records of closing [fds], all with success. *)
Definition closes (fds : list Z) : list event :=
  map (fun fd => EvClose fd 0) fds.

(** What the exit path writes into the record from the wait status. *)
Definition decode_status (status : Z) (spawn : uv_spawn_sync_t)
  : uv_spawn_sync_t :=
  let spawn := if WIFEXITED status
               then set_exit_code (WEXITSTATUS status) spawn else spawn in
  if WIFSIGNALED status
  then set_exit_signal (WTERMSIG status) spawn else spawn.

(** The body of the loop after a [select] that found something ready:
    [read_fds] and [write_fds] are the sets as [select] left them. *)
Definition sync_tail (e : iter_env) (spawn : uv_spawn_sync_t)
    (l : sync_locals) (read_fds write_fds : gset Z) : M flow :=
  b <- sync_feed (i_write e) spawn l write_fds ;;
  match b with
  | None => rs <- sync_error spawn l ;; ret (Return (fst rs) (snd rs))
  | Some spawn =>
  b <- sync_capture (i_read_out e) (s_stdout_buf spawn)
         (fst (l_stdout_pipe l)) (s_stdout_size spawn) (s_stdout_read spawn)
         read_fds ;;
  match b with
  | None => rs <- sync_error spawn l ;; ret (Return (fst rs) (snd rs))
  | Some n =>
  let spawn := set_stdout_read n spawn in
  b <- sync_capture (i_read_err e) (s_stderr_buf spawn)
         (fst (l_stderr_pipe l)) (s_stderr_size spawn) (s_stderr_read spawn)
         read_fds ;;
  match b with
  | None => rs <- sync_error spawn l ;; ret (Return (fst rs) (snd rs))
  | Some n =>
  let spawn := set_stderr_read n spawn in
  sync_reap e spawn l read_fds
  end end end.

(** The remaining time, clamped at zero, that a pass hands to [select]. *)
Definition time_to_timeout (spawn : uv_spawn_sync_t) (l : sync_locals)
    (w : world) : Z :=
  let t := s_timeout spawn - (loop_time (w_loop w) - l_start_time l) in
  if t <? 0 then 0 else t.

(** The record of the [select] call of a pass that starts in world [w]. *)
Definition select_event (spawn : uv_spawn_sync_t) (l : sync_locals)
    (w : world) (r : Z) : event :=
  EvSelect (l_nfds l) (sync_read_fds spawn l (w_sigchld_pipe w))
    (sync_write_fds spawn l)
    (Z.quot (time_to_timeout spawn l w) 1000)
    (Z.rem (time_to_timeout spawn l w) 1000) r.

(** How many descriptors [select] reports for the sets of this pass. *)
Definition select_count (spawn : uv_spawn_sync_t) (l : sync_locals)
    (w : world) (rd wr : gset Z) : Z :=
  Z.of_nat (size (sync_read_fds spawn l (w_sigchld_pipe w) ∩ rd)
            + size (sync_write_fds spawn l ∩ wr)).

(** A pass only ever moves the three cursors of the record, and a read
    cursor only forward and within its buffer. *)
Definition cursors_moved (s s' : uv_spawn_sync_t) : Prop :=
  exists a b c,
    s' = set_stderr_read c (set_stdout_read b (set_stdin_written a s)) /\
    (b = s_stdout_read s \/
     (s_stdout_read s <= b <= s_stdout_size s /\
      nonnull (s_stdout_buf s) = true)) /\
    (c = s_stderr_read s \/
     (s_stderr_read s <= c <= s_stderr_size s /\
      nonnull (s_stderr_buf s) = true)).

(** Why a pass took the [error:] exit, as the loop's last error tells:
    the stdin write failed, a capture buffer was full, a capture read
    failed, or [wait] failed. *)
Definition abort_cause (e : iter_env) (spawn : uv_spawn_sync_t)
    (l : sync_locals) (read_fds : gset Z) (err : uv_err_t) : Prop :=
  (exists errno, i_write e = IoErr errno /\ errno <> EINTR /\
                 err = SysError errno) \/
  (nonnull (s_stdout_buf spawn) = true /\
   fst (l_stdout_pipe l) ∈ read_fds /\
   s_stdout_size spawn - s_stdout_read spawn <= 0 /\
   err = Artificial UV_ENOBUFS) \/
  (nonnull (s_stdout_buf spawn) = true /\
   fst (l_stdout_pipe l) ∈ read_fds /\
   exists errno, i_read_out e = IoErr errno /\ err = SysError errno) \/
  (nonnull (s_stderr_buf spawn) = true /\
   fst (l_stderr_pipe l) ∈ read_fds /\
   s_stderr_size spawn - s_stderr_read spawn <= 0 /\
   err = Artificial UV_ENOBUFS) \/
  (nonnull (s_stderr_buf spawn) = true /\
   fst (l_stderr_pipe l) ∈ read_fds /\
   exists errno, i_read_err e = IoErr errno /\ err = SysError errno) \/
  (exists errno, i_wait e = WaitErr errno /\ err = SysError errno).

(** The state in which the loop is after the passes [its], when each of
    them ended with [continue] or at the end of the body. *)
Fixpoint sync_passes (its : list iter_env) (spawn : uv_spawn_sync_t)
    (l : sync_locals) (w : world) : option (uv_spawn_sync_t * world) :=
  match its with
  | [] => Some (spawn, w)
  | e :: its' =>
      match sync_iter e spawn l w with
      | Done (Continue spawn') w' => sync_passes its' spawn' l w'
      | _ => None
      end
  end.

(** The state in which pass number [n] (from zero) of a call of
    [uv_spawn_sync] starts: the set-up went through and the [n] passes
    before all went round. *)
Definition sync_reach (env : sync_env) (spawn : uv_spawn_sync_t) (w : world)
    (n : nat) : option (uv_spawn_sync_t * sync_locals * world) :=
  match sync_setup env spawn w with
  | Done (inr (spawn1, l)) w1 =>
      match sync_passes (take n (y_iters env)) spawn1 l w1 with
      | Some (spawn', w') => Some (spawn', l, w')
      | None => None
      end
  | _ => None
  end.

(** How a pass can leave the loop, seen from the world [w] in which the
    pass started: on the timeout, after reaping the child, or through the
    [error:] label.  [evs] is what the pass logged after its [select]. *)
Definition pass_exit (s : uv_spawn_sync_t) (l : sync_locals) (w w' : world)
    (sel_r ret : Z) (s' : uv_spawn_sync_t) (evs : list event) : Prop :=
  let held := held_fds s l (w_sigchld_pipe w) in
  (ret = 0 /\ sel_r = 0 /\ s' = set_exit_timeout 1 s /\
   evs = closes held ++ [EvKill (s_pid s) SIGKILL 0] /\
   w_procs w' = w_procs w /\ last_err (w_loop w') = last_err (w_loop w))
  \/
  (ret = 0 /\ exists p status s'' evs1,
     cursors_moved s s'' /\ s' = decode_status status s'' /\
     evs = evs1 ++ EvWait (Z.pos p) status :: closes held /\
     w_procs w' = w_procs w ∖ {[Z.pos p]} /\
     last_err (w_loop w') = last_err (w_loop w))
  \/
  (ret = -1 /\ cursors_moved s s' /\
   (exists evs1, evs = evs1 ++ closes held ++ [EvKill (s_pid s) SIGKILL 0]) /\
   w_procs w' = w_procs w /\
   ((exists errno, last_err (w_loop w') = SysError errno) \/
    last_err (w_loop w') = Artificial UV_ENOBUFS)).


(** ** Requests and kernels for examples *)

(** A request that feeds five bytes to the child's stdin and captures its
    stdout into a buffer of sixteen; no stderr buffer. *)
Definition spawn_cat : uv_spawn_sync_t :=
  SpawnSync "cat" [] (Some 1000) 5 (Some 2000) 16 None 0 1000 0 0 0 0 0 0 0 0.

(** A pass in which [select] finds nothing ready. *)
Definition pass_idle : iter_env :=
  IterEnv (SelReady ∅ ∅) (IoOk 0) (IoOk 0) (IoOk 0) (WaitErr ECHILD) 10.

(** A kernel in which every call of the set-up works and the child, pid 42,
    does nothing until the time is up. *)
Definition env_timeout : sync_env :=
  SyncEnv SysOk SysOk SysOk SysOk (ForkOk 42) SysOk [pass_idle].


(** ** Overflow of a capture buffer *)



Definition no_read_on (fd : Z) (ev : event) : Prop :=
  match ev with EvRead fd' _ _ _ => fd' <> fd | _ => True end.

(** The stdout buffer fills up in the first pass; in the second, [select]
    reports the stdout pipe readable and the stdin pipe writable, and the
    write fails with EPIPE. *)
Definition env_overflow : sync_env :=
  SyncEnv SysOk SysOk SysOk SysOk (ForkOk 42) SysOk
    [IterEnv (SelReady {[5]} ∅) (IoOk 0) (IoOk 16) (IoOk 0) (WaitErr ECHILD) 1;
     IterEnv (SelReady {[5]} {[4]}) (IoErr EPIPE) (IoOk 1) (IoOk 0)
             (WaitErr ECHILD) 2].


(** ** The wait set of the sync engine *)

(** The child closes its stdout at once: in the first pass the stdout pipe
    is readable and [read] gives zero bytes; in the second nothing is
    ready. *)
Definition env_eof : sync_env :=
  SyncEnv SysOk SysOk SysOk SysOk (ForkOk 42) SysOk
    [IterEnv (SelReady {[5]} ∅) (IoOk 0) (IoOk 0) (IoOk 0) (WaitErr ECHILD) 1;
     pass_idle].

(** ** Decoding the wait status *)

(** The child exits normally with code 0 right away: the self-pipe
    (descriptor 7) is readable in the first pass and [wait] gives status 0. *)
Definition env_exit : sync_env :=
  SyncEnv SysOk SysOk SysOk SysOk (ForkOk 42) SysOk
    [IterEnv (SelReady {[7]} ∅) (IoOk 0) (IoOk 0) (IoOk 0) (WaitOk 42 0) 1].

(** A handle with a callback whose watcher has seen wait status 9: the
    child was killed by SIGKILL. *)
Definition process_killed : uv_process_t :=
  Process 42 (Some 7%nat) (Watcher true 42 9).


(** ** The stdin feed *)

(** The first pass finds the stdin pipe (descriptor 4) writable and its
    [write] is interrupted; the second finds it writable again and [write]
    takes all it is given; the third reaps the child. *)
Definition env_eintr : sync_env :=
  SyncEnv SysOk SysOk SysOk SysOk (ForkOk 42) SysOk
    [IterEnv (SelReady ∅ {[4]}) (IoErr EINTR) (IoOk 0) (IoOk 0)
       (WaitErr ECHILD) 1;
     IterEnv (SelReady ∅ {[4]}) (IoOk 100) (IoOk 0) (IoOk 0)
       (WaitErr ECHILD) 2;
     IterEnv (SelReady {[7]} ∅) (IoOk 0) (IoOk 0) (IoOk 0) (WaitOk 42 0) 3].

(** ** Early returns of the sync engine *)

Definition is_close (ev : event) : Prop :=
  match ev with EvClose _ _ => True | _ => False end.

(** Every pipe works and [fork] fails with EAGAIN. *)
Definition env_fork_fails : sync_env :=
  SyncEnv SysOk SysOk SysOk SysOk (ForkErr 11) SysOk [].


(** ** The combine flag *)

(** The outcome of a run, with [f] applied to its result. *)
Definition omap {A B} (f : A -> B) (o : outcome A) : outcome B :=
  match o with
  | Done a w => Done (f a) w
  | Crash w => Crash w
  | Stuck => Stuck
  end.

Definition flow_map (f : uv_spawn_sync_t -> uv_spawn_sync_t) (x : flow)
  : flow :=
  match x with
  | Continue s => Continue (f s)
  | Return r s => Return r (f s)
  end.

Definition result_map (f : uv_spawn_sync_t -> uv_spawn_sync_t)
    (rs : Z * uv_spawn_sync_t) : Z * uv_spawn_sync_t :=
  (fst rs, f (snd rs)).

Definition setup_map (f : uv_spawn_sync_t -> uv_spawn_sync_t)
    (x : Z * uv_spawn_sync_t + uv_spawn_sync_t * sync_locals)
  : Z * uv_spawn_sync_t + uv_spawn_sync_t * sync_locals :=
  match x with
  | inl rs => inl (result_map f rs)
  | inr sl => inr (f (fst sl), snd sl)
  end.

(** A sync request with the combine flag set, a buffer for stderr and none
    for stdout. *)
Definition spawn_combine_stderr : uv_spawn_sync_t :=
  SpawnSync "sh" [] None 0 None 0 (Some 3000) 16 1000 1 0 0 0 0 0 0 0.


(** ** The async engine *)

(** Whether an answer of [poll] makes the loop around it go round again. *)
Definition poll_retry (o : poll_res) : bool :=
  match o with
  | PollErr e => (e =? EINTR) || (e =? ENOMEM)
  | PollReady _ => false
  end.

(** The record that a call of [poll] on [fd] leaves in the log. *)
Definition poll_event (fd : Z) (o : poll_res) : event :=
  match o with
  | PollErr _ => EvPoll fd (Z.lor POLLIN POLLHUP) (-1) 0
  | PollReady revents => EvPoll fd (Z.lor POLLIN POLLHUP) 1 revents
  end.

Definition poll_result (o : poll_res) : Z * Z :=
  match o with PollErr _ => (-1, 0) | PollReady revents => (1, revents) end.

Definition poll_errno (o : poll_res) : Z :=
  match o with PollErr e => e | PollReady _ => 0 end.

(** The answers of [poll] that the loop goes through: those that make it
    go round again, and the first one that does not. *)
Fixpoint polls_until (polls : list poll_res)
  : option (list poll_res * poll_res) :=
  match polls with
  | [] => None
  | o :: rest =>
      if poll_retry o
      then match polls_until rest with
           | Some (pre, last) => Some (o :: pre, last)
           | None => None
           end
      else Some ([], o)
  end.

(** What registers the child with the handle and the reactor. *)
Definition registers (ev : event) : Prop :=
  match ev with
  | EvStorePid _ | EvChildInit _ | EvChildStart _ | EvStreamOpen _ _ _ => True
  | _ => False
  end.

Definition is_fork (ev : event) : Prop :=
  match ev with EvFork _ => True | _ => False end.

(** What creating the pipe of a bound stream leaves in the log. *)
Definition pipe_events (stream : option uv_stream_t) (p : Z * Z)
  : list event :=
  match stream with
  | Some _ => [EvPipe 0 (fst p) (snd p); EvCloexec (fst p); EvCloexec (snd p)]
  | None => []
  end.

(** What attaching the parent's end of a bound stream leaves in the log. *)
Definition attach_events (s : stdio) (stream : option uv_stream_t)
    (ours theirs flags : Z) : list event :=
  match stream with
  | Some _ => [EvClose theirs 0; EvNonblock ours; EvStreamOpen s ours flags]
  | None => []
  end.

(** The parent's end of the pipe of a bound stream, as a set. *)
Definition parent_end (stream : option uv_stream_t) (fd : Z) : gset Z :=
  match stream with Some _ => {[fd]} | None => ∅ end.



(** The error of the block that [uv_spawn] repeats for each stream, if it
    fails: EINVAL for a stream that is not a pipe, else the errno of
    [pipe]. *)
Definition stream_error (stream : option uv_stream_t) (o : sysres)
  : option Z :=
  match stream with
  | None => None
  | Some s =>
      if decide (stream_type s ≠ UV_NAMED_PIPE) then Some EINVAL
      else match o with SysErr e => Some e | SysOk => None end
  end.

(** The error of the first step before [fork] that fails, if any. *)
Definition spawn_pre_fork_error (env : spawn_env)
    (options : uv_process_options_t) : option Z :=
  match stream_error (o_stdin_stream options) (e_pipe_stdin env) with
  | Some e => Some e
  | None =>
  match stream_error (o_stdout_stream options) (e_pipe_stdout env) with
  | Some e => Some e
  | None =>
  match stream_error (o_stderr_stream options) (e_pipe_stderr env) with
  | Some e => Some e
  | None =>
  match e_pipe_signal env with SysErr e => Some e | SysOk => None end
  end end end.

(** The error of the first step of [uv_spawn] that fails, if any. *)
Definition spawn_error (env : spawn_env) (options : uv_process_options_t)
  : option Z :=
  match spawn_pre_fork_error env options with
  | Some e => Some e
  | None => match e_fork env with ForkErr e => Some e | ForkOk _ => None end
  end.

(** A bound stream's pipe is made of two descriptors that were free. *)
Definition fresh_pipe (stream : option uv_stream_t) (p : Z * Z) (w : world)
  : Prop :=
  match stream with
  | Some _ =>
      0 <= fst p /\ 0 <= snd p /\ (fst p ∉ w_fds w) /\ (snd p ∉ w_fds w)
  | None => True
  end.

(** What a call of [uv_spawn] that returns 0 has done, from [w] to [w']:
    the pipes of the bound streams and the synchronization pipe, the fork,
    the wait for the child's [execvp], and only then the registration of
    the child and the attachment of the parent's ends to the streams. *)
Definition spawn_done (env : spawn_env) (process : uv_process_t)
    (options : uv_process_options_t) (w : world)
    (process' : uv_process_t) (w' : world) : Prop :=
  exists p stdin_pipe stdout_pipe stderr_pipe signal_pipe retries revents,
    e_fork env = ForkOk p /\
    polls_until (e_polls env) = Some (retries, PollReady revents) /\
    Z.land revents POLLHUP = POLLHUP /\
    process' = Process (Z.pos p) (o_exit_cb options)
                 (Watcher true (Z.pos p)
                    (cw_rstatus (p_child_watcher process))) /\
    w_procs w' = {[Z.pos p]} ∪ w_procs w /\
    last_err (w_loop w') = last_err (w_loop w) /\
    w_trace w'
    = w_trace w ++ [EvHandleInit UV_PROCESS] ++
      pipe_events (o_stdin_stream options) stdin_pipe ++
      pipe_events (o_stdout_stream options) stdout_pipe ++
      pipe_events (o_stderr_stream options) stderr_pipe ++
      [EvPipe 0 (fst signal_pipe) (snd signal_pipe);
       EvCloexec (fst signal_pipe); EvCloexec (snd signal_pipe);
       EvNonblock (fst signal_pipe); EvNonblock (snd signal_pipe);
       EvFork (Z.pos p);
       EvClose (snd signal_pipe) 0] ++
      map (poll_event (fst signal_pipe)) (retries ++ [PollReady revents]) ++
      [EvClose (fst signal_pipe) 0; EvClose (snd signal_pipe) (-1);
       EvStorePid (Z.pos p); EvChildInit (Z.pos p); EvChildStart (Z.pos p)] ++
      attach_events Stdin (o_stdin_stream options)
        (snd stdin_pipe) (fst stdin_pipe) UV_WRITABLE ++
      attach_events Stdout (o_stdout_stream options)
        (fst stdout_pipe) (snd stdout_pipe) UV_READABLE ++
      attach_events Stderr (o_stderr_stream options)
        (fst stderr_pipe) (snd stderr_pipe) UV_READABLE /\
    fresh_pipe (o_stdin_stream options) stdin_pipe w /\
    fresh_pipe (o_stdout_stream options) stdout_pipe w /\
    fresh_pipe (o_stderr_stream options) stderr_pipe w /\
    w_fds w'
    = w_fds w ∪ (parent_end (o_stdin_stream options) (snd stdin_pipe) ∪
                 (parent_end (o_stdout_stream options) (fst stdout_pipe) ∪
                  parent_end (o_stderr_stream options) (fst stderr_pipe))).


(** ** Requests for the async engine, for examples *)


(** stdin and stdout are bound to pipe streams. *)
Definition options_pipes : uv_process_options_t :=
  Options (Some 7%nat) "cat" [] [] None
    (Some (Stream UV_NAMED_PIPE)) (Some (Stream UV_NAMED_PIPE)) None.

(** Every call works; [poll] is interrupted once and then sees the
    hang-up. *)
Definition env_spawn_ok : spawn_env :=
  SpawnEnv SysOk SysOk SysOk SysOk (ForkOk 42)
    [PollErr EINTR; PollReady POLLHUP].

(** What stores the pid and registers the child with the reactor. *)
Definition registers_child (ev : event) : Prop :=
  match ev with
  | EvStorePid _ | EvChildInit _ | EvChildStart _ => True
  | _ => False
  end.

(** ** Turning down a stream that is not a pipe *)

(** What the two [close] calls of the error label on the pipe of a stream
    leave in the log: both ends closed, if the stream is bound and its pipe
    was made; two failed calls on -1, if the stream is unbound. *)
Definition unwind_events (stream : option uv_stream_t) (p : Z * Z)
  : list event :=
  match stream with
  | Some _ => [EvClose (fst p) 0; EvClose (snd p) 0]
  | None => [EvClose (-1) (-1); EvClose (-1) (-1)]
  end.

(** A call of [pipe], whatever its result. *)
Definition is_pipe_call (ev : event) : Prop :=
  match ev with EvPipe _ _ _ => True | _ => False end.



(** ** More on the async engine *)

(** Every pipe works and [fork] fails with EAGAIN. *)
Definition env_spawn_fork_fails : spawn_env :=
  SpawnEnv SysOk SysOk SysOk SysOk (ForkErr 11) [].

(** A request with a working directory. *)
Definition options_cwd : uv_process_options_t :=
  Options None "ls" ["ls"%string] ["HOME=/"%string] (Some "/nowhere"%string)
    None None None.


(** ** More on the sync engine *)

(** Neither a [read] nor a [write]. *)
Definition no_io (ev : event) : Prop :=
  match ev with
  | EvRead _ _ _ _ | EvWrite _ _ _ _ => False
  | _ => True
  end.

(** A pass whose [select] is interrupted. *)
Definition pass_interrupted : iter_env :=
  IterEnv (SelErr EINTR) (IoOk 0) (IoOk 0) (IoOk 0) (WaitErr ECHILD) 10.

(** A sync request with the combine flag set and buffers for stdout and
    stderr both. *)
Definition spawn_combine_both : uv_spawn_sync_t :=
  SpawnSync "sh" [] None 0 (Some 2000) 16 (Some 3000) 16 1000 1 0 0 0 0 0 0 0.

(** A sync request that the caller has used before: the output fields
    hold what the last call left in them. *)
Definition spawn_reused : uv_spawn_sync_t :=
  SpawnSync "cat" [] (Some 1000) 5 (Some 2000) 16 None 0 1000 0
    77 3 15 1 5 16 9.


(** ** Every way out of the set-up of the sync engine *)

(** The errno of the first step of the set-up before [sigaction] that
    fails, if any: the [pipe] of a supplied buffer, the [pipe] of the
    self-pipe, or [fork]. *)
Definition sync_setup_leak_error (env : sync_env) (spawn : uv_spawn_sync_t)
  : option Z :=
  match (if nonnull (s_stdin_buf spawn) then y_pipe_stdin env else SysOk) with
  | SysErr e => Some e
  | SysOk =>
  match (if nonnull (s_stdout_buf spawn) then y_pipe_stdout env else SysOk)
  with
  | SysErr e => Some e
  | SysOk =>
  match (if nonnull (s_stderr_buf spawn) then y_pipe_stderr env else SysOk)
  with
  | SysErr e => Some e
  | SysOk =>
  match y_pipe_sigchld env with
  | SysErr e => Some e
  | SysOk =>
  match y_fork env with
  | ForkErr e => Some e
  | ForkOk _ => None
  end end end end end.

(** The errno of the first step of the set-up that fails, if any. *)
Definition sync_setup_error (env : sync_env) (spawn : uv_spawn_sync_t)
  : option Z :=
  match sync_setup_leak_error env spawn with
  | Some e => Some e
  | None => match y_sigaction env with SysErr e => Some e | SysOk => None end
  end.

(** The record as the first lines of [uv_spawn_sync] leave it. *)
Definition sync_reset (spawn : uv_spawn_sync_t) : uv_spawn_sync_t :=
  set_stderr_read 0
    (set_stdout_read 0
       (set_exit_timeout 0
          (set_exit_signal (-1) (set_exit_code (-1) (set_pid (-1) spawn))))).

(** Every call of the set-up works but [sigaction], which fails with
    EINVAL. *)
Definition env_sigaction_fails : sync_env :=
  SyncEnv SysOk SysOk SysOk SysOk (ForkOk 42) (SysErr 22) [].


(** The two read counts are within the capacities of their buffers. *)
Definition reads_within (s : uv_spawn_sync_t) : Prop :=
  0 <= s_stdout_read s <= s_stdout_size s /\
  0 <= s_stderr_read s <= s_stderr_size s.

(** * Properties *)

(** ** Descriptor allocation *)

Lemma lowest_from_spec (n : nat) : forall (start : Z) (s : gset Z),
  (size s <= n)%nat ->
  start <= lowest_from n start s /\ lowest_from n start s ∉ s.
Proof.
  induction n as [|n IH]; intros start s Hsz; simpl.
  - split; [lia|].
    assert (s = ∅) as -> by (apply leibniz_equiv, size_empty_inv; lia).
    set_solver.
  - destruct (decide (start ∈ s)) as [Hin|Hout]; [|split; [lia|done]].
    assert (size (s ∖ {[start]}) <= n)%nat as Hle.
    { assert ({[start]} ⊆ s) as Hsub by (apply singleton_subseteq_l, Hin).
      rewrite (size_difference _ _ Hsub), size_singleton. lia. }
    destruct (IH (start + 1) _ Hle) as [Hge Hnot].
    split; [lia|].
    intros Hmem. apply Hnot. apply elem_of_difference. split; [done|].
    rewrite elem_of_singleton. lia.
Qed.

Lemma alloc_fd_fresh (s : gset Z) : alloc_fd s ∉ s.
Proof. by destruct (lowest_from_spec (size s) 0 s). Qed.

Lemma alloc_fd_nonneg (s : gset Z) : 0 <= alloc_fd s.
Proof. by destruct (lowest_from_spec (size s) 0 s). Qed.

(** ** The monad's equations, at a world *)

Lemma bind_assoc {A B C} (m : M A) (f : A -> M B) (g : B -> M C) (w : world) :
  bind (bind m f) g w = bind m (fun x => bind (f x) g) w.
Proof. unfold bind. by destruct (m w). Qed.

Lemma bind_ret {A B} (a : A) (k : A -> M B) (w : world) :
  bind (ret a) k w = k a w.
Proof. reflexivity. Qed.

Lemma bind_get {A B} (f : world -> A) (k : A -> M B) (w : world) :
  bind (get f) k w = k (f w) w.
Proof. reflexivity. Qed.

Lemma bind_modify {B} (f : world -> world) (k : unit -> M B) (w : world) :
  bind (modify f) k w = k tt (f w).
Proof. reflexivity. Qed.

Lemma bind_emit {B} (e : event) (k : unit -> M B) (w : world) :
  bind (emit e) k w = k tt (log e w).
Proof. reflexivity. Qed.

Lemma bind_if {A B} (c : bool) (m1 m2 : M A) (k : A -> M B) (w : world) :
  bind (if c then m1 else m2) k w = if c then bind m1 k w else bind m2 k w.
Proof. by destruct c. Qed.

Lemma sys_close_eq (fd : Z) (w : world) :
  sys_close fd w = Done (close_r fd w) (close_w fd w).
Proof.
  unfold sys_close, close_r, close_w. rewrite bind_get.
  by destruct (decide (fd ∈ w_fds w)).
Qed.

Lemma bind_sys_close {B} (fd : Z) (k : Z -> M B) (w : world) :
  bind (sys_close fd) k w = k (close_r fd w) (close_w fd w).
Proof. unfold bind at 1. by rewrite sys_close_eq. Qed.

Lemma sys_kill_eq (pid sig : Z) (w : world) :
  sys_kill pid sig w = Done (kill_r pid sig w) (kill_w pid sig w).
Proof.
  unfold sys_kill, kill_r, kill_w. rewrite bind_get. unfold id.
  by destruct (kill_errno w pid sig).
Qed.

Lemma bind_sys_kill {B} (pid sig : Z) (k : Z -> M B) (w : world) :
  bind (sys_kill pid sig) k w = k (kill_r pid sig w) (kill_w pid sig w).
Proof. unfold bind at 1. by rewrite sys_kill_eq. Qed.

(** ** Signal delivery *)

(** C9, as stated, fails: a handle whose pid field names no live process
    (here the zero of a handle that never got a child) is signalled with
    success, because [kill(0, sig)] addresses the caller's own process
    group. *)
Lemma uv_process_kill_unset_pid_succeeds :
  (p_pid process0 ∉ w_procs world0) /\
  uv_process_kill process0 SIGTERM world0
  = Done 0 (log (EvKill 0 SIGTERM 0) world0).
Proof. split; [set_solver | reflexivity]. Qed.

(** C9 (amended): [uv_process_kill] hands the handle's pid field and the
    signal to [kill] without a check of its own.  It makes that one call and
    nothing else; it returns -1, with the kernel's error code as the loop's
    last error, exactly when [kill] fails, and 0 otherwise.  For a positive
    pid that names no existing process (a child already reaped) and a valid
    signal the failure is ESRCH. *)
Theorem uv_process_kill_result (process : uv_process_t) (signum : Z)
    (w : world) :
  exists r w',
    uv_process_kill process signum w = Done r w' /\
    w_trace w' = w_trace w ++ [EvKill (p_pid process) signum r] /\
    w_fds w' = w_fds w /\ w_procs w' = w_procs w /\
    match kill_errno w (p_pid process) signum with
    | None => r = 0 /\ w_loop w' = w_loop w
    | Some e => r = -1 /\ last_err (w_loop w') = SysError e
    end /\
    (0 < p_pid process /\ (p_pid process ∉ w_procs w) /\ 0 <= signum <= 64 ->
     r = -1 /\ last_err (w_loop w') = SysError ESRCH).
Proof.
  assert (0 < p_pid process /\ (p_pid process ∉ w_procs w) /\ 0 <= signum <= 64 ->
          kill_errno w (p_pid process) signum = Some ESRCH) as Hdead.
  { intros (Hpos & Hdead & Hsig). unfold kill_errno.
    destruct (signum <? 0) eqn:?, (64 <? signum) eqn:?; simpl; try lia.
    destruct (0 <? p_pid process) eqn:?; try lia.
    by destruct (decide (p_pid process ∈ w_procs w)). }
  unfold uv_process_kill. rewrite bind_sys_kill.
  unfold kill_r, kill_w.
  destruct (kill_errno w (p_pid process) signum) as [e|] eqn:Hk; simpl.
  - eexists _, _. split; [reflexivity|]. simpl. repeat split.
    all: try reflexivity; apply Hdead in H; congruence.
  - eexists _, _. split; [reflexivity|]. simpl. repeat split.
    all: try reflexivity; apply Hdead in H; congruence.
Qed.

Lemma sync_close_pipes_eq (spawn : uv_spawn_sync_t) (l : sync_locals)
    (w : world) :
  sync_close_pipes spawn l w
  = Done tt (close_all_w (held_fds spawn l (w_sigchld_pipe w)) w).
Proof.
  unfold sync_close_pipes, held_fds.
  rewrite bind_get, !bind_sys_close.
  destruct (nonnull (s_stdin_buf spawn)), (nonnull (s_stdout_buf spawn)),
    (nonnull (s_stderr_buf spawn));
    repeat (rewrite bind_assoc || rewrite bind_sys_close || rewrite bind_ret);
    reflexivity.
Qed.

Lemma sync_error_eq (spawn : uv_spawn_sync_t) (l : sync_locals) (w : world) :
  sync_error spawn l w
  = Done (-1, spawn)
         (kill_w (s_pid spawn) SIGKILL
                 (close_all_w (held_fds spawn l (w_sigchld_pipe w)) w)).
Proof.
  unfold sync_error. unfold bind at 1. rewrite sync_close_pipes_eq.
  by rewrite bind_sys_kill.
Qed.

(** Closing a list of distinct open descriptors works every time and takes
    exactly those out of the table. *)
Lemma close_all_w_open (fds : list Z) : forall (w : world),
  NoDup fds -> (forall fd, fd ∈ fds -> fd ∈ w_fds w) ->
  let w' := close_all_w fds w in
  w_fds w' = w_fds w ∖ list_to_set fds /\
  w_trace w' = w_trace w ++ map (fun fd => EvClose fd 0) fds /\
  w_procs w' = w_procs w /\ w_pgrp w' = w_pgrp w /\
  w_errno w' = w_errno w /\ w_loop w' = w_loop w /\
  w_environ w' = w_environ w /\
  w_sigchld_pipe w' = w_sigchld_pipe w /\
  w_sigchld_handler w' = w_sigchld_handler w.
Proof.
  induction fds as [|fd fds IH]; intros w Hnd Hopen; simpl.
  - repeat split; [set_solver | by rewrite app_nil_r].
  - apply NoDup_cons in Hnd as [Hfd Hnd].
    assert (fd ∈ w_fds w) as Hin by (apply Hopen; set_solver).
    assert (close_w fd w = log (EvClose fd 0) (set_fds (w_fds w ∖ {[fd]}) w))
      as Hw by (unfold close_w; by rewrite decide_True).
    fold (close_all_w fds (close_w fd w)). rewrite Hw.
    destruct (IH (log (EvClose fd 0) (set_fds (w_fds w ∖ {[fd]}) w)) Hnd)
      as (Hf & Ht & Hrest).
    { intros x Hx. simpl. apply elem_of_difference. split.
      - apply Hopen. set_solver.
      - intros ->%elem_of_singleton. done. }
    simpl in *. split; [rewrite Hf; set_solver|].
    split; [rewrite Ht, <- app_assoc; reflexivity|]. exact Hrest.
Qed.

Arguments alloc_fd : simpl never.
Arguments sys_pipe : simpl never.

(** A [pipe] that works gives two descriptors that were free; a proof only
    ever needs that much of them. *)
Lemma bind_sys_pipe_ok {B} (p : Z * Z) (k : Z * (Z * Z) -> M B) (w : world) :
  exists a b,
    (a ∉ w_fds w) /\ (b ∉ {[a]} ∪ w_fds w) /\ 0 <= a /\ 0 <= b /\
    bind (sys_pipe SysOk p) k w
    = k (0, (a, b))
        (log (EvPipe 0 a b) (set_fds ({[b]} ∪ ({[a]} ∪ w_fds w)) w)).
Proof.
  exists (alloc_fd (w_fds w)), (alloc_fd ({[alloc_fd (w_fds w)]} ∪ w_fds w)).
  split; [apply alloc_fd_fresh|]. split; [apply alloc_fd_fresh|].
  split; [apply alloc_fd_nonneg|]. split; [apply alloc_fd_nonneg|].
  reflexivity.
Qed.

Lemma bind_sys_pipe_err {B} (e : Z) (p : Z * Z) (k : Z * (Z * Z) -> M B)
    (w : world) :
  bind (sys_pipe (SysErr e) p) k w
  = k (-1, p) (log (EvPipe (-1) (fst p) (snd p)) (set_errno_w e w)).
Proof. reflexivity. Qed.
Arguments sys_close : simpl never.
Arguments sys_kill : simpl never.
Arguments sync_close_pipes : simpl never.
Arguments sync_error : simpl never.

(** Names every descriptor that [alloc_fd] hands out in the goal, keeping
    only the fact that it was free. *)
Ltac name_fds :=
  repeat match goal with
  | |- context [alloc_fd ?S] =>
      lazymatch S with
      | context [alloc_fd _] => fail
      | _ => let Hf := fresh "Hfree" in
             let a := fresh "fd" in
             pose proof (alloc_fd_fresh S) as Hf;
             set (a := alloc_fd S) in *; clearbody a
      end
  end.

Lemma bind_sync_close_pipes {B} spawn l (k : unit -> M B) (w : world) :
  bind (sync_close_pipes spawn l) k w
  = k tt (close_all_w (held_fds spawn l (w_sigchld_pipe w)) w).
Proof. unfold bind at 1. by rewrite sync_close_pipes_eq. Qed.

Lemma bind_sync_error {B} spawn l (k : Z * uv_spawn_sync_t -> M B)
    (w : world) :
  bind (sync_error spawn l) k w
  = k (-1, spawn)
      (kill_w (s_pid spawn) SIGKILL
              (close_all_w (held_fds spawn l (w_sigchld_pipe w)) w)).
Proof. unfold bind at 1. by rewrite sync_error_eq. Qed.

Ltac head_of t := lazymatch t with ?f _ => head_of f | _ => t end.
Ltac split_answer o :=
  let h := head_of o in
  tryif is_constructor h then fail else destruct o eqn:?.

Ltac norm_world :=
  cbv beta iota delta
    [log set_fds set_procs set_errno_w set_environ_w set_loop
     set_sigchld_pipe set_sigchld_handler];
  cbn.

(** Runs monadic code at a world: computes, takes the branch of a [close]
    on an open descriptor, and splits on whatever the run waits on. *)
Ltac run_step :=
  first
  [ progress (cbn; norm_world)
  | rewrite bind_assoc
  | rewrite bind_sys_pipe_err
  | match goal with
    | |- context [bind (sys_pipe SysOk ?p) ?k ?w] =>
        let a := fresh "fd" in
        let b := fresh "fd" in
        let Hp := fresh "Hpipe" in
        destruct (bind_sys_pipe_ok p k w) as (a & b & ? & ? & ? & ? & Hp);
        rewrite Hp; clear Hp
    end
  | rewrite bind_sys_close; unfold close_r, close_w;
    rewrite !decide_True by set_solver
  | rewrite bind_sync_error
  | rewrite bind_sync_close_pipes
  | match goal with
    | |- context [sys_pipe ?o] => split_answer o
    | |- context [sys_fork ?o] => split_answer o
    | |- context [sys_sigaction ?o] => split_answer o
    | |- context [sys_select ?o] => split_answer o
    | |- context [sys_write ?o] => split_answer o
    | |- context [sys_read ?o] => split_answer o
    | |- context [sys_wait ?o] => split_answer o
    | |- context [sys_poll ?o] => split_answer o
    end
  | rewrite bind_sys_kill
  | match goal with
    | |- context [sys_close ?fd ?w] =>
        rewrite (sys_close_eq fd w); unfold close_r, close_w;
        rewrite decide_True by set_solver
    end
  | match goal with
    | |- context [match ?x with _ => _ end] =>
        lazymatch x with
        | context [match _ with _ => _ end] => fail
        | _ => destruct x eqn:?
        end
    end ].

(** When the set-up of [uv_spawn_sync] comes back, it is with -1, or in a
    state in which the invariant of the loop holds and the read cursors
    are at zero. *)
Lemma sync_setup_spec (env : sync_env) (spawn : uv_spawn_sync_t) (w : world)
    (x : Z * uv_spawn_sync_t + uv_spawn_sync_t * sync_locals) (w1 : world) :
  sync_setup env spawn w = Done x w1 ->
  match x with
  | inl rs => fst rs = -1
  | inr (spawn1, l) =>
      exists p, y_fork env = ForkOk p /\
                sync_inv w spawn (Z.pos p) spawn1 l w1 /\
                s_stdout_read spawn1 = 0 /\ s_stderr_read spawn1 = 0 /\
                s_stdin_written spawn1 = s_stdin_written spawn
  end.
Proof.
  destruct w as [fds0 procs0 pgrp0 errno0 environ0 loop0 sp0 h0 tr0].
  unfold sync_setup, sync_pipe, sys_sigaction.
  repeat run_step.
  all: unfold ret.
  all: lazymatch goal with
       | |- Done (inl _) ?W = _ -> _ =>
           generalize W; intros wx Heq;
           first [discriminate Heq
                 |injection Heq; intros; subst; reflexivity]
       | |- _ =>
           intros Heq;
           first [discriminate Heq | injection Heq; intros; subst]
       end.
  all: eexists; split; [reflexivity|]; (split; [|done]).
  all: split; cbn; unfold held_fds; cbn;
    repeat match goal with H : nonnull _ = _ |- _ => rewrite H end; cbn.
  all: try reflexivity.
  all: try (eexists; rewrite <- !app_assoc; reflexivity).
  all: try (repeat constructor; set_solver).
Qed.

Lemma sync_setup_inv (env : sync_env) (spawn : uv_spawn_sync_t) (w : world)
    (spawn1 : uv_spawn_sync_t) (l : sync_locals) (w1 : world) :
  sync_setup env spawn w = Done (inr (spawn1, l)) w1 ->
  exists p, y_fork env = ForkOk p /\
            sync_inv w spawn (Z.pos p) spawn1 l w1 /\
            s_stdout_read spawn1 = 0 /\ s_stderr_read spawn1 = 0 /\
            s_stdin_written spawn1 = s_stdin_written spawn.
Proof. apply (sync_setup_spec env spawn w (inr (spawn1, l)) w1). Qed.

Lemma sync_setup_early (env : sync_env) (spawn : uv_spawn_sync_t) (w : world)
    (rs : Z * uv_spawn_sync_t) (w1 : world) :
  sync_setup env spawn w = Done (inl rs) w1 -> fst rs = -1.
Proof. apply (sync_setup_spec env spawn w (inl rs) w1). Qed.


(** ** The blocks of one pass of the loop *)

Lemma bind_done {A B} (m : M A) (k : A -> M B) (w w' : world) (a : A) :
  m w = Done a w' -> bind m k w = k a w'.
Proof. unfold bind. by intros ->. Qed.

Lemma sync_feed_spec (o : io_res) (spawn : uv_spawn_sync_t) (l : sync_locals)
    (write_fds : gset Z) (w : world) :
  exists b w',
    sync_feed o spawn l write_fds w = Done b w' /\
    same_kernel w w' /\
    (exists evs, w_trace w' = w_trace w ++ evs /\ Forall is_write evs) /\
    match b with
    | Some spawn' =>
        (exists v, spawn' = set_stdin_written v spawn) /\
        last_err (w_loop w') = last_err (w_loop w)
    | None =>
        exists e, o = IoErr e /\ e <> EINTR /\
                  last_err (w_loop w') = SysError e
    end.
Proof.
  destruct w as [fds0 procs0 pgrp0 errno0 environ0 loop0 sp0 h0 tr0].
  unfold sync_feed, same_kernel, uv_err_new.
  destruct (nonnull (s_stdin_buf spawn)
            && bool_decide (snd (l_stdin_pipe l) ∈ write_fds)
            && (s_stdin_written spawn <? s_stdin_size spawn)) eqn:Hc.
  - destruct o as [e|n]; cbn.
    + destruct (e =? EINTR) eqn:He; cbn; eexists _, _;
        (split; [reflexivity|]); cbn.
      * repeat split; eauto.
        eexists; split; [reflexivity|]. by repeat constructor.
      * repeat split; trivial.
        -- eexists; split; [reflexivity|]. by repeat constructor.
        -- exists e. repeat split; trivial. intros ->. discriminate.
    + assert (0 < s_stdin_size spawn - s_stdin_written spawn) as Hpos.
      { apply andb_prop in Hc as [_ Hc]. lia. }
      destruct (Z.min (Z.of_N n) (s_stdin_size spawn - s_stdin_written spawn)
                =? -1) eqn:Hr; [apply Z.eqb_eq in Hr; lia|].
      cbn. eexists _, _. split; [reflexivity|]. cbn.
      repeat split; eauto.
      eexists; split; [reflexivity|]. by repeat constructor.
  - cbn. eexists _, _. split; [reflexivity|]. cbn.
    repeat split; eauto.
    + exists []. by rewrite app_nil_r.
    + exists (s_stdin_written spawn). by destruct spawn.
Qed.

Lemma sync_capture_spec (o : io_res) (buf : option Z) (fd size nread : Z)
    (read_fds : gset Z) (w : world) :
  exists b w',
    sync_capture o buf fd size nread read_fds w = Done b w' /\
    same_kernel w w' /\
    (exists evs, w_trace w' = w_trace w ++ evs /\
                 Forall (is_read_within fd buf size nread) evs /\
                 (size - nread <= 0 -> evs = []) /\
                 (nonnull buf = false -> evs = [])) /\
    match b with
    | Some n =>
        (n = nread \/ (nread <= n <= size /\ nonnull buf = true)) /\
        last_err (w_loop w') = last_err (w_loop w)
    | None =>
        nonnull buf = true /\ fd ∈ read_fds /\
        if size - nread <=? 0
        then last_err (w_loop w') = Artificial UV_ENOBUFS
        else exists e, o = IoErr e /\ last_err (w_loop w') = SysError e
    end /\
    (nonnull buf = true -> fd ∈ read_fds -> size - nread <= 0 -> b = None).
Proof.
  destruct w as [fds0 procs0 pgrp0 errno0 environ0 loop0 sp0 h0 tr0].
  unfold sync_capture, same_kernel, uv_err_new, uv_err_new_artificial.
  destruct (nonnull buf) eqn:Hb; cbn;
    [destruct (bool_decide (fd ∈ read_fds)) eqn:Hin; cbn|].
  - apply bool_decide_eq_true in Hin.
    destruct (size - nread <=? 0) eqn:Hfull; cbn.
    + eexists _, _. split; [reflexivity|]. cbn.
      repeat split; trivial. exists []. by rewrite app_nil_r.
    + destruct o as [e|n]; cbn.
      * eexists _, _. split; [reflexivity|]. cbn.
        repeat split; eauto; try lia.
        eexists; split; [reflexivity|]. split; [|split; [lia|done]].
        repeat constructor. eexists. split; [reflexivity|]. lia.
      * destruct (Z.min (Z.of_N n) (size - nread) =? -1) eqn:Hr; [apply Z.eqb_eq in Hr; lia|].
        cbn. eexists _, _. split; [reflexivity|]. cbn.
        repeat split; eauto; try lia.
        eexists; split; [reflexivity|]. split; [|split; [lia|done]].
        repeat constructor. eexists. split; [reflexivity|]. lia.
  - apply bool_decide_eq_false in Hin.
    eexists _, _. split; [reflexivity|]. cbn.
    repeat split; eauto; try done. exists []. by rewrite app_nil_r.
  - eexists _, _. split; [reflexivity|]. cbn.
    repeat split; eauto; try done. exists []. by rewrite app_nil_r.
Qed.

(** [kill(pid, SIGKILL)] on a child that exists goes through. *)
Lemma kill_w_live (pid : Z) (w : world) :
  0 < pid -> pid ∈ w_procs w ->
  kill_w pid SIGKILL w = log (EvKill pid SIGKILL 0) w /\
  kill_r pid SIGKILL w = 0.
Proof.
  intros Hpos Hin. unfold kill_w, kill_r, kill_errno. cbn.
  destruct (0 <? pid) eqn:Hp; [|lia].
  by rewrite decide_True.
Qed.

(** The [error:] label, when the parent holds what it should and the child
    exists: everything held is closed, the child gets SIGKILL, and the
    result is -1. *)
Lemma sync_error_spec (spawn : uv_spawn_sync_t) (l : sync_locals) (w : world) :
  NoDup (held_fds spawn l (w_sigchld_pipe w)) ->
  (forall fd, fd ∈ held_fds spawn l (w_sigchld_pipe w) -> fd ∈ w_fds w) ->
  0 < s_pid spawn -> s_pid spawn ∈ w_procs w ->
  exists w',
    sync_error spawn l w = Done (-1, spawn) w' /\
    w_fds w' = w_fds w ∖ list_to_set (held_fds spawn l (w_sigchld_pipe w)) /\
    w_trace w' = w_trace w ++ closes (held_fds spawn l (w_sigchld_pipe w))
                           ++ [EvKill (s_pid spawn) SIGKILL 0] /\
    w_procs w' = w_procs w /\ w_loop w' = w_loop w /\
    w_sigchld_pipe w' = w_sigchld_pipe w.
Proof.
  intros Hnd Hopen Hpos Hlive.
  destruct (close_all_w_open _ w Hnd Hopen)
    as (Hf & Ht & Hp & _ & _ & Hl & _ & Hsp & _).
  rewrite sync_error_eq.
  set (w1 := close_all_w (held_fds spawn l (w_sigchld_pipe w)) w) in *.
  clearbody w1.
  destruct (kill_w_live (s_pid spawn) w1 Hpos) as [-> _];
    [by rewrite Hp|].
  eexists. split; [reflexivity|]. cbn.
  rewrite Hf, Ht, Hp, Hl, Hsp, <- app_assoc. done.
Qed.

Arguments sys_wait : simpl never.

Lemma sync_reap_spec (e : iter_env) (spawn : uv_spawn_sync_t)
    (l : sync_locals) (read_fds : gset Z) (w : world) :
  NoDup (held_fds spawn l (w_sigchld_pipe w)) ->
  (forall fd, fd ∈ held_fds spawn l (w_sigchld_pipe w) -> fd ∈ w_fds w) ->
  0 < s_pid spawn -> s_pid spawn ∈ w_procs w ->
  exists f w',
    sync_reap e spawn l read_fds w = Done f w' /\
    match f with
    | Continue spawn' =>
        spawn' = spawn /\ (fst (w_sigchld_pipe w) ∉ read_fds) /\
        w_fds w' = w_fds w /\ w_procs w' = w_procs w /\
        w_sigchld_pipe w' = w_sigchld_pipe w /\
        w_trace w' = w_trace w /\
        last_err (w_loop w') = last_err (w_loop w)
    | Return r spawn' =>
        fst (w_sigchld_pipe w) ∈ read_fds /\
        w_fds w'
        = w_fds w ∖ list_to_set (held_fds spawn l (w_sigchld_pipe w)) /\
        w_sigchld_pipe w' = w_sigchld_pipe w /\
        ((r = 0 /\ exists p status,
            i_wait e = WaitOk p status /\
            spawn' = decode_status status spawn /\
            w_procs w' = w_procs w ∖ {[Z.pos p]} /\
            last_err (w_loop w') = last_err (w_loop w) /\
            w_trace w'
            = w_trace w ++ EvWait (Z.pos p) status
                :: closes (held_fds spawn l (w_sigchld_pipe w)))
         \/
         (r = -1 /\ spawn' = spawn /\ exists errno,
            i_wait e = WaitErr errno /\
            last_err (w_loop w') = SysError errno /\
            w_procs w' = w_procs w /\
            w_trace w'
            = w_trace w ++ EvWait (-1) 0
                :: closes (held_fds spawn l (w_sigchld_pipe w))
                ++ [EvKill (s_pid spawn) SIGKILL 0]))
    end.
Proof.
  intros Hnd Hopen Hpos Hlive.
  destruct w as [fds0 procs0 pgrp0 errno0 environ0 loop0 sp0 h0 tr0].
  cbn in *.
  destruct (bool_decide (fst sp0 ∈ read_fds)) eqn:Hin.
  - apply bool_decide_eq_true in Hin.
    destruct (i_wait e) as [errno|p status] eqn:Hw.
    + destruct (sync_error_spec spawn l
                  (World fds0 procs0 pgrp0 errno environ0
                     (Loop (SysError errno) (counters_process_init loop0)
                           (loop_time loop0))
                     sp0 h0 (tr0 ++ [EvWait (-1) 0])))
        as (w' & Herr & Hf & Ht & Hp & Hl & Hsp); try done.
      cbn in *. exists (Return (-1) spawn), w'. split.
      { unfold sync_reap; cbn; rewrite ?Hin, ?Hw.
        unfold sys_wait, uv_err_new. cbn. norm_world.
        by rewrite (bind_done _ _ _ _ _ Herr). }
      split; [done|]. split; [done|]. split; [done|]. right.
      repeat split; trivial. exists errno.
      rewrite Hl, Hp, Ht. cbn. rewrite <- app_assoc. done.
    + destruct (close_all_w_open (held_fds spawn l sp0)
                  (World fds0 (procs0 ∖ {[Z.pos p]}) pgrp0 errno0 environ0
                     loop0 sp0 h0 (tr0 ++ [EvWait (Z.pos p) status])))
        as (Hf & Ht & Hp & _ & _ & Hl & _ & Hsp & _); try done.
      cbn in *. eexists (Return 0 (decode_status status spawn)), _. split.
      { unfold sync_reap; cbn; rewrite ?Hin, ?Hw.
        unfold sys_wait. cbn. norm_world.
        rewrite bind_sync_close_pipes. cbn. reflexivity. }
      split; [done|]. split; [done|]. split; [done|]. left.
      split; [done|]. exists p, status.
      rewrite Hp, Hl, Ht, <- app_assoc. done.
  - exists (Continue spawn). eexists. split.
    { unfold sync_reap; cbn; rewrite ?Hin.
      unfold uv_update_time. cbn. reflexivity. }
    apply bool_decide_eq_false in Hin. by cbn.
Qed.

Arguments sync_feed : simpl never.
Arguments sync_capture : simpl never.
Arguments sync_reap : simpl never.

Lemma sync_iter_select_err (e : iter_env) (spawn : uv_spawn_sync_t)
    (l : sync_locals) (w : world) (errno : Z) :
  i_select e = SelErr errno ->
  sync_iter e spawn l w
  = let w1 := log (select_event spawn l w (-1)) (set_errno_w errno w) in
    if errno =? EINTR then Done (Continue spawn) w1
    else bind (sync_error spawn l)
           (fun rs => ret (Return (fst rs) (snd rs)))
           (set_loop (Loop (SysError errno)
                           (counters_process_init (w_loop w))
                           (loop_time (w_loop w))) w1).
Proof.
  intros Hs. destruct w. unfold sync_iter. rewrite Hs.
  cbn. by destruct (errno =? EINTR).
Qed.

Lemma sync_iter_timeout (e : iter_env) (spawn : uv_spawn_sync_t)
    (l : sync_locals) (w : world) (rd wr : gset Z) :
  i_select e = SelReady rd wr ->
  select_count spawn l w rd wr = 0 ->
  sync_iter e spawn l w
  = bind (sync_close_pipes spawn l)
      (fun _ => bind (sys_kill (s_pid spawn) SIGKILL)
         (fun _ => ret (Return 0 (set_exit_timeout 1 spawn))))
      (log (select_event spawn l w 0) w).
Proof.
  intros Hs Hr. destruct w. unfold sync_iter, select_count in *.
  rewrite Hs. cbn in *. rewrite Hr. reflexivity.
Qed.

Lemma sync_iter_ready (e : iter_env) (spawn : uv_spawn_sync_t)
    (l : sync_locals) (w : world) (rd wr : gset Z) :
  i_select e = SelReady rd wr ->
  select_count spawn l w rd wr <> 0 ->
  sync_iter e spawn l w
  = sync_tail e spawn l
      (sync_read_fds spawn l (w_sigchld_pipe w) ∩ rd)
      (sync_write_fds spawn l ∩ wr)
      (log (select_event spawn l w (select_count spawn l w rd wr)) w).
Proof.
  intros Hs Hr. destruct w. unfold sync_iter, select_count in *.
  rewrite Hs. cbn in *.
  match goal with
  | |- context [Z.of_nat ?n =? -1] =>
      destruct (Z.of_nat n =? -1) eqn:Hm1; [apply Z.eqb_eq in Hm1; lia|];
      destruct (Z.of_nat n =? 0) eqn:H0; [apply Z.eqb_eq in H0; lia|]
  end.
  reflexivity.
Qed.

Lemma cursors_moved_intro (s : uv_spawn_sync_t) (a b c : Z) :
  (b = s_stdout_read s \/
   (s_stdout_read s <= b <= s_stdout_size s /\
    nonnull (s_stdout_buf s) = true)) ->
  (c = s_stderr_read s \/
   (s_stderr_read s <= c <= s_stderr_size s /\
    nonnull (s_stderr_buf s) = true)) ->
  cursors_moved s (set_stderr_read c (set_stdout_read b (set_stdin_written a s))).
Proof. intros Hb Hc. by exists a, b, c. Qed.

Lemma cursors_moved_stdin (s : uv_spawn_sync_t) (a : Z) :
  cursors_moved s (set_stdin_written a s).
Proof.
  exists a, (s_stdout_read s), (s_stderr_read s).
  split; [by destruct s|]. split; by left.
Qed.

Lemma cursors_moved_refl (s : uv_spawn_sync_t) : cursors_moved s s.
Proof.
  exists (s_stdin_written s), (s_stdout_read s), (s_stderr_read s).
  split; [by destruct s|]. split; by left.
Qed.

Lemma cursors_moved_stdout (s : uv_spawn_sync_t) (a b : Z) :
  (b = s_stdout_read s \/
   (s_stdout_read s <= b <= s_stdout_size s /\
    nonnull (s_stdout_buf s) = true)) ->
  cursors_moved s (set_stdout_read b (set_stdin_written a s)).
Proof.
  intros Hb. exists a, b, (s_stderr_read s).
  split; [by destruct s|]. split; [done|by left].
Qed.

Lemma sync_tail_spec (e : iter_env) (spawn : uv_spawn_sync_t)
    (l : sync_locals) (read_fds write_fds : gset Z) (w : world) :
  NoDup (held_fds spawn l (w_sigchld_pipe w)) ->
  (forall fd, fd ∈ held_fds spawn l (w_sigchld_pipe w) -> fd ∈ w_fds w) ->
  0 < s_pid spawn -> s_pid spawn ∈ w_procs w ->
  exists f w' ev_in ev_out ev_err,
    sync_tail e spawn l read_fds write_fds w = Done f w' /\
    Forall is_write ev_in /\
    Forall (is_read_within (fst (l_stdout_pipe l)) (s_stdout_buf spawn)
              (s_stdout_size spawn) (s_stdout_read spawn)) ev_out /\
    (s_stdout_size spawn - s_stdout_read spawn <= 0 -> ev_out = []) /\
    (nonnull (s_stdout_buf spawn) = false -> ev_out = []) /\
    Forall (is_read_within (fst (l_stderr_pipe l)) (s_stderr_buf spawn)
              (s_stderr_size spawn) (s_stderr_read spawn)) ev_err /\
    (s_stderr_size spawn - s_stderr_read spawn <= 0 -> ev_err = []) /\
    (nonnull (s_stderr_buf spawn) = false -> ev_err = []) /\
    w_sigchld_pipe w' = w_sigchld_pipe w /\
    match f with
    | Continue spawn' =>
        cursors_moved spawn spawn' /\
        (fst (w_sigchld_pipe w) ∉ read_fds) /\
        w_fds w' = w_fds w /\ w_procs w' = w_procs w /\
        last_err (w_loop w') = last_err (w_loop w) /\
        w_trace w' = w_trace w ++ ev_in ++ ev_out ++ ev_err
    | Return r spawn' =>
        w_fds w'
        = w_fds w ∖ list_to_set (held_fds spawn l (w_sigchld_pipe w)) /\
        ((r = 0 /\ exists p status spawn'',
            cursors_moved spawn spawn'' /\
            spawn' = decode_status status spawn'' /\
            i_wait e = WaitOk p status /\
            w_procs w' = w_procs w ∖ {[Z.pos p]} /\
            last_err (w_loop w') = last_err (w_loop w) /\
            w_trace w'
            = w_trace w ++ ev_in ++ ev_out ++ ev_err
                ++ EvWait (Z.pos p) status
                :: closes (held_fds spawn l (w_sigchld_pipe w)))
         \/
         (r = -1 /\ cursors_moved spawn spawn' /\
          w_procs w' = w_procs w /\
          abort_cause e spawn l read_fds (last_err (w_loop w')) /\
          exists ev_wait,
            (ev_wait = [] \/ ev_wait = [EvWait (-1) 0]) /\
            w_trace w'
            = w_trace w ++ ev_in ++ ev_out ++ ev_err ++ ev_wait
                ++ closes (held_fds spawn l (w_sigchld_pipe w))
                ++ [EvKill (s_pid spawn) SIGKILL 0]))
    end /\
    (nonnull (s_stdout_buf spawn) = true ->
     fst (l_stdout_pipe l) ∈ read_fds ->
     s_stdout_size spawn - s_stdout_read spawn <= 0 ->
     (exists spawn', f = Return (-1) spawn') /\
     (last_err (w_loop w') = Artificial UV_ENOBUFS \/
      exists errno, i_write e = IoErr errno /\ errno <> EINTR /\
                    last_err (w_loop w') = SysError errno)) /\
    (nonnull (s_stderr_buf spawn) = true ->
     fst (l_stderr_pipe l) ∈ read_fds ->
     s_stderr_size spawn - s_stderr_read spawn <= 0 ->
     (exists spawn', f = Return (-1) spawn') /\
     (last_err (w_loop w') = Artificial UV_ENOBUFS \/
      (exists errno, i_write e = IoErr errno /\ errno <> EINTR /\
                     last_err (w_loop w') = SysError errno) \/
      (exists errno, i_read_out e = IoErr errno /\
                     last_err (w_loop w') = SysError errno))).
Proof.
  intros Hnd Hopen Hpos Hlive.
  (* the stdin block *)
  destruct (sync_feed_spec (i_write e) spawn l write_fds w)
    as (b1 & w1 & Hfeed & (Hf1 & Hp1 & Hg1 & Hsp1 & Htm1)
        & (ev1 & Ht1 & Hev1) & Hb1).
  destruct b1 as [s1|]; cycle 1.
  { destruct Hb1 as (errno & Hw & Hne & Hle).
    destruct (sync_error_spec spawn l w1)
      as (w' & Herr & Hf & Ht & Hp & Hl & Hsp);
      rewrite ?Hsp1, ?Hf1, ?Hp1; trivial.
    exists (Return (-1) spawn), w', ev1, [], [].
    split.
    { unfold sync_tail. rewrite (bind_done _ _ _ _ _ Hfeed).
      by rewrite (bind_done _ _ _ _ _ Herr). }
    rewrite Hsp1, Hf1, Hp1, Ht1, Hl in *.
    repeat split; trivial; eauto.
    - right. split; [done|]. split; [apply cursors_moved_refl|].
      split; [done|]. split; [left; eauto|].
      exists []. split; [by left|]. rewrite Ht; cbn.
      by rewrite <- !app_assoc.
    - right. left. eauto. }
  destruct Hb1 as ((a & ->) & Hle1).
  (* the stdout block *)
  destruct (sync_capture_spec (i_read_out e) (s_stdout_buf spawn)
              (fst (l_stdout_pipe l)) (s_stdout_size spawn)
              (s_stdout_read spawn) read_fds w1)
    as (b2 & w2 & Hcap2 & (Hf2 & Hp2 & Hg2 & Hsp2 & Htm2)
        & (ev2 & Ht2 & Hev2 & Hfull2 & Hnull2) & Hb2 & Hov2).
  destruct b2 as [n2|]; cycle 1.
  { destruct Hb2 as (Hnn & Hin & Hcause).
    destruct (sync_error_spec (set_stdin_written a spawn) l w2)
      as (w' & Herr & Hf & Ht & Hp & Hl & Hsp);
      rewrite ?Hsp2, ?Hsp1, ?Hf2, ?Hf1, ?Hp2, ?Hp1; trivial.
    exists (Return (-1) (set_stdin_written a spawn)), w', ev1, ev2, [].
    split.
    { unfold sync_tail. rewrite (bind_done _ _ _ _ _ Hfeed). cbn.
      rewrite (bind_done _ _ _ _ _ Hcap2).
      by rewrite (bind_done _ _ _ _ _ Herr). }
    change (held_fds (set_stdin_written a spawn) l) with (held_fds spawn l)
      in *.
    change (s_pid (set_stdin_written a spawn)) with (s_pid spawn) in *.
    rewrite Hl, ?Hsp2, ?Hsp1, ?Hf2, ?Hf1, ?Hp2, ?Hp1 in *.
    assert (abort_cause e spawn l read_fds (last_err (w_loop w2))) as Hc.
    { destruct (s_stdout_size spawn - s_stdout_read spawn <=? 0) eqn:Hfl.
      - right. left. repeat split; trivial. lia.
      - right. right. left. repeat split; trivial. }
    repeat split; trivial; eauto.
    - right. split; [done|]. split; [apply cursors_moved_stdin|].
      split; [done|]. split; [done|].
      exists []. split; [by left|]. rewrite Ht, Ht2, Ht1. cbn.
      by rewrite <- !app_assoc.
    - destruct (s_stdout_size spawn - s_stdout_read spawn <=? 0) eqn:Hfl';
        [by left|lia].
    - destruct (s_stdout_size spawn - s_stdout_read spawn <=? 0) eqn:Hfl';
        [by left|].
      right. right. destruct Hcause as (errno & ? & ?). eauto. }
  destruct Hb2 as (Hn2 & Hle2).
  (* the stderr block *)
  destruct (sync_capture_spec (i_read_err e) (s_stderr_buf spawn)
              (fst (l_stderr_pipe l)) (s_stderr_size spawn)
              (s_stderr_read spawn) read_fds w2)
    as (b3 & w3 & Hcap3 & (Hf3 & Hp3 & Hg3 & Hsp3 & Htm3)
        & (ev3 & Ht3 & Hev3 & Hfull3 & Hnull3) & Hb3 & Hov3).
  destruct b3 as [n3|]; cycle 1.
  { destruct Hb3 as (Hnn & Hin & Hcause).
    destruct (sync_error_spec
                (set_stdout_read n2 (set_stdin_written a spawn)) l w3)
      as (w' & Herr & Hf & Ht & Hp & Hl & Hsp);
      rewrite ?Hsp3, ?Hsp2, ?Hsp1, ?Hf3, ?Hf2, ?Hf1, ?Hp3, ?Hp2, ?Hp1;
      trivial.
    exists (Return (-1) (set_stdout_read n2 (set_stdin_written a spawn))),
      w', ev1, ev2, ev3.
    split.
    { unfold sync_tail. rewrite (bind_done _ _ _ _ _ Hfeed). cbn.
      rewrite (bind_done _ _ _ _ _ Hcap2). cbn.
      rewrite (bind_done _ _ _ _ _ Hcap3).
      by rewrite (bind_done _ _ _ _ _ Herr). }
    change (held_fds (set_stdout_read n2 (set_stdin_written a spawn)) l)
      with (held_fds spawn l) in *.
    change (s_pid (set_stdout_read n2 (set_stdin_written a spawn)))
      with (s_pid spawn) in *.
    rewrite Hl, ?Hsp3, ?Hsp2, ?Hsp1, ?Hf3, ?Hf2, ?Hf1, ?Hp3, ?Hp2, ?Hp1 in *.
    assert (abort_cause e spawn l read_fds (last_err (w_loop w3))) as Hc.
    { destruct (s_stderr_size spawn - s_stderr_read spawn <=? 0) eqn:Hfl.
      - do 3 right. left. repeat split; trivial. lia.
      - do 4 right. left. repeat split; trivial. }
    repeat split; trivial; eauto.
    - right. split; [done|]. split; [by apply cursors_moved_stdout|].
      split; [done|]. split; [done|].
      exists []. split; [by left|]. rewrite Ht, Ht3, Ht2, Ht1. cbn.
      by rewrite <- !app_assoc.
    - exfalso. by discriminate Hov2.
    - destruct (s_stderr_size spawn - s_stderr_read spawn <=? 0) eqn:Hfl';
        [by left|lia]. }
  destruct Hb3 as (Hn3 & Hle3).
  (* the self-pipe *)
  set (s3 := set_stderr_read n3
               (set_stdout_read n2 (set_stdin_written a spawn))).
  assert (cursors_moved spawn s3) as Hcm by by apply cursors_moved_intro.
  destruct (sync_reap_spec e s3 l read_fds w3)
    as (f & w' & Hreap & Hfacts);
    rewrite ?Hsp3, ?Hsp2, ?Hsp1, ?Hf3, ?Hf2, ?Hf1, ?Hp3, ?Hp2, ?Hp1;
    trivial.
  exists f, w', ev1, ev2, ev3.
  split.
  { unfold sync_tail. rewrite (bind_done _ _ _ _ _ Hfeed). cbn.
    rewrite (bind_done _ _ _ _ _ Hcap2). cbn.
    rewrite (bind_done _ _ _ _ _ Hcap3). cbn. exact Hreap. }
  change (held_fds s3 l) with (held_fds spawn l) in *.
  change (s_pid s3) with (s_pid spawn) in *.
  rewrite ?Hsp3, ?Hsp2, ?Hsp1, ?Hf3, ?Hf2, ?Hf1, ?Hp3, ?Hp2, ?Hp1,
    ?Hle3, ?Hle2, ?Hle1, ?Ht3, ?Ht2, ?Ht1 in Hfacts.
  split; [done|]. split; [done|]. split; [done|]. split; [done|].
  split; [done|]. split; [done|]. split; [done|].
  destruct f as [s'|r s'].
  - destruct Hfacts as (-> & Hnin & Hf & Hp & Hsp & Ht & Hl).
    split; [done|]. split.
    { repeat split; trivial. rewrite Ht. by rewrite <- !app_assoc. }
    split.
    + intros Hnn' Hin' Hfl'. exfalso. by discriminate Hov2.
    + intros Hnn' Hin' Hfl'. exfalso. by discriminate Hov3.
  - destruct Hfacts as (Hin & Hf & Hsp & Hkind).
    split; [done|]. split.
    { split; [done|].
      destruct Hkind as [(-> & p & status & Hw & -> & Hp & Hl & Ht)
                        |(-> & -> & errno & Hw & Hl & Hp & Ht)].
      - left. split; [done|]. exists p, status, s3.
        repeat split; trivial. rewrite Ht. by rewrite <- !app_assoc.
      - right. repeat split; trivial.
        + do 5 right. eauto.
        + exists [EvWait (-1) 0]. split; [by right|].
          rewrite Ht. cbn. by rewrite <- !app_assoc. }
    split.
    + intros Hnn' Hin' Hfl'. exfalso. by discriminate Hov2.
    + intros Hnn' Hin' Hfl'. exfalso. by discriminate Hov3.
Qed.

Arguments sync_iter : simpl never.
Arguments sync_setup : simpl never.

Lemma sync_inv_step (w0 : world) (spawn0 : uv_spawn_sync_t) (child : Z)
    (s s' : uv_spawn_sync_t) (l : sync_locals) (w w' : world) :
  sync_inv w0 spawn0 child s l w ->
  cursors_moved s s' ->
  w_fds w' = w_fds w -> w_procs w' = w_procs w ->
  w_sigchld_pipe w' = w_sigchld_pipe w ->
  (exists evs, w_trace w' = w_trace w ++ evs) ->
  sync_inv w0 spawn0 child s' l w'.
Proof.
  intros [? ? ? ? ? ? ? ? ? ? ? ? Hnd Hfresh Hfds (evs0 & Ht0)]
    (a & b & c & -> & _ & _) Hf Hp Hsp (evs & Ht).
  split; cbn; rewrite ?Hf, ?Hp, ?Hsp; trivial.
  exists (evs0 ++ evs). by rewrite Ht, Ht0, <- app_assoc.
Qed.

Lemma sync_inv_held (w0 : world) (spawn0 : uv_spawn_sync_t) (child : Z)
    (s : uv_spawn_sync_t) (l : sync_locals) (w : world) :
  sync_inv w0 spawn0 child s l w ->
  NoDup (held_fds s l (w_sigchld_pipe w)) /\
  (forall fd, fd ∈ held_fds s l (w_sigchld_pipe w) -> fd ∈ w_fds w) /\
  0 < s_pid s /\ s_pid s ∈ w_procs w /\
  w_fds w ∖ list_to_set (held_fds s l (w_sigchld_pipe w)) = w_fds w0.
Proof.
  intros [? ? ? ? ? ? Hpid ? ? ? ? ? Hnd Hfresh Hfds _].
  rewrite Hpid. repeat split; trivial.
  - intros fd Hfd. rewrite Hfds. set_solver.
  - rewrite Hfds.
    apply set_eq. intros x. rewrite elem_of_difference, elem_of_union.
    split; [intros [[?|?] ?]; done|].
    intros Hx. split; [by left|]. intros Hh%elem_of_list_to_set.
    by apply Hfresh in Hh.
Qed.

(** A pass that goes round keeps the invariant, moves only the cursors and
    starts with its [select]. *)
Lemma sync_iter_continue (w0 : world) (spawn0 : uv_spawn_sync_t) (child : Z)
    (e : iter_env) (s s' : uv_spawn_sync_t) (l : sync_locals) (w w' : world) :
  sync_inv w0 spawn0 child s l w ->
  sync_iter e s l w = Done (Continue s') w' ->
  sync_inv w0 spawn0 child s' l w' /\
  w_sigchld_pipe w' = w_sigchld_pipe w /\
  cursors_moved s s' /\
  exists r evs, w_trace w' = w_trace w ++ select_event s l w r :: evs.
Proof.
  intros Hinv Hit.
  destruct (sync_inv_held _ _ _ _ _ _ Hinv) as (Hnd & Hopen & Hpos & Hlive & _).
  destruct (i_select e) as [errno|rd wr] eqn:Hsel.
  - rewrite (sync_iter_select_err _ _ _ _ _ Hsel) in Hit. cbn in Hit.
    destruct (errno =? EINTR).
    + injection Hit as <- <-. cbn.
      split; [|split; [done|split; [apply cursors_moved_refl|]]].
      * eapply sync_inv_step; eauto using cursors_moved_refl;
          try by eexists.
      * by exists (-1), [].
    + by rewrite bind_sync_error in Hit.
  - destruct (decide (select_count s l w rd wr = 0)) as [Hz|Hnz].
    + rewrite (sync_iter_timeout _ _ _ _ _ _ Hsel Hz) in Hit.
      by rewrite bind_sync_close_pipes, bind_sys_kill in Hit.
    + rewrite (sync_iter_ready _ _ _ _ _ _ Hsel Hnz) in Hit.
      match type of Hit with
      | sync_tail _ _ _ ?rd' ?wr' ?w1 = _ =>
          destruct (sync_tail_spec e s l rd' wr' w1)
            as (f & w'' & ev1 & ev2 & ev3 & Heq & _ & _ & _ & _ & _ & _ & _
                & Hsp & Hf & _); trivial
      end.
      rewrite Heq in Hit. injection Hit as -> ->.
      destruct Hf as (Hcm & _ & Hfd & Hp & _ & Ht). cbn in *.
      split; [|split; [done|split; [done|]]].
      * eapply sync_inv_step; eauto.
        exists ([select_event s l w (select_count s l w rd wr)]
                  ++ ev1 ++ ev2 ++ ev3).
        by rewrite Ht, <- app_assoc.
      * eexists _, _. rewrite Ht, <- app_assoc. reflexivity.
Qed.

Lemma sync_passes_inv (w0 : world) (spawn0 : uv_spawn_sync_t) (child : Z)
    (l : sync_locals) (its : list iter_env) :
  forall (s s' : uv_spawn_sync_t) (w w' : world),
  sync_inv w0 spawn0 child s l w ->
  sync_passes its s l w = Some (s', w') ->
  sync_inv w0 spawn0 child s' l w' /\
  w_sigchld_pipe w' = w_sigchld_pipe w.
Proof.
  induction its as [|e its IH]; intros s s' w w' Hinv Hp; cbn in Hp.
  - by injection Hp as <- <-.
  - destruct (sync_iter e s l w) as [[s1|]w1| |] eqn:Hit; try done.
    destruct (sync_iter_continue _ _ _ _ _ _ _ _ _ Hinv Hit)
      as (Hinv1 & Hsp1 & _).
    destruct (IH _ _ _ _ Hinv1 Hp) as (Hinv' & Hsp').
    split; [done|]. by rewrite Hsp', Hsp1.
Qed.

Lemma sync_loop_passes (l : sync_locals) (pre rest : list iter_env) :
  forall (s s' : uv_spawn_sync_t) (w w' : world),
  sync_passes pre s l w = Some (s', w') ->
  sync_loop (pre ++ rest) s l w = sync_loop rest s' l w'.
Proof.
  induction pre as [|e pre IH]; intros s s' w w' Hp; cbn in Hp.
  - by injection Hp as <- <-.
  - destruct (sync_iter e s l w) as [[s1|]w1| |] eqn:Hit; try done.
    cbn. unfold bind at 1. rewrite Hit. by apply IH.
Qed.

(** What it means that pass [n] starts in [(sk, l, wk)]: the invariant
    holds there, relative to the world of the call, and the call is this
    pass followed by the rest of the loop. *)
Lemma sync_reach_spec (env : sync_env) (spawn : uv_spawn_sync_t) (w : world)
    (n : nat) (sk : uv_spawn_sync_t) (l : sync_locals) (wk : world)
    (e : iter_env) :
  sync_reach env spawn w n = Some (sk, l, wk) ->
  y_iters env !! n = Some e ->
  (exists p, y_fork env = ForkOk p /\
             sync_inv w spawn (Z.pos p) sk l wk) /\
  uv_spawn_sync env spawn w
  = bind (sync_iter e sk l)
      (fun f => match f with
                | Continue spawn' =>
                    sync_loop (drop (S n) (y_iters env)) spawn' l
                | Return r spawn' => ret (r, spawn')
                end) wk.
Proof.
  unfold sync_reach, uv_spawn_sync. intros Hr Hn.
  destruct (sync_setup env spawn w) as [[rs|[s1 l1]] w1| |] eqn:Hset;
    try done.
  destruct (sync_passes (take n (y_iters env)) s1 l1 w1) as [[s2 w2]|] eqn:Hp;
    try done.
  injection Hr as -> -> ->.
  destruct (sync_setup_inv _ _ _ _ _ _ Hset) as (p & Hfork & Hinv & _).
  split.
  - exists p. split; [done|].
    by destruct (sync_passes_inv _ _ _ _ _ _ _ _ _ Hinv Hp).
  - unfold bind at 1. rewrite Hset.
    rewrite <- (take_drop_middle _ _ _ Hn) at 1.
    by rewrite (sync_loop_passes _ _ _ _ _ _ _ Hp).
Qed.

Lemma abort_cause_err (e : iter_env) (s : uv_spawn_sync_t) (l : sync_locals)
    (rd : gset Z) (err : uv_err_t) :
  abort_cause e s l rd err ->
  (exists errno, err = SysError errno) \/ err = Artificial UV_ENOBUFS.
Proof.
  intros [(errno & _ & _ & ->)|[(_ & _ & _ & ->)|[(_ & _ & errno & _ & ->)
         |[(_ & _ & _ & ->)|[(_ & _ & errno & _ & ->)|(errno & _ & ->)]]]]];
    eauto.
Qed.

(** Every pass comes back: it starts with its [select], and then either
    goes round with the invariant intact, or leaves the loop with
    everything the call had opened closed again. *)
Lemma sync_iter_spec (w0 : world) (spawn0 : uv_spawn_sync_t) (child : Z)
    (e : iter_env) (s : uv_spawn_sync_t) (l : sync_locals) (w : world) :
  sync_inv w0 spawn0 child s l w ->
  exists f w' r evs,
    sync_iter e s l w = Done f w' /\
    w_trace w' = w_trace w ++ select_event s l w r :: evs /\
    match f with
    | Continue s' =>
        sync_inv w0 spawn0 child s' l w' /\
        w_sigchld_pipe w' = w_sigchld_pipe w /\ cursors_moved s s'
    | Return ret s' =>
        w_fds w' = w_fds w0 /\ pass_exit s l w w' r ret s' evs
    end.
Proof.
  intros Hinv.
  destruct (sync_inv_held _ _ _ _ _ _ Hinv)
    as (Hnd & Hopen & Hpos & Hlive & Hrest).
  destruct (i_select e) as [errno|rd wr] eqn:Hsel.
  - destruct (errno =? EINTR) eqn:Hintr.
    + assert (sync_iter e s l w
              = Done (Continue s)
                  (log (select_event s l w (-1)) (set_errno_w errno w)))
        as Hit.
      { rewrite (sync_iter_select_err _ _ _ _ _ Hsel). cbn. by rewrite Hintr. }
      destruct (sync_iter_continue _ _ _ _ _ _ _ _ _ Hinv Hit)
        as (Hinv' & Hsp & Hcm & _).
      eexists _, _, (-1), []. split; [exact Hit|]. by cbn.
    + destruct (sync_error_spec s l
                  (set_loop (Loop (SysError errno)
                               (counters_process_init (w_loop w))
                               (loop_time (w_loop w)))
                     (log (select_event s l w (-1)) (set_errno_w errno w))))
        as (w' & Herr & Hf & Ht & Hp & Hl & Hsp); trivial.
      exists (Return (-1) s), w', (-1),
        (closes (held_fds s l (w_sigchld_pipe w))
           ++ [EvKill (s_pid s) SIGKILL 0]).
      split.
      { rewrite (sync_iter_select_err _ _ _ _ _ Hsel). cbn. rewrite Hintr.
        by rewrite (bind_done _ _ _ _ _ Herr). }
      cbn in *. split; [by rewrite Ht, <- app_assoc|].
      split; [by rewrite Hf|].
      right. right. split; [done|]. split; [apply cursors_moved_refl|].
      split; [by exists []|]. split; [done|]. left. rewrite Hl. by eexists.
  - destruct (decide (select_count s l w rd wr = 0)) as [Hz|Hnz].
    + assert (sync_iter e s l w
              = Done (Return 0 (set_exit_timeout 1 s))
                  (kill_w (s_pid s) SIGKILL
                     (close_all_w (held_fds s l (w_sigchld_pipe w))
                        (log (select_event s l w 0) w)))) as Hit.
      { rewrite (sync_iter_timeout _ _ _ _ _ _ Hsel Hz).
        by rewrite bind_sync_close_pipes, bind_sys_kill. }
      destruct (close_all_w_open (held_fds s l (w_sigchld_pipe w))
                  (log (select_event s l w 0) w))
        as (Hf & Ht & Hp & _ & _ & Hl & _ & Hsp & _); trivial.
      set (w1 := close_all_w (held_fds s l (w_sigchld_pipe w))
                   (log (select_event s l w 0) w)) in *.
      clearbody w1.
      destruct (kill_w_live (s_pid s) w1 Hpos) as [Hk _]; [by rewrite Hp|].
      rewrite Hk in Hit.
      exists (Return 0 (set_exit_timeout 1 s)),
        (log (EvKill (s_pid s) SIGKILL 0) w1), 0,
        (closes (held_fds s l (w_sigchld_pipe w))
           ++ [EvKill (s_pid s) SIGKILL 0]).
      split; [exact Hit|].
      unfold pass_exit. cbn in *. rewrite ?Ht, ?Hf, ?Hp, ?Hl.
      split; [by rewrite <- !app_assoc|]. split; [done|]. by left.
    + destruct (sync_tail_spec e s l
                  (sync_read_fds s l (w_sigchld_pipe w) ∩ rd)
                  (sync_write_fds s l ∩ wr)
                  (log (select_event s l w (select_count s l w rd wr)) w))
        as (f & w' & ev1 & ev2 & ev3 & Heq & _ & _ & _ & _ & _ & _ & _
            & Hsp & Hf & _); trivial.
      rewrite <- (sync_iter_ready _ _ _ _ _ _ Hsel Hnz) in Heq.
      destruct f as [s'|ret s'].
      * destruct (sync_iter_continue _ _ _ _ _ _ _ _ _ Hinv Heq)
          as (Hinv' & Hsp' & Hcm & _).
        destruct Hf as (_ & _ & _ & _ & _ & Ht). cbn in Ht.
        eexists _, _, _, _. split; [exact Heq|].
        split; [by rewrite Ht, <- app_assoc|]. done.
      * destruct Hf as (Hfd & Hkind). cbn in *.
        destruct Hkind as [(-> & p & status & s'' & Hcm & -> & Hw & Hp
                            & Hl & Ht)
                          |(-> & Hcm & Hp & Hc & evw & _ & Ht)].
        -- eexists _, _, _, _. split; [exact Heq|].
           split; [by rewrite Ht, <- app_assoc|].
           split; [by rewrite Hfd|].
           right. left. split; [done|].
           exists p, status, s'', (ev1 ++ ev2 ++ ev3).
           repeat split; trivial. by rewrite <- !app_assoc.
        -- eexists _, _, _, _. split; [exact Heq|].
           split; [by rewrite Ht, <- app_assoc|].
           split; [by rewrite Hfd|].
           right. right. split; [done|]. split; [done|].
           split; [exists (ev1 ++ ev2 ++ ev3 ++ evw);
                   by rewrite <- !app_assoc|].
           split; [done|]. by eapply abort_cause_err.
Qed.


(** ** Requests and kernels for examples *)

Arguments closes : simpl never.
Arguments held_fds : simpl never.

(** ** The timeout of the sync engine *)

(** C6: when [select] reports no ready descriptor in some pass of the loop
    of [uv_spawn_sync], the call closes every pipe end it holds (its
    descriptor table is back to what it was at the call), sends SIGKILL to
    the child it forked, sets [exit_timeout] to 1 and returns 0. *)
Theorem uv_spawn_sync_timeout (env : sync_env) (spawn : uv_spawn_sync_t)
    (w : world) (n : nat) (sk : uv_spawn_sync_t) (l : sync_locals)
    (wk : world) (e : iter_env) (rd wr : gset Z) :
  sync_reach env spawn w n = Some (sk, l, wk) ->
  y_iters env !! n = Some e ->
  i_select e = SelReady rd wr ->
  select_count sk l wk rd wr = 0 ->
  exists w' p,
    uv_spawn_sync env spawn w = Done (0, set_exit_timeout 1 sk) w' /\
    s_exit_timeout (set_exit_timeout 1 sk) = 1 /\
    y_fork env = ForkOk p /\ s_pid sk = Z.pos p /\
    w_fds wk = w_fds w ∪ list_to_set (held_fds sk l (w_sigchld_pipe wk)) /\
    w_fds w' = w_fds w /\
    w_trace w'
    = w_trace wk ++ select_event sk l wk 0
        :: closes (held_fds sk l (w_sigchld_pipe wk))
        ++ [EvKill (Z.pos p) SIGKILL 0].
Proof.
  intros Hreach Hn Hsel Hz.
  destruct (sync_reach_spec _ _ _ _ _ _ _ _ Hreach Hn)
    as ((p & Hfork & Hinv) & Hcall).
  destruct (sync_inv_held _ _ _ _ _ _ Hinv)
    as (Hnd & Hopen & Hpos & Hlive & Hrest).
  destruct (close_all_w_open (held_fds sk l (w_sigchld_pipe wk))
              (log (select_event sk l wk 0) wk))
    as (Hf & Ht & Hp & _ & _ & Hl & _ & Hsp & _); trivial.
  assert (sync_iter e sk l wk
          = Done (Return 0 (set_exit_timeout 1 sk))
              (kill_w (s_pid sk) SIGKILL
                 (close_all_w (held_fds sk l (w_sigchld_pipe wk))
                    (log (select_event sk l wk 0) wk)))) as Hit.
  { rewrite (sync_iter_timeout _ _ _ _ _ _ Hsel Hz).
    by rewrite bind_sync_close_pipes, bind_sys_kill. }
  set (w1 := close_all_w (held_fds sk l (w_sigchld_pipe wk))
               (log (select_event sk l wk 0) wk)) in *.
  clearbody w1.
  destruct (kill_w_live (s_pid sk) w1 Hpos) as [Hk _]; [by rewrite Hp|].
  rewrite Hk in Hit.
  exists (log (EvKill (s_pid sk) SIGKILL 0) w1), p.
  split; [by rewrite Hcall, (bind_done _ _ _ _ _ Hit)|].
  destruct Hinv as [? ? ? ? ? ? Hpid ? ? ? ? ? _ _ Hfds _].
  cbn in *. rewrite Ht, Hf, Hpid, <- !app_assoc.
  repeat split; trivial.
Qed.

Lemma uv_spawn_sync_timeout_witness :
  exists sk w',
    uv_spawn_sync env_timeout spawn_cat world0
    = Done (0, set_exit_timeout 1 sk) w' /\
    w_fds w' = w_fds world0.
Proof.
  edestruct (uv_spawn_sync_timeout env_timeout spawn_cat world0 0)
    as (w' & p & Hcall & _ & _ & _ & _ & Hfds & _);
    [vm_compute; reflexivity | reflexivity | reflexivity
    | vm_compute; reflexivity |].
  eexists _, _. split; [exact Hcall | exact Hfds].
Defined.



(** ** Overflow of a capture buffer *)




Lemma closes_no_read (fd : Z) (fds : list Z) :
  Forall (no_read_on fd) (closes fds).
Proof. unfold closes. apply Forall_forall. intros ev (x & -> & _)%list_elem_of_fmap. done. Qed.










(** ** The wait set of the sync engine *)

(** C4, as stated, fails: the first pass of this run reads zero bytes from
    the stdout pipe (descriptor 5), and the [select] of the second pass
    still has that descriptor in its read set. *)
Lemma eof_pipe_still_polled :
  exists sk l wk rs w',
    sync_reach env_eof spawn_cat world0 1 = Some (sk, l, wk) /\
    last (w_trace wk) = Some (EvRead 5 2000 16 0) /\
    uv_spawn_sync env_eof spawn_cat world0 = Done rs w' /\
    w_trace w' !! length (w_trace wk) = Some (select_event sk l wk 0) /\
    5 ∈ sync_read_fds sk l (w_sigchld_pipe wk).
Proof.
  eexists _, _, _, _, _.
  split; [vm_compute; reflexivity|].
  split; [reflexivity|].
  split; [vm_compute; reflexivity|].
  split; [vm_compute; reflexivity|].
  cbn. set_solver.
Qed.

Lemma sync_reach_setup (env : sync_env) (spawn : uv_spawn_sync_t) (w : world)
    (n : nat) (sk : uv_spawn_sync_t) (l : sync_locals) (wk : world) :
  sync_reach env spawn w n = Some (sk, l, wk) ->
  exists s1 w1 p,
    sync_setup env spawn w = Done (inr (s1, l)) w1 /\
    y_fork env = ForkOk p /\
    sync_inv w spawn (Z.pos p) sk l wk /\
    w_sigchld_pipe wk = w_sigchld_pipe w1.
Proof.
  unfold sync_reach. intros Hr.
  destruct (sync_setup env spawn w) as [[rs|[s1 l1]] w1| |] eqn:Hset;
    try done.
  destruct (sync_passes (take n (y_iters env)) s1 l1 w1) as [[s2 w2]|] eqn:Hp;
    try done.
  injection Hr as -> -> ->.
  destruct (sync_setup_inv _ _ _ _ _ _ Hset) as (p & Hfork & Hinv & _).
  destruct (sync_passes_inv _ _ _ _ _ _ _ _ _ Hinv Hp) as (Hinv' & Hsp).
  by exists s1, w1, p.
Qed.

(** A pass in which [select] reports the stdout pipe ready and nothing
    else, the stdout buffer has room and [read] gives zero bytes: the loop
    goes round with the record as it was, and no error is recorded. *)
Lemma sync_iter_stdout_eof (e : iter_env) (s : uv_spawn_sync_t)
    (l : sync_locals) (w : world) (rd wr : gset Z) :
  i_select e = SelReady rd wr ->
  nonnull (s_stdout_buf s) = true ->
  fst (l_stdout_pipe l) ∈ rd ->
  s_stdout_read s < s_stdout_size s ->
  i_read_out e = IoOk 0 ->
  snd (l_stdin_pipe l) ∉ wr ->
  fst (l_stderr_pipe l) ∉ rd ->
  fst (w_sigchld_pipe w) ∉ rd ->
  exists w',
    sync_iter e s l w = Done (Continue s) w' /\
    w_trace w'
    = w_trace w
      ++ [select_event s l w 1;
          EvRead (fst (l_stdout_pipe l))
            (ptr_add (s_stdout_buf s) (s_stdout_read s))
            (s_stdout_size s - s_stdout_read s) 0] /\
    last_err (w_loop w') = last_err (w_loop w).
Proof.
  intros Hsel Hbuf Hin Hroom Hread Hnw Hne Hns.
  assert (sync_read_fds s l (w_sigchld_pipe w) ∩ rd
          = {[fst (l_stdout_pipe l)]}) as Hrd.
  { unfold sync_read_fds. rewrite Hbuf.
    destruct (nonnull (s_stderr_buf s)); set_solver. }
  assert (sync_write_fds s l ∩ wr = ∅) as Hwr.
  { unfold sync_write_fds. destruct (nonnull (s_stdin_buf s)); set_solver. }
  assert (select_count s l w rd wr = 1) as Hcount.
  { unfold select_count. by rewrite Hrd, Hwr, size_singleton, size_empty. }
  rewrite (sync_iter_ready _ _ _ _ _ _ Hsel) by (rewrite Hcount; done).
  rewrite Hrd, Hwr, Hcount.
  assert (fst (l_stderr_pipe l) <> fst (l_stdout_pipe l)) as Hd1
    by (intros Heq; apply Hne; by rewrite Heq).
  assert (fst (w_sigchld_pipe w) <> fst (l_stdout_pipe l)) as Hd2
    by (intros Heq; apply Hns; by rewrite Heq).
  unfold sync_tail, sync_feed, sync_capture, sync_reap.
  rewrite (bool_decide_eq_false_2 (snd (l_stdin_pipe l) ∈ ∅))
    by apply not_elem_of_empty.
  rewrite andb_false_r. cbn [andb]. rewrite bind_ret.
  rewrite Hbuf, Hread.
  rewrite (bool_decide_eq_true_2
             (fst (l_stdout_pipe l) ∈ {[fst (l_stdout_pipe l)]}))
    by (by apply elem_of_singleton_2).
  rewrite (bool_decide_eq_false_2
             (fst (l_stderr_pipe l) ∈ {[fst (l_stdout_pipe l)]}))
    by (by apply not_elem_of_singleton_2).
  cbn [andb].
  rewrite (proj2 (Z.leb_gt _ _)) by lia.
  unfold sys_read. rewrite Z.min_l by (cbn; lia).
  destruct w as [fds0 procs0 pgrp0 errno0 environ0 [err0 count0 time0] sp0
                   h0 tr0].
  cbn [w_sigchld_pipe] in Hd2.
  cbn. rewrite andb_false_r. cbn.
  rewrite (bool_decide_eq_false_2 (fst sp0 ∈ {[fst (l_stdout_pipe l)]}))
    by (by apply not_elem_of_singleton_2).
  cbn.
  eexists. split.
  - f_equal. destruct s. cbn. by rewrite Z.add_0_r.
  - cbn. split; [|reflexivity]. by rewrite <- app_assoc.
Qed.

(** The same for the stderr pipe. *)
Lemma sync_iter_stderr_eof (e : iter_env) (s : uv_spawn_sync_t)
    (l : sync_locals) (w : world) (rd wr : gset Z) :
  i_select e = SelReady rd wr ->
  nonnull (s_stderr_buf s) = true ->
  fst (l_stderr_pipe l) ∈ rd ->
  s_stderr_read s < s_stderr_size s ->
  i_read_err e = IoOk 0 ->
  snd (l_stdin_pipe l) ∉ wr ->
  fst (l_stdout_pipe l) ∉ rd ->
  fst (w_sigchld_pipe w) ∉ rd ->
  exists w',
    sync_iter e s l w = Done (Continue s) w' /\
    w_trace w'
    = w_trace w
      ++ [select_event s l w 1;
          EvRead (fst (l_stderr_pipe l))
            (ptr_add (s_stderr_buf s) (s_stderr_read s))
            (s_stderr_size s - s_stderr_read s) 0] /\
    last_err (w_loop w') = last_err (w_loop w).
Proof.
  intros Hsel Hbuf Hin Hroom Hread Hnw Hno Hns.
  assert (sync_read_fds s l (w_sigchld_pipe w) ∩ rd
          = {[fst (l_stderr_pipe l)]}) as Hrd.
  { unfold sync_read_fds. rewrite Hbuf.
    destruct (nonnull (s_stdout_buf s)); set_solver. }
  assert (sync_write_fds s l ∩ wr = ∅) as Hwr.
  { unfold sync_write_fds. destruct (nonnull (s_stdin_buf s)); set_solver. }
  assert (select_count s l w rd wr = 1) as Hcount.
  { unfold select_count. by rewrite Hrd, Hwr, size_singleton, size_empty. }
  rewrite (sync_iter_ready _ _ _ _ _ _ Hsel) by (rewrite Hcount; done).
  rewrite Hrd, Hwr, Hcount.
  assert (fst (l_stdout_pipe l) <> fst (l_stderr_pipe l)) as Hd1
    by (intros Heq; apply Hno; by rewrite Heq).
  assert (fst (w_sigchld_pipe w) <> fst (l_stderr_pipe l)) as Hd2
    by (intros Heq; apply Hns; by rewrite Heq).
  unfold sync_tail, sync_feed, sync_capture, sync_reap.
  rewrite (bool_decide_eq_false_2 (snd (l_stdin_pipe l) ∈ ∅))
    by apply not_elem_of_empty.
  rewrite andb_false_r. cbn [andb]. rewrite bind_ret.
  rewrite (bool_decide_eq_false_2
             (fst (l_stdout_pipe l) ∈ {[fst (l_stderr_pipe l)]}))
    by (by apply not_elem_of_singleton_2).
  rewrite andb_false_r. rewrite bind_ret.
  cbn [s_stderr_buf s_stderr_size s_stderr_read set_stdout_read].
  rewrite Hbuf, Hread.
  rewrite (bool_decide_eq_true_2
             (fst (l_stderr_pipe l) ∈ {[fst (l_stderr_pipe l)]}))
    by (by apply elem_of_singleton_2).
  cbn [andb].
  rewrite (proj2 (Z.leb_gt _ _)) by lia.
  unfold sys_read. rewrite Z.min_l by (cbn; lia).
  destruct w as [fds0 procs0 pgrp0 errno0 environ0 [err0 count0 time0] sp0
                   h0 tr0].
  cbn [w_sigchld_pipe] in Hd2.
  cbn.
  rewrite (bool_decide_eq_false_2 (fst sp0 ∈ {[fst (l_stderr_pipe l)]}))
    by (by apply not_elem_of_singleton_2).
  cbn.
  eexists. split.
  - f_equal. destruct s. cbn. by rewrite Z.add_0_r.
  - cbn. split; [|reflexivity]. by rewrite <- app_assoc.
Qed.

(** C4 (amended): the loop of [uv_spawn_sync] builds its wait set anew in
    every pass from the buffers of the request alone: the read set handed
    to [select] is the read end of the self-pipe plus the read end of each
    capture pipe whose buffer was supplied, the write set the write end of
    the stdin pipe if a stdin buffer was supplied and empty otherwise; the
    pipes are the same in every pass.  A zero-byte read is not an error and
    leaves the read count as it was: a pass in which [select] reports
    nothing but a capture pipe ready, the buffer of that pipe has room and
    [read] gives zero bytes makes that one [read], records no error, and
    the loop goes round with the record unchanged.  Nothing is closed and
    nothing is taken out of the wait set: the pipe is handed to [select]
    again in every pass that follows. *)
Theorem sync_wait_set_fixed (env : sync_env) (spawn : uv_spawn_sync_t)
    (w : world) (n : nat) (sk : uv_spawn_sync_t) (l : sync_locals)
    (wk : world) (e : iter_env) :
  sync_reach env spawn w n = Some (sk, l, wk) ->
  y_iters env !! n = Some e ->
  exists f w' tv_sec tv_usec r evs,
    sync_iter e sk l wk = Done f w' /\
    w_trace w'
    = w_trace wk
      ++ EvSelect (l_nfds l)
           ({[fst (w_sigchld_pipe wk)]}
            ∪ (if nonnull (s_stdout_buf spawn)
               then {[fst (l_stdout_pipe l)]} else ∅)
            ∪ (if nonnull (s_stderr_buf spawn)
               then {[fst (l_stderr_pipe l)]} else ∅))
           (if nonnull (s_stdin_buf spawn)
            then {[snd (l_stdin_pipe l)]} else ∅)
           tv_sec tv_usec r
         :: evs /\
    (forall m sm lm wm,
       sync_reach env spawn w m = Some (sm, lm, wm) ->
       lm = l /\ w_sigchld_pipe wm = w_sigchld_pipe wk) /\
    (forall rd wr,
       i_select e = SelReady rd wr ->
       nonnull (s_stdout_buf spawn) = true ->
       fst (l_stdout_pipe l) ∈ rd ->
       s_stdout_read sk < s_stdout_size spawn ->
       i_read_out e = IoOk 0 ->
       snd (l_stdin_pipe l) ∉ wr ->
       fst (l_stderr_pipe l) ∉ rd ->
       fst (w_sigchld_pipe wk) ∉ rd ->
       f = Continue sk /\
       evs = [EvRead (fst (l_stdout_pipe l))
                (ptr_add (s_stdout_buf spawn) (s_stdout_read sk))
                (s_stdout_size spawn - s_stdout_read sk) 0] /\
       last_err (w_loop w') = last_err (w_loop wk)) /\
    (forall rd wr,
       i_select e = SelReady rd wr ->
       nonnull (s_stderr_buf spawn) = true ->
       fst (l_stderr_pipe l) ∈ rd ->
       s_stderr_read sk < s_stderr_size spawn ->
       i_read_err e = IoOk 0 ->
       snd (l_stdin_pipe l) ∉ wr ->
       fst (l_stdout_pipe l) ∉ rd ->
       fst (w_sigchld_pipe wk) ∉ rd ->
       f = Continue sk /\
       evs = [EvRead (fst (l_stderr_pipe l))
                (ptr_add (s_stderr_buf spawn) (s_stderr_read sk))
                (s_stderr_size spawn - s_stderr_read sk) 0] /\
       last_err (w_loop w') = last_err (w_loop wk)).
Proof.
  intros Hreach Hn.
  destruct (sync_reach_setup _ _ _ _ _ _ _ Hreach)
    as (s1 & w1 & p & Hset & Hfork & Hinv & Hsp).
  destruct (sync_iter_spec _ _ _ e _ _ _ Hinv)
    as (f & w' & r & evs & Hit & Ht & _).
  destruct Hinv as [Hin Hout Herr _ Hosz Hesz _ _ _ _ _ _ _ _ _ _].
  exists f, w', (Z.quot (time_to_timeout sk l wk) 1000),
    (Z.rem (time_to_timeout sk l wk) 1000), r, evs.
  split; [done|]. split.
  { rewrite Ht. unfold select_event. do 3 f_equal.
    - unfold sync_read_fds. rewrite Hout, Herr.
      destruct (nonnull (s_stdout_buf spawn)),
        (nonnull (s_stderr_buf spawn)); set_solver.
    - unfold sync_write_fds. rewrite Hin.
      destruct (nonnull (s_stdin_buf spawn)); set_solver. }
  split.
  { intros m sm lm wm Hm.
    destruct (sync_reach_setup _ _ _ _ _ _ _ Hm)
      as (s1' & w1' & p' & Hset' & _ & _ & Hsp').
    rewrite Hset in Hset'. injection Hset' as _ <- <-.
    split; [done|]. by rewrite Hsp, Hsp'. }
  split.
  - intros rd wr Hsel Hbuf Hready Hroom Hread Hnw Hne Hns.
    rewrite <- Hout, <- Hosz. rewrite <- Hout in Hbuf.
    rewrite <- Hosz in Hroom.
    destruct (sync_iter_stdout_eof e sk l wk rd wr Hsel Hbuf Hready Hroom
                Hread Hnw Hne Hns) as (w2 & Hit2 & Ht2 & Herr2).
    rewrite Hit in Hit2. injection Hit2 as -> ->.
    split; [done|]. split; [|done].
    rewrite Ht in Ht2. apply app_inv_head in Ht2. by injection Ht2.
  - intros rd wr Hsel Hbuf Hready Hroom Hread Hnw Hno Hns.
    rewrite <- Herr, <- Hesz. rewrite <- Herr in Hbuf.
    rewrite <- Hesz in Hroom.
    destruct (sync_iter_stderr_eof e sk l wk rd wr Hsel Hbuf Hready Hroom
                Hread Hnw Hno Hns) as (w2 & Hit2 & Ht2 & Herr2).
    rewrite Hit in Hit2. injection Hit2 as -> ->.
    split; [done|]. split; [|done].
    rewrite Ht in Ht2. apply app_inv_head in Ht2. by injection Ht2.
Qed.

Lemma sync_wait_set_fixed_witness :
  exists s0 l w0 w1 s1 w1' w2 tv_sec tv_usec r evs,
    sync_reach env_eof spawn_cat world0 0 = Some (s0, l, w0) /\
    sync_iter
      (IterEnv (SelReady {[5]} ∅) (IoOk 0) (IoOk 0) (IoOk 0)
         (WaitErr ECHILD) 1) s0 l w0
    = Done (Continue s0) w1 /\
    last (w_trace w1) = Some (EvRead 5 2000 16 0) /\
    sync_reach env_eof spawn_cat world0 1 = Some (s1, l, w1') /\
    w_trace w2
    = w_trace w1'
      ++ EvSelect 8 ({[7]} ∪ {[5]} ∪ ∅) {[4]} tv_sec tv_usec r :: evs.
Proof.
  assert (exists s0 l w0,
            sync_reach env_eof spawn_cat world0 0 = Some (s0, l, w0))
    as (s0 & l & w0 & Hr0) by (eexists _, _, _; vm_compute; reflexivity).
  destruct (sync_wait_set_fixed env_eof spawn_cat world0 0 s0 l w0 _
              Hr0 eq_refl)
    as (f & w1 & ts & tu & r & evs & Hit & Ht & _ & Hzero & _).
  assert (exists s1 w1',
            sync_reach env_eof spawn_cat world0 1 = Some (s1, l, w1'))
    as (s1 & w1' & Hr1).
  { vm_compute in Hr0. injection Hr0 as <- <- <-.
    eexists _, _; vm_compute; reflexivity. }
  destruct (sync_wait_set_fixed env_eof spawn_cat world0 1 s1 l w1' _
              Hr1 eq_refl)
    as (f' & w2 & ts' & tu' & r' & evs' & _ & Ht' & _).
  exists s0, l, w0, w1, s1, w1', w2, ts', tu', r', evs'.
  vm_compute in Hr0. injection Hr0 as <- <- <-.
  pose proof Hr1 as Hc. vm_compute in Hc. injection Hc as <- <-.
  destruct (Hzero {[5]} ∅) as (-> & -> & _).
  - reflexivity.
  - reflexivity.
  - apply elem_of_singleton_2. reflexivity.
  - reflexivity.
  - reflexivity.
  - apply not_elem_of_empty.
  - apply not_elem_of_singleton_2. discriminate.
  - apply not_elem_of_singleton_2. discriminate.
  - split; [reflexivity|]. split; [exact Hit|].
    split; [rewrite Ht; reflexivity|].
    split; [exact Hr1|]. exact Ht'.
Defined.


(** ** Decoding the wait status *)

(** The loop of [uv_spawn_sync], when it comes back, has left through one
    of the exits of some pass that started with the invariant. *)
Lemma sync_loop_spec (w0 : world) (spawn0 : uv_spawn_sync_t) (child : Z)
    (l : sync_locals) (its : list iter_env) :
  forall (s : uv_spawn_sync_t) (w : world) (rs : Z * uv_spawn_sync_t)
         (w' : world),
  sync_inv w0 spawn0 child s l w ->
  sync_loop its s l w = Done rs w' ->
  exists sk wk r evs,
    sync_inv w0 spawn0 child sk l wk /\
    w_fds w' = w_fds w0 /\
    w_trace w' = w_trace wk ++ select_event sk l wk r :: evs /\
    pass_exit sk l wk w' r (fst rs) (snd rs) evs.
Proof.
  induction its as [|e its IH]; intros s w rs w' Hinv Hloop; [done|].
  cbn in Hloop.
  destruct (sync_iter_spec _ _ _ e _ _ _ Hinv)
    as (f & w1 & r & evs & Hit & Ht & Hf).
  rewrite (bind_done _ _ _ _ _ Hit) in Hloop.
  destruct f as [s1|ret s1].
  - destruct Hf as (Hinv1 & _). by apply (IH _ _ _ _ Hinv1 Hloop).
  - injection Hloop as <- <-. destruct Hf as (Hfd & Hexit).
    by exists s, w, r, evs.
Qed.

Lemma uv__chld_eq (process : uv_process_t) (revents : Z) (w : world)
    (cb : uv_exit_cb) :
  Z.land revents EV_CHILD <> 0 ->
  p_exit_cb process = Some cb ->
  let status := cw_rstatus (p_child_watcher process) in
  uv__chld process revents w
  = Done (Process (p_pid process) (Some cb)
            (Watcher false (cw_pid (p_child_watcher process)) status))
      (log (EvExitCb cb
              (if WIFEXITED status then WEXITSTATUS status else 0)
              (if WIFSIGNALED status then WTERMSIG status else 0))
         (log EvChildStop w)).
Proof.
  intros Hev Hcb. unfold uv__chld. cbn.
  destruct (Z.land revents EV_CHILD =? 0) eqn:Hz;
    [apply Z.eqb_eq in Hz; done|].
  cbn. by rewrite Hcb.
Qed.

(** C1, as stated, fails for the sync engine: the child exits normally
    (wait status 0), and the termination signal in the result is -1, the
    value it was given at the start of the call, not zero. *)
Lemma sync_exit_signal_defaults_to_minus_one :
  exists spawn' w',
    uv_spawn_sync env_exit spawn_cat world0 = Done (0, spawn') w' /\
    WIFSIGNALED 0 = false /\
    s_exit_code spawn' = 0 /\
    s_exit_signal spawn' = -1 /\ s_exit_signal spawn' <> 0.
Proof.
  eexists _, _. split; [vm_compute; reflexivity|]. by cbn.
Qed.

(** A call of [uv_spawn_sync] that comes back has either returned from
    the set-up, or gone through the set-up and come back from the loop. *)
Lemma uv_spawn_sync_done (env : sync_env) (spawn : uv_spawn_sync_t)
    (w w' : world) (rs : Z * uv_spawn_sync_t) :
  uv_spawn_sync env spawn w = Done rs w' ->
  sync_setup env spawn w = Done (inl rs) w' \/
  exists s l w1,
    sync_setup env spawn w = Done (inr (s, l)) w1 /\
    sync_loop (y_iters env) s l w1 = Done rs w'.
Proof.
  unfold uv_spawn_sync, bind.
  destruct (sync_setup env spawn w) as [[rs0|[s1 l]] w1| |]; intros H.
  - left. unfold ret in H. injection H as -> ->. reflexivity.
  - right. exists s1, l, w1. split; [reflexivity|exact H].
  - discriminate H.
  - discriminate H.
Qed.

(** A call of [uv_spawn_sync] that comes back left the loop through one
    of the exits of a pass that started with the invariant, unless the
    set-up itself returned -1. *)
Lemma uv_spawn_sync_exit (env : sync_env) (spawn : uv_spawn_sync_t)
    (w w' : world) (r : Z) (spawn' : uv_spawn_sync_t) :
  uv_spawn_sync env spawn w = Done (r, spawn') w' ->
  (r = -1 /\ sync_setup env spawn w = Done (inl (r, spawn')) w') \/
  exists p sk l wk sel_r evs,
    y_fork env = ForkOk p /\
    sync_inv w spawn (Z.pos p) sk l wk /\
    w_fds w' = w_fds w /\
    w_trace w' = w_trace wk ++ select_event sk l wk sel_r :: evs /\
    pass_exit sk l wk w' sel_r r spawn' evs.
Proof.
  intros Hcall.
  destruct (uv_spawn_sync_done _ _ _ _ _ Hcall)
    as [Hset|(s1 & l & w1 & Hset & Hloop)].
  - left. split; [|exact Hset].
    exact (sync_setup_early _ _ _ _ _ Hset).
  - right.
    destruct (sync_setup_inv _ _ _ _ _ _ Hset) as (p & Hfork & Hinv & _).
    destruct (sync_loop_spec _ _ _ _ _ _ _ _ _ Hinv Hloop)
      as (sk & wk & sel_r & evs & Hinvk & Hfds & Ht & Hexit).
    exists p, sk, l, wk, sel_r, evs.
    split; [exact Hfork|]. split; [exact Hinvk|].
    split; [exact Hfds|]. split; [exact Ht|exact Hexit].
Qed.

Lemma decode_status_fields (status : Z) (s : uv_spawn_sync_t) (a b c : Z) :
  s_exit_code s = -1 -> s_exit_signal s = -1 ->
  let s' := decode_status status
              (set_stderr_read c (set_stdout_read b (set_stdin_written a s)))
  in
  s_exit_code s' = (if WIFEXITED status then WEXITSTATUS status else -1) /\
  s_exit_signal s' = (if WIFSIGNALED status then WTERMSIG status else -1).
Proof.
  destruct s. cbn. intros -> ->. unfold decode_status.
  destruct (WIFEXITED status), (WIFSIGNALED status); split; reflexivity.
Qed.

(** C1 (amended): the exit code is set only if the child exited normally
    and the termination signal only if it was killed by a signal.  In the
    async engine ([uv__chld]) each of the two values handed to the callback
    is zero when its condition does not hold; in the sync engine
    ([uv_spawn_sync], when it returns 0 without a timeout) each of the two
    fields of the result is -1 when its condition does not hold. *)
Theorem wait_status_decoded (process : uv_process_t) (revents : Z)
    (w : world) (cb : uv_exit_cb)
    (env : sync_env) (spawn spawn' : uv_spawn_sync_t) (ws ws' : world) :
  Z.land revents EV_CHILD <> 0 ->
  p_exit_cb process = Some cb ->
  uv_spawn_sync env spawn ws = Done (0, spawn') ws' ->
  s_exit_timeout spawn' = 0 ->
  (exists process' w',
     uv__chld process revents w = Done process' w' /\
     let status := cw_rstatus (p_child_watcher process) in
     w_trace w'
     = w_trace w
       ++ [EvChildStop;
           EvExitCb cb (if WIFEXITED status then WEXITSTATUS status else 0)
                       (if WIFSIGNALED status then WTERMSIG status else 0)])
  /\
  (exists p status pre post,
     w_trace ws' = pre ++ EvWait (Z.pos p) status :: post /\
     s_exit_code spawn'
     = (if WIFEXITED status then WEXITSTATUS status else -1) /\
     s_exit_signal spawn'
     = (if WIFSIGNALED status then WTERMSIG status else -1)).
Proof.
  intros Hev Hcb Hcall Hto. split.
  - eexists _, _. split; [by apply uv__chld_eq|].
    cbn. rewrite <- app_assoc. reflexivity.
  - destruct (uv_spawn_sync_exit _ _ _ _ _ _ Hcall)
      as [(Hbad & _)|(p & sk & l & wk & r & evs & _ & Hinvk & _ & Ht & Hexit)];
      [discriminate Hbad|].
    pose proof (inv_exit_code _ _ _ _ _ _ Hinvk) as Hcode.
    pose proof (inv_exit_signal _ _ _ _ _ _ Hinvk) as Hsig.
    clear Hinvk Hcall.
    destruct Hexit as [Hx|[Hx|Hx]].
    + destruct Hx as (_ & _ & Hs & _). rewrite Hs in Hto. discriminate Hto.
    + destruct Hx as (_ & pc & status & s'' & evs1 & Hcur & Hs & Hevs & _).
      exists pc, status, (w_trace wk ++ select_event sk l wk r :: evs1),
        (closes (held_fds sk l (w_sigchld_pipe wk))).
      split.
      { rewrite Ht, Hevs, <- app_assoc. reflexivity. }
      destruct Hcur as (a & b & c & Hs'' & _).
      rewrite Hs, Hs''. exact (decode_status_fields status sk a b c Hcode Hsig).
    + destruct Hx as (Hbad & _). discriminate Hbad.
Qed.

Lemma wait_status_decoded_witness :
  exists w' spawn' ws',
    w_trace w'
    = [EvChildStop; EvExitCb 7%nat 0 9] /\
    uv_spawn_sync env_exit spawn_cat world0 = Done (0, spawn') ws' /\
    s_exit_code spawn' = 0 /\ s_exit_signal spawn' = -1.
Proof.
  edestruct (wait_status_decoded process_killed EV_CHILD world0 7%nat
               env_exit spawn_cat)
    with (ws := world0)
    as ((process' & w' & _ & Hcb) & (p & status & pre & post & _ & _ & _));
    [discriminate | reflexivity | vm_compute; reflexivity | reflexivity |].
  eexists w', _, _. split; [exact Hcb|].
  split; [vm_compute; reflexivity|]. split; reflexivity.
Defined.



(** ** The stdin feed *)

Lemma sync_feed_eq (o : io_res) (spawn : uv_spawn_sync_t) (l : sync_locals)
    (write_fds : gset Z) (w : world) :
  nonnull (s_stdin_buf spawn) = true ->
  snd (l_stdin_pipe l) ∈ write_fds ->
  s_stdin_written spawn < s_stdin_size spawn ->
  sync_feed o spawn l write_fds w
  = bind (sys_write o (snd (l_stdin_pipe l))
            (ptr_add (s_stdin_buf spawn) (s_stdin_written spawn))
            (s_stdin_size spawn - s_stdin_written spawn))
      (fun written =>
         errno <- get w_errno ;;
         if (written =? -1) && negb (errno =? EINTR)
         then uv_err_new errno ;; ret None
         else ret (Some (set_stdin_written
                           (s_stdin_written spawn + written) spawn))) w.
Proof.
  intros Hbuf Hfd Hlt. unfold sync_feed.
  rewrite Hbuf, bool_decide_true by exact Hfd.
  destruct (s_stdin_written spawn <? s_stdin_size spawn) eqn:Hc;
    [reflexivity|].
  apply Z.ltb_ge in Hc. lia.
Qed.

(** C3: the code departs from the claim on an interrupted write.  Whenever
    the stdin pipe is writable and unsent input remains, the stdin block of
    the pass issues exactly one [write]; when that [write] is interrupted
    (it returns -1 with errno EINTR) the call is not aborted, but the send
    cursor does not stay where it was: the -1 is added to it. *)
Theorem sync_feed_interrupted_moves_cursor (spawn : uv_spawn_sync_t)
    (l : sync_locals) (write_fds : gset Z) (w : world) :
  nonnull (s_stdin_buf spawn) = true ->
  snd (l_stdin_pipe l) ∈ write_fds ->
  s_stdin_written spawn < s_stdin_size spawn ->
  exists spawn' w',
    sync_feed (IoErr EINTR) spawn l write_fds w = Done (Some spawn') w' /\
    w_trace w'
    = w_trace w
      ++ [EvWrite (snd (l_stdin_pipe l))
            (ptr_add (s_stdin_buf spawn) (s_stdin_written spawn))
            (s_stdin_size spawn - s_stdin_written spawn) (-1)] /\
    s_stdin_written spawn' = s_stdin_written spawn - 1 /\
    s_stdin_written spawn' <> s_stdin_written spawn.
Proof.
  intros Hbuf Hfd Hlt. rewrite (sync_feed_eq _ _ _ _ _ Hbuf Hfd Hlt).
  destruct w as [fds0 procs0 pgrp0 errno0 environ0 loop0 sp0 h0 tr0].
  destruct spawn. cbn.
  eexists _, _. split; [reflexivity|]. cbn.
  split; [reflexivity|]. split; lia.
Qed.

Lemma sync_feed_interrupted_moves_cursor_witness :
  exists spawn' w',
    sync_feed (IoErr EINTR) spawn_cat (Locals (3, 4) (5, 6) (-1, -1) 9 0)
      {[4]} world0
    = Done (Some spawn') w' /\
    s_stdin_written spawn' = -1.
Proof.
  edestruct (sync_feed_interrupted_moves_cursor spawn_cat
               (Locals (3, 4) (5, 6) (-1, -1) 9 0) {[4]} world0)
    as (spawn' & w' & Hrun & _ & Hcur & _);
    [reflexivity | cbn; set_solver | cbn; lia |].
  exists spawn', w'. split; [exact Hrun | exact Hcur].
Defined.


(** What the interrupted write does to a whole call: the cursor is at -1
    when the second pass starts, so the second [write] is handed the
    address one byte before the caller's buffer (which is at 1000) and a
    count one above the size of the input (which is 5). *)
Lemma interrupted_write_resends_from_before_buffer :
  exists spawn' w',
    uv_spawn_sync env_eintr spawn_cat world0 = Done (0, spawn') w' /\
    s_stdin_buf spawn_cat = Some 1000 /\ s_stdin_size spawn_cat = 5 /\
    In (EvWrite 4 1000 5 (-1)) (w_trace w') /\
    In (EvWrite 4 999 6 6) (w_trace w').
Proof.
  eexists _, _. split; [vm_compute; reflexivity|].
  split; [reflexivity|]. split; [reflexivity|].
  split; cbn; tauto.
Qed.

(** ** Early returns of the sync engine *)

(** C2: the code departs from the claim in the sync engine.  When every
    [pipe] works and [fork] fails, [uv_spawn_sync] records the error and
    returns -1 at once: it calls [close] not even once, and the two ends of
    the self-pipe, which it opened in this call, are still open when it
    returns (as is every capture pipe it opened). *)
Theorem uv_spawn_sync_fork_failure_leaks (env : sync_env)
    (spawn : uv_spawn_sync_t) (w : world) (e : Z) :
  y_pipe_stdin env = SysOk -> y_pipe_stdout env = SysOk ->
  y_pipe_stderr env = SysOk -> y_pipe_sigchld env = SysOk ->
  y_fork env = ForkErr e ->
  exists spawn' w' a b evs,
    uv_spawn_sync env spawn w = Done (-1, spawn') w' /\
    last_err (w_loop w') = SysError e /\
    w_procs w' = w_procs w /\
    w_sigchld_pipe w' = (a, b) /\ a <> b /\
    (a ∉ w_fds w) /\ (b ∉ w_fds w) /\ (a ∈ w_fds w') /\ (b ∈ w_fds w') /\
    w_fds w ⊆ w_fds w' /\
    w_trace w' = w_trace w ++ evs /\ Forall (fun ev => ~ is_close ev) evs.
Proof.
  intros H1 H2 H3 H4 H5.
  destruct w as [fds0 procs0 pgrp0 errno0 environ0 loop0 sp0 h0 tr0].
  unfold uv_spawn_sync, sync_setup, sync_pipe.
  rewrite H1, H2, H3, H4, H5. cbn.
  destruct (nonnull (s_stdin_buf spawn)),
           (nonnull (s_stdout_buf spawn)),
           (nonnull (s_stderr_buf spawn)).
  all: repeat run_step.
  all: unfold ret.
  all: eexists _, _, _, _, _; split; [reflexivity|]; cbn.
  all: split; [reflexivity|]; split; [reflexivity|]; split; [reflexivity|].
  all: split; [set_solver|].
  all: split; [set_solver|]; split; [set_solver|].
  all: split; [set_solver|]; split; [set_solver|]; split; [set_solver|].
  all: split; [rewrite <- ?app_assoc; reflexivity|].
  all: repeat constructor; cbn; tauto.
Qed.

Lemma uv_spawn_sync_fork_failure_leaks_witness :
  exists spawn' w' a b,
    uv_spawn_sync env_fork_fails spawn_cat world0 = Done (-1, spawn') w' /\
    (a ∈ w_fds w') /\ (b ∈ w_fds w') /\ (a ∉ w_fds world0) /\ (b ∉ w_fds world0).
Proof.
  edestruct (uv_spawn_sync_fork_failure_leaks env_fork_fails spawn_cat
               world0 11)
    as (spawn' & w' & a & b & evs & Hrun & _ & _ & _ & _ & Ha & Hb & Ha'
        & Hb' & _); [reflexivity..|].
  exists spawn', w', a, b. repeat split; assumption.
Defined.



(** ** The combine flag *)

Lemma omap_bind {A A' B B'} (h : A -> A') (g : B -> B')
    (m : M A) (m' : M A') (k : A -> M B) (k' : A' -> M B') (w : world) :
  m' w = omap h (m w) ->
  (forall a w1, k' (h a) w1 = omap g (k a w1)) ->
  bind m' k' w = omap g (bind m k w).
Proof.
  intros Hm Hk. unfold bind. rewrite Hm.
  destruct (m w); cbn; [apply Hk|reflexivity|reflexivity].
Qed.

Lemma omap_bind_same {A B B'} (g : B -> B')
    (m : M A) (k : A -> M B) (k' : A -> M B') (w : world) :
  (forall a w1, k' a w1 = omap g (k a w1)) ->
  bind m k' w = omap g (bind m k w).
Proof.
  intros Hk. unfold bind. destruct (m w); cbn; [apply Hk|reflexivity..].
Qed.

Lemma sync_error_combine (c : Z) (s : uv_spawn_sync_t) (l : sync_locals)
    (w : world) :
  sync_error (set_combine c s) l w
  = omap (result_map (set_combine c)) (sync_error s l w).
Proof.
  unfold sync_error.
  apply omap_bind_same; intros _ w1.
  apply omap_bind_same; intros _ w2. reflexivity.
Qed.

Lemma sync_error_return_combine (c : Z) (s : uv_spawn_sync_t)
    (l : sync_locals) (w : world) :
  bind (sync_error (set_combine c s) l)
    (fun rs => ret (Return (fst rs) (snd rs))) w
  = omap (flow_map (set_combine c))
      (bind (sync_error s l) (fun rs => ret (Return (fst rs) (snd rs))) w).
Proof.
  eapply omap_bind; [apply sync_error_combine|]. reflexivity.
Qed.

Lemma sync_feed_combine (c : Z) (o : io_res) (s : uv_spawn_sync_t)
    (l : sync_locals) (write_fds : gset Z) (w : world) :
  sync_feed o (set_combine c s) l write_fds w
  = omap (option_map (set_combine c)) (sync_feed o s l write_fds w).
Proof.
  unfold sync_feed. cbn [set_combine s_stdin_buf s_stdin_written s_stdin_size].
  destruct (nonnull (s_stdin_buf s)
            && bool_decide (snd (l_stdin_pipe l) ∈ write_fds)
            && (s_stdin_written s <? s_stdin_size s)); [|reflexivity].
  apply omap_bind_same; intros written w1.
  apply omap_bind_same; intros errno w2.
  destruct ((written =? -1) && negb (errno =? EINTR)); reflexivity.
Qed.

Lemma sync_reap_combine (c : Z) (e : iter_env) (s : uv_spawn_sync_t)
    (l : sync_locals) (read_fds : gset Z) (w : world) :
  sync_reap e (set_combine c s) l read_fds w
  = omap (flow_map (set_combine c)) (sync_reap e s l read_fds w).
Proof.
  unfold sync_reap.
  apply omap_bind_same; intros sp w1.
  destruct (bool_decide (fst sp ∈ read_fds)).
  - apply omap_bind_same; intros ps w2.
    destruct (fst ps <? 0).
    + apply omap_bind_same; intros errno w3.
      apply omap_bind_same; intros _ w4.
      apply sync_error_return_combine.
    + apply omap_bind_same; intros _ w3.
      destruct (WIFEXITED (snd ps)), (WIFSIGNALED (snd ps)); reflexivity.
  - apply omap_bind_same; intros _ w2. reflexivity.
Qed.

Lemma sync_iter_combine (c : Z) (e : iter_env) (s : uv_spawn_sync_t)
    (l : sync_locals) (w : world) :
  sync_iter e (set_combine c s) l w
  = omap (flow_map (set_combine c)) (sync_iter e s l w).
Proof.
  unfold sync_iter.
  apply omap_bind_same; intros sp w1.
  apply omap_bind_same; intros now w2.
  apply omap_bind_same; intros sel w3.
  destruct (fst sel =? -1).
  { apply omap_bind_same; intros errno w4.
    destruct (errno =? EINTR); [reflexivity|].
    apply omap_bind_same; intros _ w5. apply sync_error_return_combine. }
  destruct (fst sel =? 0).
  { apply omap_bind_same; intros _ w4.
    apply omap_bind_same; intros _ w5. reflexivity. }
  eapply omap_bind; [apply sync_feed_combine|]. intros [s1|] w4; cbn;
    [|apply sync_error_return_combine].
  apply omap_bind_same; intros [n|] w5; [|apply sync_error_return_combine].
  apply omap_bind_same; intros [n'|] w6;
    [|exact (sync_error_return_combine c (set_stdout_read n s1) l w6)].
  apply (sync_reap_combine c e
           (set_stderr_read n' (set_stdout_read n s1)) l _ w6).
Qed.

Lemma sync_loop_combine (c : Z) (l : sync_locals) (its : list iter_env) :
  forall (s : uv_spawn_sync_t) (w : world),
  sync_loop its (set_combine c s) l w
  = omap (result_map (set_combine c)) (sync_loop its s l w).
Proof.
  induction its as [|e its IH]; intros s w; [reflexivity|].
  cbn [sync_loop].
  eapply omap_bind; [apply sync_iter_combine|].
  intros [s1|r s1] w1; cbn; [apply IH|reflexivity].
Qed.

Lemma sync_setup_combine (c : Z) (env : sync_env) (s : uv_spawn_sync_t)
    (w : world) :
  sync_setup env (set_combine c s) w
  = omap (setup_map (set_combine c)) (sync_setup env s w).
Proof.
  unfold sync_setup.
  apply omap_bind_same; intros [p1|] w1; [|reflexivity].
  apply omap_bind_same; intros [p2|] w2; [|reflexivity].
  apply omap_bind_same; intros [p3|] w3; [|reflexivity].
  apply omap_bind_same; intros sp w4.
  apply omap_bind_same; intros rp w5.
  apply omap_bind_same; intros _ w6.
  destruct (negb (fst rp =? 0)).
  { apply omap_bind_same; intros errno w7.
    apply omap_bind_same; intros _ w8. reflexivity. }
  apply omap_bind_same; intros pid w7.
  destruct (pid =? -1).
  { apply omap_bind_same; intros errno w8.
    apply omap_bind_same; intros _ w9. reflexivity. }
  apply omap_bind_same; intros sp' w8.
  apply omap_bind_same; intros nfds1 w9.
  apply omap_bind_same; intros nfds2 w10.
  apply omap_bind_same; intros nfds3 w11.
  apply omap_bind_same; intros start w12.
  apply omap_bind_same; intros r w13.
  destruct (negb (r =? 0)); [|reflexivity].
  apply omap_bind_same; intros errno w14.
  apply omap_bind_same; intros _ w15.
  eapply omap_bind with (h := result_map (set_combine c)); [|reflexivity].
  exact (sync_error_combine c
           (set_pid pid
              (set_stderr_read 0
                 (set_stdout_read 0
                    (set_exit_timeout 0
                       (set_exit_signal (-1)
                          (set_exit_code (-1) (set_pid (-1) s)))))))
           _ w15).
Qed.

(** The parent's side of [uv_spawn_sync] never looks at the combine flag:
    whatever its value, the call does the same and returns the same, with
    the flag carried along in the record. *)
Lemma uv_spawn_sync_combine (c : Z) (env : sync_env) (s : uv_spawn_sync_t)
    (w : world) :
  uv_spawn_sync env (set_combine c s) w
  = on_result (set_combine c) (uv_spawn_sync env s w).
Proof.
  transitivity (omap (result_map (set_combine c)) (uv_spawn_sync env s w));
    [|by destruct (uv_spawn_sync env s w)].
  unfold uv_spawn_sync.
  eapply omap_bind; [apply sync_setup_combine|].
  intros [rs|[s1 l]] w1; cbn; [reflexivity|apply sync_loop_combine].
Qed.



(** C10, as stated, fails: the combine flag is set and there is no stdout
    buffer, but there is a stderr buffer, and the child does redirect its
    stderr, into the stderr capture pipe (whose write end is 6). *)
Lemma combine_without_stdout_redirects_stderr :
  s_combine spawn_combine_stderr = 1 /\
  s_stdout_buf spawn_combine_stderr = None /\
  uv_spawn_sync_child spawn_combine_stderr (-1, -1) (-1, -1) (5, 6) true
  = [ChClose 5; ChDup2 6 STDERR_FILENO; ChExecvp "sh" []].
Proof. repeat split. Qed.

(** C10 (amended): in the sync engine the combine flag has no effect at all
    when no stdout buffer is supplied.  The child then does what it does
    with the flag clear: its stderr is redirected exactly if a stderr
    buffer is supplied, and then into the stderr capture pipe; otherwise it
    stays inherited.  The child's assertion is not reached, so in this case
    nothing rejects the flag together with a stderr buffer; and the
    parent's side does not look at the flag, so the call reports no error
    on its account. *)
Theorem combine_ignored_without_stdout_buf (spawn : uv_spawn_sync_t)
    (stdin_pipe stdout_pipe stderr_pipe : Z * Z) (exec_ok : bool)
    (env : sync_env) (w : world) :
  s_combine spawn <> 0 ->
  nonnull (s_stdout_buf spawn) = false ->
  let child :=
    uv_spawn_sync_child spawn stdin_pipe stdout_pipe stderr_pipe exec_ok in
  child = uv_spawn_sync_child (set_combine 0 spawn)
            stdin_pipe stdout_pipe stderr_pipe exec_ok /\
  (forall fd, In (ChDup2 fd STDERR_FILENO) child <->
              nonnull (s_stderr_buf spawn) = true /\ fd = snd stderr_pipe) /\
  ~ In ChAssertFailed child /\
  uv_spawn_sync env spawn w
  = on_result (set_combine (s_combine spawn))
      (uv_spawn_sync env (set_combine 0 spawn) w).
Proof.
  intros Hc Hout child. subst child.
  split; [|split; [|split]].
  - unfold uv_spawn_sync_child.
    cbn [set_combine s_stdin_buf s_stdout_buf s_stderr_buf s_file s_args
         s_combine].
    rewrite Hout. reflexivity.
  - intros fd. unfold uv_spawn_sync_child. rewrite Hout.
    destruct (nonnull (s_stdin_buf spawn)), (nonnull (s_stderr_buf spawn)),
      exec_ok; cbn; split; intros H;
      repeat match goal with
             | H : _ \/ _ |- _ => destruct H
             | H : _ /\ _ |- _ => destruct H
             | H : False |- _ => destruct H
             | H : _ = _ |- _ => first [discriminate H | injection H as <-]
             end;
      try (split; reflexivity); subst; tauto.
  - unfold uv_spawn_sync_child. rewrite Hout.
    destruct (nonnull (s_stdin_buf spawn)), (nonnull (s_stderr_buf spawn)),
      exec_ok; cbn; intros H;
      repeat match goal with
             | H : _ \/ _ |- _ => destruct H
             | H : False |- _ => destruct H
             | H : _ = _ |- _ => discriminate H
             end.
  - rewrite <- uv_spawn_sync_combine. by destruct spawn.
Qed.

Lemma combine_ignored_without_stdout_buf_witness :
  In (ChDup2 6 STDERR_FILENO)
     (uv_spawn_sync_child spawn_combine_stderr (-1, -1) (-1, -1) (5, 6) true)
  /\ uv_spawn_sync env_timeout spawn_combine_stderr world0
     = on_result (set_combine 1)
         (uv_spawn_sync env_timeout (set_combine 0 spawn_combine_stderr)
            world0).
Proof.
  edestruct (combine_ignored_without_stdout_buf spawn_combine_stderr
               (-1, -1) (-1, -1) (5, 6) true env_timeout world0)
    as (_ & Hdup & _ & Hparent); [discriminate | reflexivity |].
  split; [|exact Hparent].
  apply Hdup. split; reflexivity.
Defined.


(** ** The async engine *)

Lemma spawn_wait_exec_eq (fd : Z) (polls : list poll_res) :
  forall fds procs pgrp errno environ loop sp h tr,
  spawn_wait_exec polls fd (World fds procs pgrp errno environ loop sp h tr)
  = match polls_until polls with
    | None => Stuck
    | Some (pre, last) =>
        Done (poll_result last)
          (World fds procs pgrp (poll_errno last) environ loop sp h
             (tr ++ map (poll_event fd) (pre ++ [last])))
    end.
Proof.
  induction polls as [|o polls IH]; intros; [reflexivity|].
  destruct o as [e|revents]; [|reflexivity].
  cbn [spawn_wait_exec polls_until poll_retry].
  cbv beta iota delta
    [bind modify get sys_poll emit ret log set_errno_w w_fds w_procs w_pgrp
     w_errno w_environ w_loop w_sigchld_pipe w_sigchld_handler w_trace
     fst snd].
  replace (-1 =? -1) with true by reflexivity. cbn [andb].
  destruct ((e =? EINTR) || (e =? ENOMEM)).
  - rewrite IH. destruct (polls_until polls) as [[pre last]|];
      [|reflexivity].
    cbn [map app]. by rewrite <- app_assoc.
  - reflexivity.
Qed.

Lemma bind_spawn_wait_exec {B} (fd : Z) (polls : list poll_res)
    (k : Z * Z -> M B) fds procs pgrp errno environ loop sp h tr :
  bind (spawn_wait_exec polls fd) k
    (World fds procs pgrp errno environ loop sp h tr)
  = match polls_until polls with
    | None => Stuck
    | Some (pre, last) =>
        k (poll_result last)
          (World fds procs pgrp (poll_errno last) environ loop sp h
             (tr ++ map (poll_event fd) (pre ++ [last])))
    end.
Proof.
  unfold bind at 1. rewrite spawn_wait_exec_eq.
  by destruct (polls_until polls) as [[pre last]|].
Qed.

Arguments spawn_wait_exec : simpl never.


Lemma bind_crash {A B} (k : A -> M B) (w : world) :
  bind crash k w = Crash w.
Proof. reflexivity. Qed.

Lemma bind_sys_fork_ok {B} (p : positive) (k : Z -> M B) (w : world) :
  bind (sys_fork (ForkOk p)) k w
  = k (Z.pos p) (log (EvFork (Z.pos p)) (set_procs ({[Z.pos p]} ∪ w_procs w) w)).
Proof. reflexivity. Qed.

Lemma bind_sys_fork_err {B} (e : Z) (k : Z -> M B) (w : world) :
  bind (sys_fork (ForkErr e)) k w
  = k (-1) (log (EvFork (-1)) (set_errno_w e w)).
Proof. reflexivity. Qed.

(** Takes a fact [x ∉ {[a]} ∪ ({[b]} ∪ s)] apart into [x <> a], [x <> b]
    and [x ∉ s]. *)
Ltac split_notin H :=
  lazymatch type of H with
  | _ ∉ _ ∪ _ =>
      let H1 := fresh "Hnew" in
      let H2 := fresh "Hnew" in
      apply not_elem_of_union in H; destruct H as [H1 H2];
      split_notin H1; split_notin H2
  | _ ∉ {[ _ ]} => apply not_elem_of_singleton_1 in H
  | _ => idtac
  end.

Ltac differ :=
  lazymatch goal with
  | |- ?x <> ?y =>
      match goal with
      | H : x <> y |- _ => exact H
      | H : y <> x |- _ => exact (not_eq_sym H)
      end
  end.

(** Membership in a descriptor table written with unions and differences
    of singletons, and its negation. *)
Ltac in_set :=
  lazymatch goal with
  | |- ?x ∈ {[ ?y ]} => constr_eq x y; apply elem_of_singleton_2; reflexivity
  | |- _ ∈ _ ∪ _ =>
      first [ apply elem_of_union_l; in_set | apply elem_of_union_r; in_set ]
  | |- _ ∈ _ ∖ {[ _ ]} =>
      apply elem_of_difference; split;
      [ in_set | apply not_elem_of_singleton_2; differ ]
  | |- ?x ∈ ?s => match goal with H : x ∈ s |- _ => exact H end
  end.

Ltac not_in_set :=
  lazymatch goal with
  | |- _ ∉ {[ _ ]} => apply not_elem_of_singleton_2; differ
  | |- _ ∉ _ ∪ _ => apply not_elem_of_union; split; not_in_set
  | |- _ ∉ _ ∖ _ =>
      apply not_elem_of_difference;
      first [ right; in_set | left; not_in_set ]
  | |- ?x ∉ ?s => match goal with H : x ∉ s |- _ => exact H end
  end.

Lemma difference_union_same (a : Z) (s : gset Z) :
  a ∉ s -> ({[a]} ∪ s) ∖ {[a]} = s.
Proof. set_solver. Qed.

Lemma difference_union_other (a b : Z) (s : gset Z) :
  a <> b -> ({[b]} ∪ s) ∖ {[a]} = {[b]} ∪ (s ∖ {[a]}).
Proof. set_solver. Qed.

Lemma difference_absent (a : Z) (s : gset Z) : a ∉ s -> s ∖ {[a]} = s.
Proof. set_solver. Qed.

(** Takes a closed descriptor out of a descriptor table written as a
    union of singletons. *)
Ltac norm_diff :=
  repeat match goal with
         | |- context [({[?b]} ∪ ?s) ∖ {[?a]}] =>
             first
             [ constr_eq a b;
               rewrite (difference_union_same a s) by not_in_set
             | rewrite (difference_union_other a b s) by differ ]
         | |- context [?s ∖ {[?a]}] =>
             is_var s; rewrite (difference_absent a s) by not_in_set
         end.

(** The term that the run of [t] waits on: the scrutinee at its head. *)
Ltac head_scrut t :=
  lazymatch t with
  | bind _ _ _ => constr:(t)
  | match ?x with _ => _ end => head_scrut x
  | ?f ?a =>
      lazymatch f with
      | match _ with _ => _ end => head_scrut f
      | _ => constr:(t)
      end
  | _ => constr:(t)
  end.

(** Worlds back to the form [World ...], pairs taken apart. *)
Ltac simp_world :=
  cbv beta delta
    [log set_fds set_procs set_errno_w set_environ_w set_loop
     set_sigchld_pipe set_sigchld_handler];
  cbn [w_fds w_procs w_pgrp w_errno w_environ w_loop w_sigchld_pipe
       w_sigchld_handler w_trace last_err counters_process_init loop_time
       p_pid p_exit_cb p_child_watcher cw_active cw_pid cw_rstatus
       poll_result poll_errno fst snd].

(** Settles the test [x]: by computing it, by a fact at hand, or by taking
    both branches. *)
Ltac split_head x :=
  let v := eval cbv in x in
  lazymatch v with
  | true => change x with true
  | false => change x with false
  | _ =>
      first
      [ lazymatch x with
        | context [poll_result ?p] => is_var p; destruct p
        end
      | lazymatch x with
        | (0 <=? ?a) =>
            match goal with
            | H : 0 <= a |- _ => rewrite (proj2 (Z.leb_le 0 a) H)
            end
        end
      | destruct x eqn:? ]
  end.

(** One step of a run at a world, splitting on nothing but what the run
    waits on next. *)
Ltac spawn_step :=
  lazymatch goal with
  | |- ?lhs = _ -> _ =>
      let h := head_scrut lhs in
      lazymatch h with
      | Done _ _ => fail
      | Crash _ => fail
      | Stuck => fail
      | ret _ _ => unfold ret at 1
      | crash _ => unfold crash at 1
      | bind (bind _ _) _ _ => rewrite bind_assoc
      | bind (ret _) _ _ => rewrite bind_ret
      | bind (get _) _ _ => rewrite bind_get
      | bind (modify _) _ _ => rewrite bind_modify
      | bind (emit _) _ _ => rewrite bind_emit
      | bind crash _ _ => rewrite bind_crash
      | bind (sys_pipe (SysErr _) _) _ _ => rewrite bind_sys_pipe_err
      | bind (sys_pipe SysOk ?p) ?k ?w =>
          let a := fresh "rd" in
          let b := fresh "wr" in
          let Hna := fresh "Hfree" in
          let Hnb := fresh "Hfresh" in
          let Ha := fresh "Hrd" in
          let Hb := fresh "Hwr" in
          let Hp := fresh "Hpipe" in
          destruct (bind_sys_pipe_ok p k w)
            as (a & b & Hna & Hnb & Ha & Hb & Hp);
          rewrite Hp; clear Hp;
          cbn [w_fds] in Hna, Hnb;
          split_notin Hna; split_notin Hnb;
          assert (a <> -1) by (clear - Ha; lia);
          assert (b <> -1) by (clear - Hb; lia)
      | bind (sys_pipe ?o _) _ _ => destruct o eqn:?
      | bind (sys_fork (ForkOk _)) _ _ => rewrite bind_sys_fork_ok
      | bind (sys_fork (ForkErr _)) _ _ => rewrite bind_sys_fork_err
      | bind (sys_fork ?o) _ _ => destruct o eqn:?
      | bind (sys_close ?fd) _ _ =>
          rewrite bind_sys_close; unfold close_r, close_w; simp_world;
          first
          [ rewrite !decide_True by in_set; norm_diff
          | rewrite !decide_False by not_in_set ]
      | bind (spawn_wait_exec _ _) _ _ => rewrite bind_spawn_wait_exec
      | bind ?m _ _ => let x := head_scrut m in split_head x
      | ?x => split_head x
      end;
      simp_world
  end.

Lemma done_pair_inv {A B} (a a' : A) (b b' : B) (w w' : world) :
  Done (a, b) w = Done (a', b') w' -> a' = a /\ b' = b /\ w' = w.
Proof. intros H. by injection H as -> -> ->. Qed.

(** Rewrites with what the run has found out about the request and the
    kernel's answers. *)
Ltac use_answers :=
  repeat first
    [ progress cbv beta iota
    | match goal with
      | H : o_stdin_stream _ = _ |- _ => progress rewrite H
      | H : o_stdout_stream _ = _ |- _ => progress rewrite H
      | H : o_stderr_stream _ = _ |- _ => progress rewrite H
      | H : e_pipe_stdin _ = _ |- _ => progress rewrite H
      | H : e_pipe_stdout _ = _ |- _ => progress rewrite H
      | H : e_pipe_stderr _ = _ |- _ => progress rewrite H
      | H : e_pipe_signal _ = _ |- _ => progress rewrite H
      | H : e_fork _ = _ |- _ => progress rewrite H
      | H : decide _ = _ |- _ => progress rewrite H
      end ].

Ltac spawn_error_is :=
  unfold spawn_error, spawn_pre_fork_error, stream_error;
  use_answers; reflexivity.

Ltac all_quiet :=
  repeat (apply List.Forall_cons; [exact (fun H => H)|]);
  apply List.Forall_nil.

Ltac spawn_leaf_failure :=
  split; [reflexivity|];
  split; [reflexivity|];
  split; [reflexivity|];
  split; [reflexivity|];
  split; [reflexivity|];
  split; [eexists; split; [spawn_error_is | reflexivity]|];
  cbn [w_trace]; rewrite <- ?app_assoc;
  eexists; split; [reflexivity|];
  cbn [app]; split;
  [ all_quiet
  | intros Hpre;
    first [ all_quiet
          | exfalso; apply Hpre; unfold spawn_pre_fork_error, stream_error;
            use_answers; reflexivity ] ].

Ltac spawn_leaf_success :=
  split; [reflexivity|];
  split; [spawn_error_is|];
  unfold spawn_done;
  repeat match goal with
         | H : o_stdin_stream _ = _ |- _ => progress rewrite H
         | H : o_stdout_stream _ = _ |- _ => progress rewrite H
         | H : o_stderr_stream _ = _ |- _ => progress rewrite H
         end;
  eexists _, (_, _), (_, _), (_, _), (_, _), _, _;
  split; [eassumption|];
  split; [eassumption|];
  split; [apply Z.eqb_eq; eassumption|];
  split; [reflexivity|];
  split; [reflexivity|];
  split; [reflexivity|];
  cbn [fresh_pipe parent_end pipe_events attach_events fst snd w_fds
       w_trace];
  split; [rewrite <- ?app_assoc; cbn [app]; reflexivity|];
  cbn [fst snd];
  split; [first [exact I | repeat split; assumption]|];
  split; [first [exact I | repeat split; assumption]|];
  split; [first [exact I | repeat split; assumption]|];
  clear; set_solver.

Ltac spawn_run :=
  unfold uv_spawn, spawn_stdio_pipe, uv_spawn_error, spawn_attach, assert,
    uv__close, uv__cloexec, uv__nonblock, uv_err_new, uv__handle_init,
    uv__stream_open;
  repeat spawn_step.

(** Every way in which a call of [uv_spawn] comes back, in a process
    where -1 is not an open descriptor. *)
Lemma uv_spawn_spec (env : spawn_env) (process : uv_process_t)
    (options : uv_process_options_t) (w : world)
    (r : Z) (process' : uv_process_t) (w' : world) :
  -1 ∉ w_fds w ->
  uv_spawn env process options w = Done (r, process') w' ->
  (counters_process_init (w_loop w')
   = counters_process_init (w_loop w) + 1 /\
   loop_time (w_loop w') = loop_time (w_loop w) /\
   w_environ w' = w_environ w /\
   w_pgrp w' = w_pgrp w /\
   p_exit_cb process' = o_exit_cb options) /\
  ((r = -1 /\
    w_fds w' = w_fds w /\
    w_procs w' = w_procs w /\
    p_pid process' = p_pid process /\
    p_child_watcher process' = p_child_watcher process /\
    (exists e, spawn_error env options = Some e /\
               last_err (w_loop w') = SysError e) /\
    exists evs, w_trace w' = w_trace w ++ evs /\
                Forall (fun ev => ~ registers ev) evs /\
                (spawn_pre_fork_error env options <> None ->
                 Forall (fun ev => ~ is_fork ev) evs))
   \/
   (r = 0 /\ spawn_error env options = None /\
    spawn_done env process options w process' w')).
Proof.
  destruct w as [fds0 procs0 pgrp0 errno0 environ0 [err0 count0 time0] sp0
                   h0 tr0].
  cbn [w_fds w_procs w_pgrp w_errno w_environ w_loop w_trace last_err
       counters_process_init loop_time].
  intros Hneg. spawn_run.
  all: lazymatch goal with
       | |- Done _ _ = _ -> _ =>
           intros Heq; apply done_pair_inv in Heq;
           destruct Heq as (-> & -> & ->)
       | |- _ => intros Heq; discriminate Heq
       end.
  all: cbn [w_fds w_procs w_pgrp w_errno w_environ w_loop w_trace last_err
            counters_process_init loop_time p_pid p_exit_cb
            p_child_watcher].
  all: (split; [repeat split; reflexivity|]).
  all: first [left; spawn_leaf_failure | right; spawn_leaf_success].
  Unshelve.
  all: exact (-1).
Qed.

(** A call of [uv_spawn] always comes back, unless [poll] never stops
    being interrupted: with -1 if a step up to [fork] fails; else, once
    [poll] gives an answer that does not make the loop go round again, with 0
    if that answer is a hang-up on the synchronization pipe, and by a failed
    [assert] if it is anything else. *)
Lemma uv_spawn_outcome (env : spawn_env) (process : uv_process_t)
    (options : uv_process_options_t) (w : world)
    (out : outcome (Z * uv_process_t)) :
  -1 ∉ w_fds w ->
  uv_spawn env process options w = out ->
  match spawn_error env options with
  | Some e => exists process' w', out = Done (-1, process') w'
  | None =>
      match polls_until (e_polls env) with
      | None => out = Stuck
      | Some (_, PollErr _) => exists w', out = Crash w'
      | Some (_, PollReady revents) =>
          if Z.land revents POLLHUP =? POLLHUP
          then exists process' w', out = Done (0, process') w'
          else exists w', out = Crash w'
      end
  end.
Proof.
  destruct w as [fds0 procs0 pgrp0 errno0 environ0 [err0 count0 time0] sp0
                   h0 tr0].
  cbn [w_fds]. intros Hneg. spawn_run.
  all: intros <-.
  all: unfold spawn_error, spawn_pre_fork_error, stream_error; use_answers.
  all: eauto.
Qed.



(** ** Requests for the async engine, for examples *)

Lemma polls_until_retries (polls : list poll_res) :
  forall retries last,
  polls_until polls = Some (retries, last) ->
  Forall (fun o => poll_retry o = true) retries /\
  poll_retry last = false /\
  exists rest, polls = retries ++ last :: rest.
Proof.
  induction polls as [|o polls IH]; intros retries last Hp; [done|].
  cbn in Hp. destruct (poll_retry o) eqn:Ho.
  - destruct (polls_until polls) as [[pre l]|] eqn:Hrec; [|done].
    injection Hp as <- <-.
    destruct (IH _ _ eq_refl) as (Hpre & Hl & rest & ->).
    split; [by constructor|]. split; [done|]. by exists rest.
  - injection Hp as <- <-. split; [constructor|]. split; [done|].
    by exists polls.
Qed.










Lemma closes_not_pipe_calls (stream : option uv_stream_t) (p : Z * Z) :
  Forall (fun ev => ~ is_pipe_call ev) (unwind_events stream p).
Proof.
  destruct stream; cbn;
    repeat (apply List.Forall_cons; [exact (fun H => H)|]);
    apply List.Forall_nil.
Qed.




(** C8: when [uv_spawn] returns 0, its calls around the fork came in this
    order: the [pipe] call that made the synchronization pipe, whose record
    [EvPipe 0 rd wr] names the read end [rd] (signal_pipe[0]) and the write
    end [wr] (signal_pipe[1]); [fork]; [close] of the write end [wr];
    [poll] on the read end [rd], again after every answer that was an error
    with EINTR or ENOMEM, up to an answer that reported the hang-up; the
    two [close] calls on the pipe, of which the one on the read end works
    and the one on the write end, closed already, fails; and only then the
    store of the pid into the handle and the [ev_child_init] and
    [ev_child_start] of the child watcher.  Nothing before that point
    stores the pid or touches the watcher, and nothing after it does so
    again. *)
Theorem uv_spawn_registers_after_exec (env : spawn_env)
    (process : uv_process_t) (options : uv_process_options_t) (w : world)
    (process' : uv_process_t) (w' : world) :
  -1 ∉ w_fds w ->
  uv_spawn env process options w = Done (0, process') w' ->
  exists p rd wr retries revents rest pre post,
    e_fork env = ForkOk p /\
    e_polls env = retries ++ PollReady revents :: rest /\
    Forall (fun o => poll_retry o = true) retries /\
    Z.land revents POLLHUP = POLLHUP /\
    w_trace w'
    = w_trace w ++ pre
      ++ [EvPipe 0 rd wr; EvCloexec rd; EvCloexec wr;
          EvNonblock rd; EvNonblock wr;
          EvFork (Z.pos p); EvClose wr 0]
      ++ map (poll_event rd) retries
      ++ [EvPoll rd (Z.lor POLLIN POLLHUP) 1 revents;
          EvClose rd 0; EvClose wr (-1);
          EvStorePid (Z.pos p); EvChildInit (Z.pos p);
          EvChildStart (Z.pos p)]
      ++ post /\
    Forall (fun ev => ~ registers_child ev /\ ~ is_fork ev) pre /\
    Forall (fun ev => ~ registers_child ev /\ ~ is_fork ev) post /\
    p_pid process' = Z.pos p /\
    p_child_watcher process'
    = Watcher true (Z.pos p) (cw_rstatus (p_child_watcher process)).
Proof.
  intros Hneg Hrun.
  destruct (uv_spawn_spec _ _ _ _ _ _ _ Hneg Hrun)
    as (_ & [(Hr & _)|(_ & _ & Hdone)]); [done|].
  destruct Hdone
    as (p & p1 & p2 & p3 & sp & retries & revents & Hfork & Hpolls & Hhup
        & -> & _ & _ & Ht & _).
  destruct (polls_until_retries _ _ _ Hpolls) as (Hretry & _ & rest & Hrest).
  exists p, (fst sp), (snd sp), retries, revents, rest.
  exists ([EvHandleInit UV_PROCESS]
          ++ pipe_events (o_stdin_stream options) p1
          ++ pipe_events (o_stdout_stream options) p2
          ++ pipe_events (o_stderr_stream options) p3).
  exists (attach_events Stdin (o_stdin_stream options)
            (snd p1) (fst p1) UV_WRITABLE
          ++ attach_events Stdout (o_stdout_stream options)
               (fst p2) (snd p2) UV_READABLE
          ++ attach_events Stderr (o_stderr_stream options)
               (fst p3) (snd p3) UV_READABLE).
  split; [done|]. split; [done|]. split; [done|]. split; [done|].
  split.
  { rewrite Ht, map_app. cbn [map poll_event app].
    rewrite <- !app_assoc. cbn [app]. reflexivity. }
  split.
  { unfold pipe_events.
    destruct (o_stdin_stream options), (o_stdout_stream options),
      (o_stderr_stream options); cbn [app];
      repeat (apply List.Forall_cons; [split; exact (fun H => H)|]);
      apply List.Forall_nil. }
  split; [|done].
  unfold attach_events.
  destruct (o_stdin_stream options), (o_stdout_stream options),
    (o_stderr_stream options); cbn [app];
    repeat (apply List.Forall_cons; [split; exact (fun H => H)|]);
    apply List.Forall_nil.
Qed.

Lemma uv_spawn_registers_after_exec_witness :
  exists process' w',
    uv_spawn env_spawn_ok process0 options_pipes world0
    = Done (0, process') w' /\
    p_pid process' = 42 /\
    p_child_watcher process' = Watcher true 42 0.
Proof.
  assert (exists process' w',
            uv_spawn env_spawn_ok process0 options_pipes world0
            = Done (0, process') w') as (process' & w' & Hrun)
    by (eexists _, _; vm_compute; reflexivity).
  edestruct (uv_spawn_registers_after_exec env_spawn_ok process0
               options_pipes world0 process' w')
    as (p & rd & wr & retries & revents & rest & pre & post & Hfork & _ & _
        & _ & _ & _ & _ & Hpid & Hwatch); [vm_compute; set_solver | exact Hrun |].
  exists process', w'. split; [exact Hrun|].
  rewrite Hpid, Hwatch. injection Hfork as <-. split; reflexivity.
Defined.


(** ** More on the async engine *)

Lemma world0_no_minus_one : -1 ∉ w_fds world0.
Proof. vm_compute. set_solver. Qed.

Lemma polls_until_app (retries : list poll_res) (last : poll_res)
    (rest : list poll_res) :
  Forall (fun o => poll_retry o = true) retries ->
  poll_retry last = false ->
  polls_until (retries ++ last :: rest) = Some (retries, last).
Proof.
  intros Hr Hl. induction Hr as [|o retries Ho _ IH]; cbn.
  - by rewrite Hl.
  - by rewrite Ho, IH.
Qed.

(** A call of [uv_spawn], in a process where -1 is not an open descriptor,
    always comes back unless [poll] never stops being interrupted.  It
    returns -1, with the error of the first step that failed, if a step up
    to [fork] fails.  Otherwise it waits for the first answer of [poll]
    that is not an error with EINTR or ENOMEM: it returns 0 if that answer
    reports the hang-up, and is aborted by a failed [assert] if that
    answer is another error or a readiness without the hang-up. *)
Theorem uv_spawn_comes_back (env : spawn_env) (process : uv_process_t)
    (options : uv_process_options_t) (w : world) :
  -1 ∉ w_fds w ->
  match spawn_error env options with
  | Some e =>
      exists process' w',
        uv_spawn env process options w = Done (-1, process') w' /\
        last_err (w_loop w') = SysError e
  | None =>
      match polls_until (e_polls env) with
      | None => uv_spawn env process options w = Stuck
      | Some (_, PollErr _) =>
          exists w', uv_spawn env process options w = Crash w'
      | Some (_, PollReady revents) =>
          if Z.land revents POLLHUP =? POLLHUP
          then exists process' w',
                 uv_spawn env process options w = Done (0, process') w'
          else exists w', uv_spawn env process options w = Crash w'
      end
  end.
Proof.
  intros Hneg.
  pose proof (uv_spawn_outcome env process options w _ Hneg eq_refl) as Hout.
  destruct (spawn_error env options) as [e|] eqn:He; [|exact Hout].
  destruct Hout as (process' & w' & Hrun).
  exists process', w'. split; [exact Hrun|].
  destruct (uv_spawn_spec _ _ _ _ _ _ _ Hneg Hrun)
    as (_ & [(_ & _ & _ & _ & _ & (e' & He' & Herr) & _)|(Hr & _)]);
    [|discriminate Hr].
  rewrite He in He'. injection He' as <-. exact Herr.
Qed.

Lemma uv_spawn_comes_back_witness :
  exists process' w',
    uv_spawn env_spawn_ok process0 options_pipes world0
    = Done (0, process') w'.
Proof.
  pose proof (uv_spawn_comes_back env_spawn_ok process0 options_pipes world0
                world0_no_minus_one) as H.
  assert (spawn_error env_spawn_ok options_pipes = None) as Hs
    by reflexivity.
  assert (polls_until (e_polls env_spawn_ok)
          = Some ([PollErr EINTR], PollReady POLLHUP)) as Hp by reflexivity.
  rewrite Hs, Hp in H. exact H.
Defined.

(** When [uv_spawn] returns -1, nothing it did is left: every descriptor it
    opened is closed again, no process was added, the handle's pid and
    child watcher are as they were, nothing was registered with the
    reactor, and the loop's last error is the errno of the first step that
    failed (EINVAL for a stream that is not a pipe). *)
Theorem uv_spawn_failure_unwinds (env : spawn_env) (process : uv_process_t)
    (options : uv_process_options_t) (w : world)
    (process' : uv_process_t) (w' : world) :
  -1 ∉ w_fds w ->
  uv_spawn env process options w = Done (-1, process') w' ->
  w_fds w' = w_fds w /\
  w_procs w' = w_procs w /\
  process' = Process (p_pid process) (o_exit_cb options)
               (p_child_watcher process) /\
  (exists e, spawn_error env options = Some e /\
             last_err (w_loop w') = SysError e) /\
  exists evs, w_trace w' = w_trace w ++ evs /\
              Forall (fun ev => ~ registers ev) evs.
Proof.
  intros Hneg Hrun.
  destruct (uv_spawn_spec _ _ _ _ _ _ _ Hneg Hrun)
    as ((_ & _ & _ & _ & Hcb)
        & [(_ & Hfds & Hprocs & Hpid & Hwatch & Herr & evs & Ht & Hq & _)
          |(Hr & _)]); [|discriminate Hr].
  split; [exact Hfds|]. split; [exact Hprocs|].
  split; [destruct process'; cbn in *; congruence|].
  split; [exact Herr|]. exists evs. split; [exact Ht | exact Hq].
Qed.

Lemma uv_spawn_failure_unwinds_witness :
  exists process' w',
    uv_spawn env_spawn_fork_fails process0 options_pipes world0
    = Done (-1, process') w' /\
    w_fds w' = w_fds world0 /\
    last_err (w_loop w') = SysError 11.
Proof.
  assert (exists process' w',
            uv_spawn env_spawn_fork_fails process0 options_pipes world0
            = Done (-1, process') w') as (process' & w' & Hrun)
    by (eexists _, _; vm_compute; reflexivity).
  destruct (uv_spawn_failure_unwinds env_spawn_fork_fails process0
              options_pipes world0 process' w' world0_no_minus_one Hrun)
    as (Hfds & _ & _ & (e & He & Herr) & _).
  exists process', w'. split; [exact Hrun|]. split; [exact Hfds|].
  rewrite Herr. vm_compute in He. injection He as <-. reflexivity.
Defined.



(** Whether it returns 0 or -1, a call of [uv_spawn] has counted itself in
    the loop's counter of process handles exactly once, has stored the
    request's exit callback in the handle, and has left the environment
    (which the child's branch overwrites before [execvp]) and the loop's
    clock as they were. *)
Theorem uv_spawn_bookkeeping (env : spawn_env) (process : uv_process_t)
    (options : uv_process_options_t) (w : world) (r : Z)
    (process' : uv_process_t) (w' : world) :
  -1 ∉ w_fds w ->
  uv_spawn env process options w = Done (r, process') w' ->
  (r = 0 \/ r = -1) /\
  counters_process_init (w_loop w')
  = counters_process_init (w_loop w) + 1 /\
  loop_time (w_loop w') = loop_time (w_loop w) /\
  w_environ w' = w_environ w /\
  p_exit_cb process' = o_exit_cb options.
Proof.
  intros Hneg Hrun.
  destruct (uv_spawn_spec _ _ _ _ _ _ _ Hneg Hrun)
    as ((Hcount & Htime & Henv & _ & Hcb) & Hr).
  split; [destruct Hr as [(-> & _)|(-> & _)]; [by right | by left]|].
  split; [exact Hcount|]. split; [exact Htime|].
  split; [exact Henv | exact Hcb].
Qed.

Lemma uv_spawn_bookkeeping_witness :
  exists process' w',
    uv_spawn env_spawn_fork_fails process0 options_pipes world0
    = Done (-1, process') w' /\
    counters_process_init (w_loop w') = 1 /\
    p_exit_cb process' = Some 7%nat.
Proof.
  assert (exists process' w',
            uv_spawn env_spawn_fork_fails process0 options_pipes world0
            = Done (-1, process') w') as (process' & w' & Hrun)
    by (eexists _, _; vm_compute; reflexivity).
  destruct (uv_spawn_bookkeeping env_spawn_fork_fails process0
              options_pipes world0 (-1) process' w' world0_no_minus_one Hrun)
    as (_ & Hcount & _ & _ & Hcb).
  exists process', w'. split; [exact Hrun|].
  split; [exact Hcount | exact Hcb].
Defined.

(** The loop around [poll]: it calls [poll] once for every answer that is
    an error with EINTR or ENOMEM and once more for the first answer that
    is not, always on the same descriptor and for POLLIN and POLLHUP, and
    comes back with that answer; it touches nothing but errno. *)
Theorem spawn_wait_exec_retries (fd : Z) (retries : list poll_res)
    (last : poll_res) (rest : list poll_res) (w : world) :
  Forall (fun o => poll_retry o = true) retries ->
  poll_retry last = false ->
  exists w',
    spawn_wait_exec (retries ++ last :: rest) fd w
    = Done (poll_result last) w' /\
    w_trace w' = w_trace w ++ map (poll_event fd) (retries ++ [last]) /\
    w_errno w' = poll_errno last /\
    w_fds w' = w_fds w /\ w_procs w' = w_procs w /\
    w_environ w' = w_environ w /\ w_loop w' = w_loop w.
Proof.
  intros Hr Hl. destruct w as [fds procs pgrp errno environ loop sp h tr].
  rewrite spawn_wait_exec_eq, (polls_until_app _ _ _ Hr Hl).
  eexists. split; [reflexivity|]. by cbn.
Qed.

Lemma spawn_wait_exec_retries_witness :
  exists w',
    spawn_wait_exec [PollErr EINTR; PollErr ENOMEM; PollReady POLLHUP] 7
      world0
    = Done (1, POLLHUP) w' /\
    length (w_trace w') = 3%nat.
Proof.
  destruct (spawn_wait_exec_retries 7 [PollErr EINTR; PollErr ENOMEM]
              (PollReady POLLHUP) [] world0)
    as (w' & Hrun & Ht & _); [by repeat constructor | reflexivity |].
  exists w'. split; [exact Hrun|]. by rewrite Ht.
Defined.

(** ** The child of the async engine *)

(** In the child of [uv_spawn], a standard descriptor is redirected
    exactly if the pipe of its stream was made, and then to the child's end
    of that pipe: the read end for stdin, the write ends for stdout and
    stderr; the parent's end of the same pipe is closed just before. *)
Theorem uv_spawn_child_redirects (options : uv_process_options_t)
    (stdin_pipe stdout_pipe stderr_pipe : Z * Z) (chdir_ok exec_ok : bool) :
  let evs := uv_spawn_child options stdin_pipe stdout_pipe stderr_pipe
               chdir_ok exec_ok in
  (forall fd, In (ChDup2 fd STDIN_FILENO) evs <->
              0 <= fst stdin_pipe /\ fd = fst stdin_pipe) /\
  (forall fd, In (ChDup2 fd STDOUT_FILENO) evs <->
              0 <= snd stdout_pipe /\ fd = snd stdout_pipe) /\
  (forall fd, In (ChDup2 fd STDERR_FILENO) evs <->
              0 <= snd stderr_pipe /\ fd = snd stderr_pipe) /\
  (forall fd, In (ChClose fd) evs <->
              (0 <= fst stdin_pipe /\ fd = snd stdin_pipe) \/
              (0 <= snd stdout_pipe /\ fd = fst stdout_pipe) \/
              (0 <= snd stderr_pipe /\ fd = fst stderr_pipe)).
Proof.
  cbv zeta. unfold uv_spawn_child.
  destruct (Z.leb_spec 0 (fst stdin_pipe)),
           (Z.leb_spec 0 (snd stdout_pipe)),
           (Z.leb_spec 0 (snd stderr_pipe)),
           (o_cwd options), chdir_ok, exec_ok; cbn.
  all: repeat split; intros; 
    repeat match goal with
           | H : _ \/ _ |- _ => destruct H
           | H : _ /\ _ |- _ => destruct H
           | H : False |- _ => destruct H
           | H : ChDup2 _ _ = ChDup2 _ _ |- _ => injection H as <-
           | H : ChClose _ = ChClose _ |- _ => injection H as <-
           | H : _ = _ |- _ => discriminate H
           end;
    subst; try lia; try tauto.
Qed.

(** The child of [uv_spawn] ends with [_exit(127)] whenever [chdir] or
    [execvp] fails; after a failed [chdir] it calls neither [execvp] nor
    sets the environment; and it only ever calls [execvp] right after it
    has set the environment to the request's. *)
Theorem uv_spawn_child_failure_exits_127 (options : uv_process_options_t)
    (stdin_pipe stdout_pipe stderr_pipe : Z * Z) (chdir_ok exec_ok : bool) :
  let evs := uv_spawn_child options stdin_pipe stdout_pipe stderr_pipe
               chdir_ok exec_ok in
  let chdir_fails := match o_cwd options with
                     | Some _ => negb chdir_ok
                     | None => false
                     end in
  (chdir_fails = true ->
   last evs = Some (ChExit 127) /\
   forall ev, In ev evs ->
              ev <> ChExecvp (o_file options) (o_args options) /\
              ev <> ChEnviron (o_env options)) /\
  (chdir_fails = false ->
   exists pre,
     evs = pre ++ [ChEnviron (o_env options);
                   ChExecvp (o_file options) (o_args options)]
               ++ (if exec_ok then []
                   else [ChPerror "execvp()"; ChExit 127])).
Proof.
  cbv zeta. unfold uv_spawn_child. split; intros Hc.
  - rewrite Hc. destruct (o_cwd options) as [dir|]; [|discriminate Hc].
    destruct chdir_ok; [discriminate Hc|].
    split.
    + rewrite !app_assoc. by rewrite last_snoc.
    + intros ev Hin.
      destruct (0 <=? fst stdin_pipe), (0 <=? snd stdout_pipe),
        (0 <=? snd stderr_pipe); cbn in Hin;
        repeat (destruct Hin as [<-|Hin]; [split; discriminate|]);
        destruct Hin.
  - rewrite Hc. eexists. rewrite !app_assoc. reflexivity.
Qed.

Lemma uv_spawn_child_failure_exits_127_witness :
  last (uv_spawn_child options_cwd (-1, -1) (-1, -1) (-1, -1) false true)
  = Some (ChExit 127).
Proof.
  exact (proj1 (proj1 (uv_spawn_child_failure_exits_127 options_cwd
                         (-1, -1) (-1, -1) (-1, -1) false true)
                  eq_refl)).
Defined.

(** ** The termination reporter *)

(** [uv__chld] is aborted by its [assert], before it does anything, when
    the event it is called for is not a child event.  Otherwise it stops
    the child watcher, and then calls the exit callback if the handle has
    one, once, and does nothing else; of the exit status and the
    termination signal that it hands over at least one is zero. *)
Theorem uv__chld_reports (process : uv_process_t) (revents : Z)
    (w : world) :
  if Z.land revents EV_CHILD =? 0
  then uv__chld process revents w = Crash w
  else
    exists exit_status term_signal,
      uv__chld process revents w
      = Done (Process (p_pid process) (p_exit_cb process)
                (Watcher false (cw_pid (p_child_watcher process))
                   (cw_rstatus (p_child_watcher process))))
          (match p_exit_cb process with
           | Some cb =>
               log (EvExitCb cb exit_status term_signal) (log EvChildStop w)
           | None => log EvChildStop w
           end) /\
      (exit_status = 0 \/ term_signal = 0).
Proof.
  unfold uv__chld.
  destruct (Z.land revents EV_CHILD =? 0); [reflexivity|].
  cbn. eexists _, _. split.
  - destruct (p_exit_cb process); reflexivity.
  - unfold WIFEXITED, WIFSIGNALED.
    destruct (WTERMSIG (cw_rstatus (p_child_watcher process)) =? 0);
      cbn; [by right | by left].
Qed.

(** ** The handler of SIGCHLD of the sync engine *)





(** ** More on the sync engine *)

Lemma closes_no_io (fds : list Z) : Forall no_io (closes fds).
Proof.
  unfold closes. apply Forall_forall.
  intros ev (x & -> & _)%list_elem_of_fmap. done.
Qed.

Lemma sync_reach_0 (env : sync_env) (spawn : uv_spawn_sync_t) (w : world)
    (s1 : uv_spawn_sync_t) (l : sync_locals) (w1 : world) :
  sync_reach env spawn w 0 = Some (s1, l, w1) ->
  sync_setup env spawn w = Done (inr (s1, l)) w1.
Proof.
  unfold sync_reach.
  destruct (sync_setup env spawn w) as [[rs|[s l1]] w2| |]; try done.
  cbn. by intros [= -> -> ->].
Qed.

(** Once the set-up of [uv_spawn_sync] has gone through, every return of
    the call leaves the descriptor table as it was at the call: the call
    closes, each with success, the descriptors that it still holds, which
    are descriptors that were not open at the call.  Unless the child was
    reaped (return 0 without the timed-out flag), the last thing the call
    does is to send SIGKILL to the child. *)
Theorem uv_spawn_sync_exit_cleans_up (env : sync_env)
    (spawn : uv_spawn_sync_t) (w : world)
    (s1 : uv_spawn_sync_t) (l : sync_locals) (w1 : world)
    (r : Z) (spawn' : uv_spawn_sync_t) (w' : world) :
  sync_reach env spawn w 0 = Some (s1, l, w1) ->
  uv_spawn_sync env spawn w = Done (r, spawn') w' ->
  w_fds w' = w_fds w /\
  exists p held pre post,
    y_fork env = ForkOk p /\
    NoDup held /\ (forall fd, fd ∈ held -> fd ∉ w_fds w) /\
    w_trace w' = pre ++ closes held ++ post /\
    ((r = 0 /\ s_exit_timeout spawn' = 0 /\ post = []) \/
     ((r = -1 \/ (r = 0 /\ s_exit_timeout spawn' = 1)) /\
      post = [EvKill (Z.pos p) SIGKILL 0])).
Proof.
  intros Hreach Hcall.
  pose proof (sync_reach_0 _ _ _ _ _ _ Hreach) as Hset.
  destruct (uv_spawn_sync_exit _ _ _ _ _ _ Hcall)
    as [(_ & Hset')|(p & sk & l' & wk & sel_r & evs & Hfork & Hinv & Hfds
                      & Ht & Hexit)];
    [rewrite Hset in Hset'; discriminate Hset'|].
  split; [exact Hfds|].
  pose proof (inv_held_nodup _ _ _ _ _ _ Hinv) as Hnd.
  pose proof (inv_held_fresh _ _ _ _ _ _ Hinv) as Hfresh.
  pose proof (inv_pid _ _ _ _ _ _ Hinv) as Hpid.
  pose proof (inv_exit_timeout _ _ _ _ _ _ Hinv) as Hto.
  exists p, (held_fds sk l' (w_sigchld_pipe wk)).
  destruct Hexit
    as [(-> & _ & -> & -> & _)
       |[(-> & pc & status & s'' & evs1 & Hcur & -> & -> & _)
        |(-> & _ & (evs1 & ->) & _)]].
  - exists (w_trace wk ++ [select_event sk l' wk sel_r]),
      [EvKill (Z.pos p) SIGKILL 0].
    split; [done|]. split; [done|]. split; [done|].
    split; [rewrite Ht, Hpid, <- !app_assoc; reflexivity|].
    right. split; [|done]. right. split; [done|]. by destruct sk.
  - exists (w_trace wk ++ select_event sk l' wk sel_r :: evs1
            ++ [EvWait (Z.pos pc) status]), [].
    split; [done|]. split; [done|]. split; [done|].
    split; [rewrite Ht, app_nil_r, <- !app_assoc; cbn;
            rewrite <- !app_assoc; reflexivity|].
    left. split; [done|]. split; [|done].
    destruct Hcur as (a & b & c & -> & _). unfold decode_status.
    destruct sk; cbn in *.
    destruct (WIFEXITED status), (WIFSIGNALED status); cbn; exact Hto.
  - exists (w_trace wk ++ select_event sk l' wk sel_r :: evs1),
      [EvKill (Z.pos p) SIGKILL 0].
    split; [done|]. split; [done|]. split; [done|].
    split; [rewrite Ht, Hpid, <- !app_assoc; reflexivity|].
    right. split; [by left | done].
Qed.

Lemma uv_spawn_sync_exit_cleans_up_witness :
  exists spawn' w',
    uv_spawn_sync env_timeout spawn_cat world0 = Done (0, spawn') w' /\
    w_fds w' = w_fds world0.
Proof.
  assert (exists spawn' w',
            uv_spawn_sync env_timeout spawn_cat world0
            = Done (0, spawn') w') as (spawn' & w' & Hcall)
    by (eexists _, _; vm_compute; reflexivity).
  assert (exists s1 l w1,
            sync_reach env_timeout spawn_cat world0 0 = Some (s1, l, w1))
    as (s1 & l & w1 & Hreach)
    by (eexists _, _, _; vm_compute; reflexivity).
  destruct (uv_spawn_sync_exit_cleans_up env_timeout spawn_cat world0
              s1 l w1 0 spawn' w' Hreach Hcall) as (Hfds & _).
  exists spawn', w'. split; [exact Hcall | exact Hfds].
Defined.



(** The set-up of [uv_spawn_sync] overwrites the output fields of the
    record, whatever the caller left in them: the pid is the child's, the
    exit code and the termination signal are -1, the timed-out flag and
    the two read counts are zero.  It does not touch the count of bytes
    written to stdin: the loop starts to send from where the caller left
    that count. *)
Theorem sync_setup_resets_outputs (env : sync_env) (spawn : uv_spawn_sync_t)
    (w : world) (s1 : uv_spawn_sync_t) (l : sync_locals) (w1 : world) :
  sync_reach env spawn w 0 = Some (s1, l, w1) ->
  exists p,
    y_fork env = ForkOk p /\
    s_pid s1 = Z.pos p /\ (Z.pos p ∈ w_procs w1) /\
    s_exit_code s1 = -1 /\ s_exit_signal s1 = -1 /\
    s_exit_timeout s1 = 0 /\
    s_stdout_read s1 = 0 /\ s_stderr_read s1 = 0 /\
    s_stdin_written s1 = s_stdin_written spawn.
Proof.
  intros Hreach.
  pose proof (sync_reach_0 _ _ _ _ _ _ Hreach) as Hset.
  destruct (sync_setup_inv _ _ _ _ _ _ Hset)
    as (p & Hfork & Hinv & Hout & Herr & Hin).
  destruct Hinv as [_ _ _ _ _ _ Hpid _ Hlive Hcode Hsig Hto _ _ _ _].
  exists p. rewrite Hpid. by repeat split.
Qed.

Lemma sync_setup_resets_outputs_witness :
  exists s1 l w1,
    sync_reach env_timeout spawn_reused world0 0 = Some (s1, l, w1) /\
    s_exit_code spawn_reused = 3 /\ s_exit_code s1 = -1 /\
    s_stdout_read spawn_reused = 16 /\ s_stdout_read s1 = 0 /\
    s_stdin_written spawn_reused = 5 /\ s_stdin_written s1 = 5.
Proof.
  assert (exists s1 l w1,
            sync_reach env_timeout spawn_reused world0 0 = Some (s1, l, w1))
    as (s1 & l & w1 & Hreach)
    by (eexists _, _, _; vm_compute; reflexivity).
  destruct (sync_setup_resets_outputs env_timeout spawn_reused world0
              s1 l w1 Hreach)
    as (p & _ & _ & _ & Hcode & _ & _ & Hout & _ & Hin).
  exists s1, l, w1. split; [exact Hreach|].
  split; [reflexivity|]. split; [exact Hcode|].
  split; [reflexivity|]. split; [exact Hout|].
  split; [reflexivity | exact Hin].
Defined.

(** When [select] is interrupted (EINTR), the pass ends there and the loop
    goes round: nothing is read, written, closed or killed, the record and
    the loop (its last error and its cached clock) are as they were. *)
Theorem sync_select_interrupted (e : iter_env) (spawn : uv_spawn_sync_t)
    (l : sync_locals) (w : world) :
  i_select e = SelErr EINTR ->
  exists w',
    sync_iter e spawn l w = Done (Continue spawn) w' /\
    w_trace w' = w_trace w ++ [select_event spawn l w (-1)] /\
    w_fds w' = w_fds w /\ w_procs w' = w_procs w /\ w_loop w' = w_loop w.
Proof.
  intros Hsel. rewrite (sync_iter_select_err _ _ _ _ _ Hsel).
  destruct w. cbn. eexists. split; [reflexivity|]. by cbn.
Qed.

Lemma sync_select_interrupted_witness :
  exists w',
    sync_iter pass_interrupted spawn_cat (Locals (3, 4) (5, 6) (-1, -1) 8 0)
      world0
    = Done (Continue spawn_cat) w' /\
    w_loop w' = w_loop world0.
Proof.
  destruct (sync_select_interrupted pass_interrupted spawn_cat
              (Locals (3, 4) (5, 6) (-1, -1) 8 0) world0 eq_refl)
    as (w' & Hrun & _ & _ & _ & Hloop).
  exists w'. split; [exact Hrun | exact Hloop].
Defined.

(** In a pass of the loop in which [select] finds something ready, the
    only calls of [write] and [read] are those of the three stream blocks,
    in the order stdin, stdout, stderr; and every [read] is on the capture
    pipe of its buffer, at the first free byte of the buffer, for at
    least one byte and at most the room that is left. *)
Theorem sync_pass_reads_within_buffers (env : sync_env)
    (spawn : uv_spawn_sync_t) (w : world) (n : nat)
    (sk : uv_spawn_sync_t) (l : sync_locals) (wk : world) (e : iter_env)
    (rd wr : gset Z) :
  sync_reach env spawn w n = Some (sk, l, wk) ->
  y_iters env !! n = Some e ->
  i_select e = SelReady rd wr ->
  select_count sk l wk rd wr <> 0 ->
  exists f w' ev_in ev_out ev_err rest,
    sync_iter e sk l wk = Done f w' /\
    w_trace w'
    = w_trace wk
      ++ select_event sk l wk (select_count sk l wk rd wr)
      :: ev_in ++ ev_out ++ ev_err ++ rest /\
    Forall is_write ev_in /\
    Forall (is_read_within (fst (l_stdout_pipe l)) (s_stdout_buf sk)
              (s_stdout_size sk) (s_stdout_read sk)) ev_out /\
    Forall (is_read_within (fst (l_stderr_pipe l)) (s_stderr_buf sk)
              (s_stderr_size sk) (s_stderr_read sk)) ev_err /\
    Forall no_io rest.
Proof.
  intros Hreach Hn Hsel Hnz.
  destruct (sync_reach_spec _ _ _ _ _ _ _ _ Hreach Hn)
    as ((p & Hfork & Hinv) & _).
  destruct (sync_inv_held _ _ _ _ _ _ Hinv)
    as (Hnd & Hopen & Hpos & Hlive & _).
  destruct (sync_tail_spec e sk l
              (sync_read_fds sk l (w_sigchld_pipe wk) ∩ rd)
              (sync_write_fds sk l ∩ wr)
              (log (select_event sk l wk (select_count sk l wk rd wr)) wk))
    as (f & w' & ev1 & ev2 & ev3 & Heq & Hev1 & Hev2 & _ & _ & Hev3 & _ & _
        & _ & Hf & _); trivial.
  rewrite <- (sync_iter_ready _ _ _ _ _ _ Hsel Hnz) in Heq.
  exists f, w', ev1, ev2, ev3.
  destruct f as [s'|r s'].
  - destruct Hf as (_ & _ & _ & _ & _ & Ht).
    exists []. split; [exact Heq|].
    split; [destruct wk; cbn in *; rewrite Ht, app_nil_r, <- !app_assoc;
            reflexivity|].
    repeat split; trivial.
  - destruct Hf as (_ & [(_ & pc & status & s'' & _ & _ & _ & _ & _ & Ht)
                        |(_ & _ & _ & _ & evw & Hevw & Ht)]).
    + exists (EvWait (Z.pos pc) status
              :: closes (held_fds sk l (w_sigchld_pipe wk))).
      split; [exact Heq|].
      split; [destruct wk; cbn in *; rewrite Ht, <- !app_assoc;
              reflexivity|].
      repeat split; trivial.
      apply List.Forall_cons; [exact I | apply closes_no_io].
    + exists (evw ++ closes (held_fds sk l (w_sigchld_pipe wk))
              ++ [EvKill (s_pid sk) SIGKILL 0]).
      split; [exact Heq|].
      split; [destruct wk; cbn in *; rewrite Ht, <- !app_assoc;
              reflexivity|].
      repeat split; trivial.
      apply Forall_app. split; [destruct Hevw as [->| ->]; by repeat constructor|].
      apply Forall_app. split; [apply closes_no_io | by repeat constructor].
Qed.

Lemma sync_pass_reads_within_buffers_witness :
  exists sk l wk f w',
    sync_reach env_eof spawn_cat world0 0 = Some (sk, l, wk) /\
    sync_iter (IterEnv (SelReady {[5]} ∅) (IoOk 0) (IoOk 0) (IoOk 0)
                 (WaitErr ECHILD) 1) sk l wk
    = Done f w'.
Proof.
  assert (exists sk l wk,
            sync_reach env_eof spawn_cat world0 0 = Some (sk, l, wk)
            /\ select_count sk l wk {[5]} ∅ <> 0)
    as (sk & l & wk & Hreach & Hnz)
    by (eexists _, _, _; split; [vm_compute; reflexivity|];
        vm_compute; discriminate).
  destruct (sync_pass_reads_within_buffers env_eof spawn_cat world0 0
              sk l wk _ {[5]} ∅ Hreach eq_refl eq_refl Hnz)
    as (f & w' & _ & _ & _ & _ & Hit & _).
  exists sk, l, wk, f, w'. split; [exact Hreach | exact Hit].
Defined.

(** ** The child of the sync engine *)

(** In the child of [uv_spawn_sync], the [assert] fails exactly if the
    combine flag is set and buffers for stdout and for stderr are both
    supplied; the child then never gets to [execvp].  Otherwise it calls
    [execvp], and if that fails it exits with 127.  With the combine flag
    and a stdout buffer, the child's stderr is the write end of the stdout
    pipe. *)
Theorem uv_spawn_sync_child_steps (spawn : uv_spawn_sync_t)
    (stdin_pipe stdout_pipe stderr_pipe : Z * Z) (exec_ok : bool) :
  let evs := uv_spawn_sync_child spawn stdin_pipe stdout_pipe stderr_pipe
               exec_ok in
  let clash := nonnull (s_stdout_buf spawn) && negb (s_combine spawn =? 0)
               && nonnull (s_stderr_buf spawn) in
  (if clash
   then last evs = Some ChAssertFailed /\
        ~ In (ChExecvp (s_file spawn) (s_args spawn)) evs
   else ~ In ChAssertFailed evs /\
        exists pre,
          evs = pre ++ [ChExecvp (s_file spawn) (s_args spawn)]
                    ++ (if exec_ok then [] else [ChErrNew; ChExit 127])) /\
  (nonnull (s_stdout_buf spawn) && negb (s_combine spawn =? 0) = true ->
   In (ChDup2 (snd stdout_pipe) STDERR_FILENO) evs).
Proof.
  cbv zeta. unfold uv_spawn_sync_child.
  destruct (nonnull (s_stdin_buf spawn)), (nonnull (s_stdout_buf spawn)),
    (s_combine spawn =? 0), (nonnull (s_stderr_buf spawn)), exec_ok;
    cbn; (split; [|first [discriminate | tauto]]).
  all: first
    [ split; [reflexivity|];
      intros H;
      repeat (destruct H as [H|H]; [discriminate H|]); destruct H
    | split;
      [ intros H;
        repeat (destruct H as [H|H]; [discriminate H|]); destruct H
      | first [ by exists []
              | by eexists [_]
              | by eexists [_; _]
              | by eexists [_; _; _]
              | by eexists [_; _; _; _]
              | by eexists [_; _; _; _; _]
              | by eexists [_; _; _; _; _; _]
              | by eexists [_; _; _; _; _; _; _] ] ] ].
Qed.


(** ** Every way out of the set-up of the sync engine *)

Ltac sync_step :=
  lazymatch goal with
  | |- ?lhs = _ -> _ =>
      let h := head_scrut lhs in
      lazymatch h with
      | bind (sys_sigaction (SysErr _) _) _ _ => unfold sys_sigaction at 1
      | bind (sys_sigaction SysOk _) _ _ => unfold sys_sigaction at 1
      | bind (sys_sigaction ?o _) _ _ => destruct o eqn:?
      | bind (sys_kill ?pid _) _ ?w =>
          let Hk := fresh "Hk" in
          let Hr := fresh "Hr" in
          rewrite bind_sys_kill;
          destruct (kill_w_live pid w) as [Hk Hr];
          [ reflexivity | cbn [w_procs]; in_set | rewrite ?Hr, Hk; clear Hk Hr ];
          simp_world
      | _ => spawn_step
      end;
      cbn [l_stdin_pipe l_stdout_pipe l_stderr_pipe l_nfds l_start_time
           s_pid fst snd]
  end.

Ltac use_sync_answers :=
  repeat first
    [ progress cbv beta iota
    | match goal with
      | H : nonnull _ = _ |- _ => progress rewrite H
      | H : y_pipe_stdin _ = _ |- _ => progress rewrite H
      | H : y_pipe_stdout _ = _ |- _ => progress rewrite H
      | H : y_pipe_stderr _ = _ |- _ => progress rewrite H
      | H : y_pipe_sigchld _ = _ |- _ => progress rewrite H
      | H : y_fork _ = _ |- _ => progress rewrite H
      | H : y_sigaction _ = _ |- _ => progress rewrite H
      end ].

Ltac no_closes :=
  repeat (apply List.Forall_cons; [exact (fun H => H)|]);
  apply List.Forall_nil.

Ltac sync_setup_leaf :=
  lazymatch goal with
  | |- exists x w1, Done (inr _) _ = Done x w1 /\ _ =>
      eexists _, _; split; [reflexivity|];
      unfold sync_setup_error, sync_setup_leak_error;
      cbn [s_stdin_buf s_stdout_buf s_stderr_buf];
      use_sync_answers; reflexivity
  | |- exists x w1, Done (inl _) _ = Done x w1 /\ _ =>
      eexists _, _; split; [reflexivity|];
      split; [reflexivity|];
      unfold sync_setup_error, sync_setup_leak_error;
      cbn [s_stdin_buf s_stdout_buf s_stderr_buf];
      use_sync_answers;
      eexists; split; [reflexivity|]; split; [reflexivity|];
      cbn [w_fds w_procs w_trace snd];
      rewrite <- ?app_assoc; cbn [app];
      lazymatch goal with
      | |- _ /\ _ =>
          split; [vm_compute; reflexivity|]; split; [reflexivity|];
          split; [clear; set_solver|];
          eexists; split; [reflexivity|]; no_closes
      | |- _ =>
          eexists _, _; split; [reflexivity|];
          split; [vm_compute; reflexivity|];
          split; [reflexivity|]; split; [reflexivity|];
          split; reflexivity
      end
  end.

(** The set-up of [uv_spawn_sync] always comes back.  It enters the loop
    exactly if no step fails.  If a [pipe] or [fork] fails, it returns -1
    at once, with that errno as the loop's last error and without one
    [close]: what it has opened stays open.  If [sigaction] fails, it
    returns -1 through the error label: the descriptor table is then as it
    was at the call, and the child has been sent SIGKILL. *)
Lemma sync_setup_outcome (env : sync_env) (spawn : uv_spawn_sync_t)
    (w : world) :
  exists x w1,
    sync_setup env spawn w = Done x w1 /\
    match x with
    | inr _ => sync_setup_error env spawn = None
    | inl rs =>
        fst rs = -1 /\
        exists e,
          sync_setup_error env spawn = Some e /\
          last_err (w_loop w1) = SysError e /\
          match sync_setup_leak_error env spawn with
          | Some _ =>
              snd rs = sync_reset spawn /\
              w_procs w1 = w_procs w /\
              w_fds w ⊆ w_fds w1 /\
              exists evs, w_trace w1 = w_trace w ++ evs /\
                          Forall (fun ev => ~ is_close ev) evs
          | None =>
              exists p evs,
                y_fork env = ForkOk p /\
                snd rs = set_pid (Z.pos p) (sync_reset spawn) /\
                w_fds w1 = w_fds w /\
                w_procs w1 = {[Z.pos p]} ∪ w_procs w /\
                w_trace w1 = w_trace w ++ evs /\
                last evs = Some (EvKill (Z.pos p) SIGKILL 0)
          end
    end.
Proof.
  enough (forall out, sync_setup env spawn w = out ->
            exists x w1,
              out = Done x w1 /\
              match x with
              | inr _ => sync_setup_error env spawn = None
              | inl rs =>
                  fst rs = -1 /\
                  exists e,
                    sync_setup_error env spawn = Some e /\
                    last_err (w_loop w1) = SysError e /\
                    match sync_setup_leak_error env spawn with
                    | Some _ =>
                        snd rs = sync_reset spawn /\
                        w_procs w1 = w_procs w /\
                        w_fds w ⊆ w_fds w1 /\
                        exists evs, w_trace w1 = w_trace w ++ evs /\
                                    Forall (fun ev => ~ is_close ev) evs
                    | None =>
                        exists p evs,
                          y_fork env = ForkOk p /\
                          snd rs = set_pid (Z.pos p) (sync_reset spawn) /\
                          w_fds w1 = w_fds w /\
                          w_procs w1 = {[Z.pos p]} ∪ w_procs w /\
                          w_trace w1 = w_trace w ++ evs /\
                          last evs = Some (EvKill (Z.pos p) SIGKILL 0)
                    end
              end) as Hrun
    by (destruct (Hrun _ eq_refl) as (x & w1 & Hout & Hx); eauto).
  destruct w as [fds0 procs0 pgrp0 errno0 environ0 [err0 count0 time0] sp0
                   h0 tr0].
  destruct spawn as [file args inb insz outb outsz errb errsz tmo comb
                       pid0 code0 sig0 to0 written0 oread0 eread0].
  intros out.
  unfold sync_setup, sync_pipe, sync_error, sync_close_pipes, uv_now,
    uv_err_new, sync_reset.
  cbn [set_pid set_exit_code set_exit_signal set_exit_timeout
       set_stdin_written set_stdout_read set_stderr_read
       s_file s_args s_stdin_buf s_stdin_size s_stdout_buf s_stdout_size
       s_stderr_buf s_stderr_size s_timeout s_combine s_pid s_exit_code
       s_exit_signal s_exit_timeout s_stdin_written s_stdout_read
       s_stderr_read w_fds w_procs w_trace].
  repeat sync_step.
  all: intros <-.
  all: sync_setup_leaf.
Qed.


(** A call of [uv_spawn_sync] in which a step of the set-up fails returns
    -1 with the errno of that step as the loop's last error.  If the step
    is a [pipe] or the [fork], the call returns at once and without one
    [close]: the descriptors it has opened stay open, and the record is
    the caller's with its output fields reset.  If the step is
    [sigaction], the call leaves through the error label: it closes what it
    holds, so that the descriptor table is as it was at the call, and the
    last thing it does is to send SIGKILL to the child, whose pid is in
    the record. *)
Theorem uv_spawn_sync_setup_failure (env : sync_env)
    (spawn : uv_spawn_sync_t) (w : world) (e : Z) :
  sync_setup_error env spawn = Some e ->
  exists spawn' w',
    uv_spawn_sync env spawn w = Done (-1, spawn') w' /\
    last_err (w_loop w') = SysError e /\
    match sync_setup_leak_error env spawn with
    | Some _ =>
        spawn' = sync_reset spawn /\
        w_procs w' = w_procs w /\
        w_fds w ⊆ w_fds w' /\
        exists evs, w_trace w' = w_trace w ++ evs /\
                    Forall (fun ev => ~ is_close ev) evs
    | None =>
        exists p evs,
          y_fork env = ForkOk p /\
          spawn' = set_pid (Z.pos p) (sync_reset spawn) /\
          w_fds w' = w_fds w /\
          w_procs w' = {[Z.pos p]} ∪ w_procs w /\
          w_trace w' = w_trace w ++ evs /\
          last evs = Some (EvKill (Z.pos p) SIGKILL 0)
    end.
Proof.
  intros He.
  destruct (sync_setup_outcome env spawn w) as (x & w1 & Hset & Hx).
  destruct x as [[r spawn']|sl]; [|rewrite Hx in He; discriminate He].
  destruct Hx as (Hr & e' & He' & Herr & Hrest).
  cbn [fst snd] in Hr, Hrest. subst r.
  rewrite He in He'. injection He' as <-.
  exists spawn', w1. split.
  - unfold uv_spawn_sync. by rewrite (bind_done _ _ _ _ _ Hset).
  - split; [exact Herr | exact Hrest].
Qed.

Lemma uv_spawn_sync_setup_failure_witness :
  exists spawn' w',
    uv_spawn_sync env_sigaction_fails spawn_cat world0 = Done (-1, spawn') w' /\
    last_err (w_loop w') = SysError 22 /\
    s_pid spawn' = 42 /\
    w_fds w' = w_fds world0.
Proof.
  destruct (uv_spawn_sync_setup_failure env_sigaction_fails spawn_cat world0
              22 eq_refl)
    as (spawn' & w' & Hcall & Herr & Hrest).
  cbn in Hrest. destruct Hrest as (p & evs & Hfork & -> & Hfds & _).
  eexists _, w'. split; [exact Hcall|]. split; [exact Herr|].
  split; [|exact Hfds]. injection Hfork as <-. reflexivity.
Defined.

(** ** The read counts stay within the buffers *)

Lemma cursors_moved_within (s s' : uv_spawn_sync_t) :
  cursors_moved s s' -> reads_within s ->
  reads_within s' /\
  s_stdout_size s' = s_stdout_size s /\ s_stderr_size s' = s_stderr_size s.
Proof.
  intros (a & b & c & -> & Hb & Hc) (Ho & He).
  destruct s. unfold reads_within. cbn in *. lia.
Qed.

Lemma decode_status_within (status : Z) (s : uv_spawn_sync_t) :
  reads_within s ->
  reads_within (decode_status status s) /\
  s_stdout_size (decode_status status s) = s_stdout_size s /\
  s_stderr_size (decode_status status s) = s_stderr_size s.
Proof.
  unfold decode_status, reads_within.
  destruct s, (WIFEXITED status), (WIFSIGNALED status); cbn; tauto.
Qed.

Lemma pass_exit_within (s : uv_spawn_sync_t) (l : sync_locals)
    (w w' : world) (sel_r ret : Z) (s' : uv_spawn_sync_t)
    (evs : list event) :
  pass_exit s l w w' sel_r ret s' evs -> reads_within s ->
  reads_within s' /\
  s_stdout_size s' = s_stdout_size s /\ s_stderr_size s' = s_stderr_size s.
Proof.
  intros [(_ & _ & -> & _)
         |[(_ & p & status & s'' & evs1 & Hcur & -> & _)
          |(_ & Hcur & _)]] Hin.
  - by destruct s.
  - destruct (cursors_moved_within _ _ Hcur Hin) as (Hin' & Ho & He).
    destruct (decode_status_within status s'' Hin') as (? & Ho' & He').
    split; [done|]. by rewrite Ho', He'.
  - by apply cursors_moved_within.
Qed.

Lemma sync_loop_within (w0 : world) (spawn0 : uv_spawn_sync_t) (child : Z)
    (l : sync_locals) (its : list iter_env) :
  forall (s : uv_spawn_sync_t) (w : world) (rs : Z * uv_spawn_sync_t)
         (w' : world),
  sync_inv w0 spawn0 child s l w ->
  reads_within s ->
  sync_loop its s l w = Done rs w' ->
  reads_within (snd rs) /\
  s_stdout_size (snd rs) = s_stdout_size s /\
  s_stderr_size (snd rs) = s_stderr_size s.
Proof.
  induction its as [|e its IH]; intros s w rs w' Hinv Hin Hloop; [done|].
  cbn in Hloop.
  destruct (sync_iter_spec _ _ _ e _ _ _ Hinv)
    as (f & w1 & r & evs & Hit & Ht & Hf).
  rewrite (bind_done _ _ _ _ _ Hit) in Hloop.
  destruct f as [s1|ret s1].
  - destruct Hf as (Hinv1 & _ & Hcur).
    destruct (cursors_moved_within _ _ Hcur Hin) as (Hin1 & Ho & He).
    destruct (IH s1 w1 rs w' Hinv1 Hin1 Hloop) as (Hfin & Ho' & He').
    split; [exact Hfin|]. by rewrite Ho', He'.
  - injection Hloop as <- <-. destruct Hf as (_ & Hexit).
    by apply (pass_exit_within _ _ _ _ _ _ _ _ Hexit).
Qed.

(** When a call of [uv_spawn_sync] whose capture capacities are not
    negative comes back, whatever it returns, each of the two read counts
    in the record is between zero and the capacity of its buffer, and the
    capacities are as the caller gave them: the call has stored no byte
    past the end of a capture buffer. *)
Theorem uv_spawn_sync_reads_within_capacity (env : sync_env)
    (spawn : uv_spawn_sync_t) (w : world) (r : Z)
    (spawn' : uv_spawn_sync_t) (w' : world) :
  0 <= s_stdout_size spawn -> 0 <= s_stderr_size spawn ->
  uv_spawn_sync env spawn w = Done (r, spawn') w' ->
  0 <= s_stdout_read spawn' <= s_stdout_size spawn /\
  0 <= s_stderr_read spawn' <= s_stderr_size spawn /\
  s_stdout_size spawn' = s_stdout_size spawn /\
  s_stderr_size spawn' = s_stderr_size spawn.
Proof.
  intros Hout Herr Hcall.
  destruct (uv_spawn_sync_done _ _ _ _ _ Hcall)
    as [Hset|(s1 & l & w1 & Hset & Hloop)].
  - destruct (sync_setup_outcome env spawn w) as (x & w2 & Hset2 & Hx).
    rewrite Hset in Hset2. injection Hset2 as <- <-.
    destruct Hx as (_ & e & _ & _ & Hrest). cbn [snd] in Hrest.
    destruct (sync_setup_leak_error env spawn).
    + destruct Hrest as (-> & _). destruct spawn. cbn in *. lia.
    + destruct Hrest as (p & evs & _ & -> & _). destruct spawn. cbn in *. lia.
  - destruct (sync_setup_inv _ _ _ _ _ _ Hset)
      as (p & Hfork & Hinv & Ho & He & _).
    pose proof (inv_stdout_size _ _ _ _ _ _ Hinv) as Hso.
    pose proof (inv_stderr_size _ _ _ _ _ _ Hinv) as Hse.
    assert (reads_within s1) as Hin
      by (unfold reads_within; rewrite Ho, He, Hso, Hse; lia).
    destruct (sync_loop_within _ _ _ _ _ _ _ _ _ Hinv Hin Hloop)
      as ((Hfo & Hfe) & Hzo & Hze).
    cbn [snd] in *. rewrite Hzo, Hso in Hfo. rewrite Hze, Hse in Hfe.
    split; [exact Hfo|]. split; [exact Hfe|]. split; congruence.
Qed.

Lemma uv_spawn_sync_reads_within_capacity_witness :
  exists spawn' w',
    uv_spawn_sync env_overflow spawn_cat world0 = Done (-1, spawn') w' /\
    0 <= s_stdout_read spawn' <= 16.
Proof.
  assert (exists spawn' w',
            uv_spawn_sync env_overflow spawn_cat world0
            = Done (-1, spawn') w') as (spawn' & w' & Hcall)
    by (eexists _, _; vm_compute; reflexivity).
  destruct (uv_spawn_sync_reads_within_capacity env_overflow spawn_cat
              world0 (-1) spawn' w') as (Hout & _);
    [cbn; lia | cbn; lia | exact Hcall |].
  exists spawn', w'. split; [exact Hcall | exact Hout].
Defined.



Lemma done_inr_inv {A B} (a a' : B) (w w' : world) :
  @Done (A + B) (inr a) w = Done (inr a') w' -> a' = a /\ w' = w.
Proof. intros H. by injection H as -> ->. Qed.

Lemma done_inl_inr {A B} (a : A) (b : B) (w w' : world) :
  @Done (A + B) (inl a) w = Done (inr b) w' -> False.
Proof. intros H. discriminate H. Qed.

(** The first argument that the set-up computes for [select] is above
    every descriptor that the loop puts into its sets, and those
    descriptors are not negative. *)
Lemma sync_setup_nfds (env : sync_env) (spawn : uv_spawn_sync_t) (w : world)
    (s1 : uv_spawn_sync_t) (l : sync_locals) (w1 : world) :
  sync_setup env spawn w = Done (inr (s1, l)) w1 ->
  forall fd,
    fd ∈ sync_read_fds spawn l (w_sigchld_pipe w1) ∪ sync_write_fds spawn l ->
    0 <= fd < l_nfds l.
Proof.
  enough (forall out, sync_setup env spawn w = out ->
            out = Done (inr (s1, l)) w1 ->
            forall fd,
              fd ∈ sync_read_fds spawn l (w_sigchld_pipe w1)
                   ∪ sync_write_fds spawn l ->
              0 <= fd < l_nfds l) as Hrun by (intros H; by apply (Hrun _ H)).
  destruct w as [fds0 procs0 pgrp0 errno0 environ0 [err0 count0 time0] sp0
                   h0 tr0].
  destruct spawn as [file args inb insz outb outsz errb errsz tmo comb
                       pid0 code0 sig0 to0 written0 oread0 eread0].
  intros out.
  unfold sync_setup, sync_pipe, sync_error, sync_close_pipes, uv_now,
    uv_err_new.
  cbn [set_pid set_exit_code set_exit_signal set_exit_timeout
       set_stdin_written set_stdout_read set_stderr_read
       s_file s_args s_stdin_buf s_stdin_size s_stdout_buf s_stdout_size
       s_stderr_buf s_stderr_size s_timeout s_combine s_pid s_exit_code
       s_exit_signal s_exit_timeout s_stdin_written s_stdout_read
       s_stderr_read w_fds w_procs w_trace].
  repeat sync_step.
  all: intros <- Heq.
  all: try (exfalso; exact (done_inl_inr _ _ _ _ Heq)).
  all: apply done_inr_inv in Heq; destruct Heq as (Hsl & ->).
  all: injection Hsl as -> ->.
  all: unfold sync_read_fds, sync_write_fds, MAX.
  all: cbn [s_stdin_buf s_stdout_buf s_stderr_buf l_stdin_pipe l_stdout_pipe
            l_stderr_pipe l_nfds w_sigchld_pipe fst snd].
  all: repeat match goal with
              | H : nonnull _ = _ |- _ => rewrite H
              end.
  all: intros fd Hfd; set_unfold in Hfd.
  all: repeat match goal with
              | |- context [?a <? ?b] => destruct (Z.ltb_spec a b)
              | H : context [?a <? ?b] |- _ => destruct (Z.ltb_spec a b)
              end.
  all: repeat match goal with
              | H : _ ∉ _ |- _ => clear H
              | H : _ <> _ |- _ => clear H
              end.
  all: lia.
Qed.

Lemma wait_set_held (s : uv_spawn_sync_t) (l : sync_locals) (sp : Z * Z)
    (fd : Z) :
  fd ∈ sync_read_fds s l sp ∪ sync_write_fds s l -> fd ∈ held_fds s l sp.
Proof.
  unfold sync_read_fds, sync_write_fds, held_fds.
  destruct (nonnull (s_stdin_buf s)), (nonnull (s_stdout_buf s)),
    (nonnull (s_stderr_buf s)); cbn; set_solver.
Qed.

(** In every pass of the loop of [uv_spawn_sync], each descriptor in the
    sets handed to [select] is open, was opened by this call, is not
    negative, and is below the first argument of [select]. *)
Theorem sync_select_descriptors (env : sync_env) (spawn : uv_spawn_sync_t)
    (w : world) (n : nat) (sk : uv_spawn_sync_t) (l : sync_locals)
    (wk : world) (e : iter_env) :
  sync_reach env spawn w n = Some (sk, l, wk) ->
  y_iters env !! n = Some e ->
  exists f w' nfds rd wr tv_sec tv_usec r evs,
    sync_iter e sk l wk = Done f w' /\
    w_trace w'
    = w_trace wk ++ EvSelect nfds rd wr tv_sec tv_usec r :: evs /\
    forall fd, fd ∈ rd ∪ wr ->
               0 <= fd < nfds /\ fd ∈ w_fds wk /\ fd ∉ w_fds w.
Proof.
  intros Hreach Hn.
  destruct (sync_reach_setup _ _ _ _ _ _ _ Hreach)
    as (s1 & w1 & p & Hset & Hfork & Hinv & Hsp).
  destruct (sync_iter_spec _ _ _ e _ _ _ Hinv)
    as (f & w' & r & evs & Hit & Ht & _).
  unfold select_event in Ht.
  eexists f, w', _, _, _, _, _, r, evs.
  split; [exact Hit|]. split; [exact Ht|].
  intros fd Hfd.
  destruct (sync_inv_held _ _ _ _ _ _ Hinv) as (_ & Hopen & _).
  pose proof (inv_held_fresh _ _ _ _ _ _ Hinv) as Hfresh.
  pose proof (wait_set_held _ _ _ _ Hfd) as Hheld.
  split; [|split; [by apply Hopen | by apply Hfresh]].
  apply (sync_setup_nfds _ _ _ _ _ _ Hset). rewrite <- Hsp.
  revert Hfd. unfold sync_read_fds, sync_write_fds.
  by rewrite (inv_stdin_buf _ _ _ _ _ _ Hinv),
    (inv_stdout_buf _ _ _ _ _ _ Hinv), (inv_stderr_buf _ _ _ _ _ _ Hinv).
Qed.

Lemma sync_select_descriptors_witness :
  exists sk l wk f w',
    sync_reach env_eof spawn_cat world0 1 = Some (sk, l, wk) /\
    sync_iter pass_idle sk l wk = Done f w'.
Proof.
  assert (exists sk l wk,
            sync_reach env_eof spawn_cat world0 1 = Some (sk, l, wk))
    as (sk & l & wk & Hreach)
    by (eexists _, _, _; vm_compute; reflexivity).
  destruct (sync_select_descriptors env_eof spawn_cat world0 1 sk l wk
              pass_idle Hreach eq_refl)
    as (f & w' & nfds & rd & wr & ts & tu & r & evs & Hit & _).
  exists sk, l, wk, f, w'. split; [exact Hreach | exact Hit].
Defined.

